(** * riscv-hpc-benchmark: the OpenMP examples and STREAM, embedded and verified

  The three C programs of the repository ([openmp-examples/matmul.c],
  [openmp-examples/vector_add.c], [stream/stream.c]) are embedded as Rocq
  functions.  A C [double] is a primitive binary64 float, so every kernel
  and every verifier below can be evaluated on concrete buffers; a buffer
  ([double *] together with its length) is a [list float] accessed by index.
  Loop counters are natural numbers: the programs only run with sizes whose
  products fit the C integer types (a signed overflow would be undefined
  behaviour, not a wrap-around). *)

From Stdlib Require Import ZArith List Lia Bool Floats String.
From stdpp Require Import base option list.

#[local] Set Warnings "-inexact-float".
#[local] Open Scope float_scope.

(** ** C doubles, buffers and counted loops *)

Module C.

(** A C [double] is a binary64 float. *)
Abbreviation double := float (only parsing).

(** [x > y], [x < y] and [x >= y] on doubles: false as soon as an operand is NaN. *)
Definition gt (x y : double) : bool := y <? x.
Definition lt (x y : double) : bool := x <? y.
Definition ge (x y : double) : bool := y <=? x.

(** [fabs] of <math.h>. *)
Definition fabs (x : double) : double := abs x.

(** [p[i]] and [p[i] = v] on a buffer.  The programs index inside the
    allocated length only; outside it the list is left as it is. *)
Definition load (p : list double) (i : nat) : double := nth i p 0.
Definition store (p : list double) (i : nat) (v : double) : list double :=
  <[i := v]> p.

(** [for (i = lo; i < hi; i++) body], threading the state the body updates. *)
Definition for_loop {S : Type} (lo hi : nat) (body : nat -> S -> S) (s : S) : S :=
  fold_left (fun s i => body i s) (seq lo (hi - lo)) s.

(** [#pragma omp parallel for]: the iterations take effect in the order the
    runtime schedules them.  [sched] is that order; it is a schedule of the
    loop when it is a permutation of the iteration space. *)
Definition omp_parallel_for {I S : Type} (sched : list I) (body : I -> S -> S)
    (s : S) : S :=
  fold_left (fun s i => body i s) sched s.

(** [(double) z] for an integer [z]: the nearest binary64 value. *)
Definition double_of_int (z : Z) : double :=
  SF2Prim (binary_normalize prec emax z 0 false).

(** [(int) x]: truncation toward zero; undefined ([None]) for NaN, the
    infinities and values outside the range of [int]. *)
Definition INT_MAX : Z := 2147483647.
Definition INT_MIN : Z := -2147483648.

Definition trunc_SF (x : spec_float) : option Z :=
  match x with
  | S754_zero _ => Some 0%Z
  | S754_finite s m e =>
      let mag := match e with
                 | Z0 => Zpos m
                 | Zpos p => (Zpos m * 2 ^ Zpos p)%Z
                 | Zneg p => (Zpos m / 2 ^ Zpos p)%Z
                 end in
      Some (if s then (- mag)%Z else mag)
  | _ => None
  end.

Definition int_of_double (x : double) : option Z :=
  match trunc_SF (Prim2SF x) with
  | Some z => if ((INT_MIN <=? z) && (z <=? INT_MAX))%Z then Some z else None
  | None => None
  end.

(** A double that is neither NaN nor an infinity. *)
Definition is_finite (x : double) : bool :=
  match Prim2SF x with
  | S754_zero _ | S754_finite _ _ _ => true
  | _ => false
  end.

Definition is_nan (x : double) : bool :=
  match Prim2SF x with
  | S754_nan => true
  | _ => false
  end.

End C.

(** ** The operating system's clocks and the process's output *)

Module OS.
Import C.

(** [struct timespec] and [struct timeval]. *)
Record timespec := Timespec { ts_sec : Z; ts_nsec : Z }.
Record timeval := Timeval { tv_sec : Z; tv_usec : Z }.

(** What the clocks show at the [k]-th clock call of the process.
    [uptime_ns] is the time since boot in nanoseconds, which the system
    never sets back; [wall_offset_us] is the difference, in microseconds,
    between the wall clock and the uptime: it changes whenever the wall
    clock is set or stepped (by the administrator or by NTP). *)
Record clocks := Clocks { uptime_ns : nat -> Z; wall_offset_us : nat -> Z }.

(** [clock_gettime(CLOCK_MONOTONIC, &ts)]. *)
Definition clock_gettime_monotonic (os : clocks) (k : nat) : timespec :=
  Timespec (uptime_ns os k / 1000000000) (uptime_ns os k mod 1000000000).

(** [gettimeofday(&tp, &tzp)]: the wall clock. *)
Definition gettimeofday (os : clocks) (k : nat) : timeval :=
  let us := (uptime_ns os k / 1000 + wall_offset_us os k)%Z in
  Timeval (us / 1000000) (us mod 1000000).

Inductive out_event :=
| Stdout (line : string)
| Stderr (line : string).

(** The process state the embedding threads through a [main]: how many
    clock calls were made, and what was written to the two streams (only
    the lines the properties below are about are recorded; banners and
    number formatting are not). *)
Record world := World { clock_calls : nat; output : list out_event }.

Definition start : world := World 0 [].

Definition print (e : out_event) (w : world) : world :=
  World (clock_calls w) (output w ++ [e]).

(** [get_time] of the OpenMP examples:
    [ts.tv_sec + ts.tv_nsec * 1e-9] on the CLOCK_MONOTONIC reading. *)
Definition timespec_seconds (ts : timespec) : double :=
  double_of_int (ts_sec ts) + double_of_int (ts_nsec ts) * 1e-9.

Definition get_time (os : clocks) (w : world) : double * world :=
  (timespec_seconds (clock_gettime_monotonic os (clock_calls w)),
   World (S (clock_calls w)) (output w)).

(** [mysecond] of STREAM:
    [(double) tp.tv_sec + (double) tp.tv_usec * 1.e-6] on gettimeofday. *)
Definition timeval_seconds (tp : timeval) : double :=
  double_of_int (tv_sec tp) + double_of_int (tv_usec tp) * 1e-6.

Definition mysecond (os : clocks) (w : world) : double * world :=
  (timeval_seconds (gettimeofday os (clock_calls w)),
   World (S (clock_calls w)) (output w)).

End OS.

(** ** openmp-examples/matmul.c *)

Module Matmul.
Import C OS.

Definition MATRIX_SIZE : nat := 1024.
Definition ITERATIONS : nat := 5.

(** [initialize_matrix]: [matrix[i*n+j] = (double)((i + j + seed) % 100) / 10.0]. *)
Definition initialize_matrix (matrix : list double) (n seed : nat) : list double :=
  for_loop 0 n (fun i m =>
    for_loop 0 n (fun j m =>
      store m (i * n + j)
        (double_of_int (Z.of_nat ((i + j + seed) mod 100)) / 10)) m) matrix.

(** The innermost loop: [sum = 0.0; for k: sum += A[i*n+k] * B[k*n+j]]. *)
Definition dot (A B : list double) (n i j : nat) : double :=
  for_loop 0 n (fun k sum => sum + load A (i * n + k) * load B (k * n + j)) 0.

(** The body of the [j] loop: compute [sum] and store it in [C[i*n+j]]. *)
Definition cell (A B : list double) (n : nat) (i j : nat) (C : list double)
    : list double :=
  store C (i * n + j) (dot A B n i j).

Definition matmul_serial (A B C : list double) (n : nat) : list double :=
  for_loop 0 n (fun i C => for_loop 0 n (fun j C => cell A B n i j C) C) C.

(** [#pragma omp parallel for] on the [i] loop: the rows are computed in the
    order [rows] of the schedule, each row by the sequential [j] loop. *)
Definition matmul_parallel (rows : list nat) (A B C : list double) (n : nat)
    : list double :=
  omp_parallel_for rows
    (fun i C => for_loop 0 n (fun j C => cell A B n i j C) C) C.

(** The iteration space of the [i]-[j] nest, in program order. *)
Definition ij_space (n : nat) : list (nat * nat) :=
  flat_map (fun i => map (fun j => (i, j)) (seq 0 n)) (seq 0 n).

(** [#pragma omp parallel for collapse(2)]: the fused [i]-[j] space is
    scheduled cell by cell, in the order [cells]. *)
Definition matmul_parallel_collapse (cells : list (nat * nat))
    (A B C : list double) (n : nat) : list double :=
  omp_parallel_for cells (fun ij C => cell A B n (fst ij) (snd ij) C) C.

(** One line printed by [verify_results]: index, both values, [fabs] of the
    difference. *)
Record error_line := ErrorLine
  { err_index : nat; err_ref : double; err_cand : double; err_diff : double }.

Record verify_state := VerifyState
  { errors : nat; printed : list error_line }.

(** The body of the loop of [verify_results]. *)
Definition verify_step (C1 C2 : list double) (tolerance : double) (i : nat)
    (st : verify_state) : verify_state :=
  if gt (fabs (load C1 i - load C2 i)) tolerance then
    let errors' := S (errors st) in
    VerifyState errors'
      (if (errors' <=? 5)%nat
       then printed st ++ [ErrorLine i (load C1 i) (load C2 i)
                             (fabs (load C1 i - load C2 i))]
       else printed st)
  else st.

Definition verify_run (C1 C2 : list double) (n : nat) (tolerance : double)
    : verify_state :=
  for_loop 0 (n * n) (verify_step C1 C2 tolerance) (VerifyState 0 []).

(** [verify_results] returns the error count; its output is [verify_output]. *)
Definition verify_results (C1 C2 : list double) (n : nat) (tolerance : double)
    : nat :=
  errors (verify_run C1 C2 n tolerance).

Definition verify_output (C1 C2 : list double) (n : nat) (tolerance : double)
    : list error_line :=
  printed (verify_run C1 C2 n tolerance).

(** The state of a timing loop: the process state, the output matrix of
    the kernel, and the running minimum. *)
Record bench := Bench
  { bench_world : world; bench_out : list double; bench_min : double }.

(** One iteration of a timing loop of [main]: the time of every iteration,
    the first included, is compared with the running minimum. *)
Definition timed_iteration (os : clocks)
    (kernel : nat -> list double -> list double) (iter : nat) (st : bench)
    : bench :=
  let (start_time, w) := get_time os (bench_world st) in
  let out := kernel iter (bench_out st) in
  let (end_time, w) := get_time os w in
  let elapsed := end_time - start_time in
  Bench w out (if lt elapsed (bench_min st) then elapsed else bench_min st).

Record report := Report
  { min_serial_time : double;
    min_parallel_time : double;
    min_collapse_time : double;
    errors_parallel : nat;
    errors_collapse : nat }.

Record run := Run
  { exit_code : Z; final : world; reported : option report }.

Definition verdict (errors : nat) : out_event :=
  if (errors =? 0)%nat then Stdout "  Verification: PASSED"
  else Stdout "  Verification: FAILED".

(** The end of [main], from "Verify correctness" on: both comparisons are
    made and printed, the performance figures follow, and [main] returns 0. *)
Definition verify_and_exit (n : nat) (w : world)
    (C_serial C_parallel C_collapse : list double)
    (min_serial min_parallel min_collapse : double) : run :=
  let errors_parallel := verify_results C_serial C_parallel n 1e-6 in
  let w := print (verdict errors_parallel) w in
  let errors_collapse := verify_results C_serial C_collapse n 1e-6 in
  let w := print (verdict errors_collapse) w in
  Run 0 w
    (Some (Report min_serial min_parallel min_collapse
             errors_parallel errors_collapse)).

(** [main].  [n] is [MATRIX_SIZE]; [m_A] ... are what the five [malloc]
    calls return ([None] for [NULL], otherwise the [n * n] values the fresh
    memory happens to hold); [rows k] is the schedule of the [k]-th call of
    [matmul_parallel] (the warm-up is call 0) and [cells k] that of the
    [k]-th call of [matmul_parallel_collapse]. *)
Definition main (n : nat) (os : clocks)
    (m_A m_B m_C_serial m_C_parallel m_C_collapse : option (list double))
    (rows : nat -> list nat) (cells : nat -> list (nat * nat)) : run :=
  match m_A, m_B, m_C_serial, m_C_parallel, m_C_collapse with
  | Some A, Some B, Some C_serial, Some C_parallel, Some C_collapse =>
      let A := initialize_matrix A n 1 in
      let B := initialize_matrix B n 2 in
      let C_parallel := matmul_parallel (rows 0%nat) A B C_parallel n in
      let serial :=
        for_loop 0 ITERATIONS
          (timed_iteration os (fun _ C => matmul_serial A B C n))
          (Bench start C_serial 1e9) in
      let parallel :=
        for_loop 0 ITERATIONS
          (timed_iteration os
             (fun iter C => matmul_parallel (rows (S iter)) A B C n))
          (Bench (bench_world serial) C_parallel 1e9) in
      let collapse :=
        for_loop 0 ITERATIONS
          (timed_iteration os
             (fun iter C => matmul_parallel_collapse (cells iter) A B C n))
          (Bench (bench_world parallel) C_collapse 1e9) in
      verify_and_exit n (bench_world collapse)
        (bench_out serial) (bench_out parallel) (bench_out collapse)
        (bench_min serial) (bench_min parallel) (bench_min collapse)
  | _, _, _, _, _ =>
      Run 1 (print (Stderr "Memory allocation failed") start) None
  end.

End Matmul.

(** ** openmp-examples/vector_add.c *)

Module VectorAdd.
Import C OS.

Definition VECTOR_SIZE : nat := Z.to_nat 100000000.
Definition ITERATIONS : nat := 10.

Definition vector_add_serial (a b c : list double) (n : nat) : list double :=
  for_loop 0 n (fun i c => store c i (load a i + load b i)) c.

Definition vector_add_parallel (sched : list nat) (a b c : list double)
    : list double :=
  omp_parallel_for sched (fun i c => store c i (load a i + load b i)) c.

Record mismatch_line := MismatchLine
  { mis_index : nat; mis_ref : double; mis_cand : double }.

(** The loop of [verify_results], which returns from inside the loop at the
    first mismatch: the result is the returned [int] and what was printed. *)
Fixpoint verify_scan (c1 c2 : list double) (tolerance : double)
    (indices : list nat) : Z * list mismatch_line :=
  match indices with
  | [] => (1%Z, [])
  | i :: rest =>
      if gt (fabs (load c1 i - load c2 i)) tolerance
      then (0%Z, [MismatchLine i (load c1 i) (load c2 i)])
      else verify_scan c1 c2 tolerance rest
  end.

Definition verify_results (c1 c2 : list double) (n : nat) (tolerance : double)
    : Z :=
  fst (verify_scan c1 c2 tolerance (seq 0 n)).

Definition verify_output (c1 c2 : list double) (n : nat) (tolerance : double)
    : list mismatch_line :=
  snd (verify_scan c1 c2 tolerance (seq 0 n)).

(** The state of a timing loop: the process state, the output buffer of the
    kernel, and the running minimum. *)
Record bench := Bench
  { bench_world : world; bench_out : list double; bench_min : double }.

(** One iteration of a timing loop of [main]. *)
Definition timed_iteration (os : clocks)
    (kernel : nat -> list double -> list double) (iter : nat) (st : bench)
    : bench :=
  let (start_time, w) := get_time os (bench_world st) in
  let out := kernel iter (bench_out st) in
  let (end_time, w) := get_time os w in
  let elapsed := end_time - start_time in
  Bench w out (if lt elapsed (bench_min st) then elapsed else bench_min st).

Record report := Report
  { min_serial_time : double; min_parallel_time : double; verified : Z }.

Record run := Run
  { exit_code : Z; final : world; reported : option report }.

(** The end of [main], from "Verify correctness" on. *)
Definition verify_and_exit (n : nat) (w : world) (c_serial c_parallel : list double)
    (min_serial min_parallel : double) : run :=
  let ok := verify_results c_serial c_parallel n 1e-9 in
  if (ok =? 0)%Z
  then Run 1 (print (Stdout "Verification: FAILED") w)
         (Some (Report min_serial min_parallel ok))
  else Run 0 (print (Stdout "Verification: PASSED") w)
         (Some (Report min_serial min_parallel ok)).

(** [main].  [n] is [VECTOR_SIZE]; the four arguments [m_a] ... are what the
    four [malloc] calls return ([None] for [NULL], otherwise the [n] values
    the fresh memory happens to hold); [init_sched] and [add_sched k] are
    the schedules of the initialisation loop and of the [k]-th call of
    [vector_add_parallel]. *)
Definition main (n : nat) (os : clocks)
    (m_a m_b m_c_serial m_c_parallel : option (list double))
    (init_sched : list nat) (add_sched : nat -> list nat) : run :=
  match m_a, m_b, m_c_serial, m_c_parallel with
  | Some a, Some b, Some c_serial, Some c_parallel =>
      let '(a, b) :=
        omp_parallel_for init_sched
          (fun i ab => (store (fst ab) i (double_of_int (Z.of_nat i)),
                        store (snd ab) i (double_of_int (Z.of_nat (n - i)))))
          (a, b) in
      let c_parallel := vector_add_parallel (add_sched 0%nat) a b c_parallel in
      let serial :=
        for_loop 0 ITERATIONS
          (timed_iteration os (fun _ c => vector_add_serial a b c n))
          (Bench start c_serial 1e9) in
      let parallel :=
        for_loop 0 ITERATIONS
          (timed_iteration os
             (fun iter c => vector_add_parallel (add_sched (S iter)) a b c))
          (Bench (bench_world serial) c_parallel 1e9) in
      verify_and_exit n (bench_world parallel) (bench_out serial)
        (bench_out parallel) (bench_min serial) (bench_min parallel)
  | _, _, _, _ =>
      Run 1 (print (Stderr "Memory allocation failed") start) None
  end.

End VectorAdd.

(** ** stream/stream.c *)

Module Stream.
Import C OS.

(** The compile-time configuration: [STREAM_ARRAY_SIZE] and [NTIMES] (both
    may be overridden with [-D]; the defaults are 10000000 and 10).
    [STREAM_TYPE] is [double], [OFFSET] is 0. *)
Record config := Config { STREAM_ARRAY_SIZE : nat; NTIMES : nat }.

Definition default_config : config := Config (Z.to_nat 10000000) 10.

Definition sizeof_STREAM_TYPE : Z := 8.

(** [FLT_MAX] of <float.h>, as the [double] it initialises. *)
Definition FLT_MAX : double := 0x1.fffffep127.

(** The three file-scope arrays. *)
Record arrays := Arrays { a : list double; b : list double; c : list double }.

(** Static storage: zero-initialised. *)
Definition static_arrays (cfg : config) : arrays :=
  let z := replicate (STREAM_ARRAY_SIZE cfg) 0 in Arrays z z z.

Inductive kernel := Copy | Scale | Add | Triad.

(** The schedules the OpenMP runtime picks for the parallel loops of a run:
    the initialisation loop, the loop that doubles [a], and the loop of
    each kernel in each trial.  The build without OpenMP runs every loop
    in index order. *)
Record schedules := Schedules
  { sched_init : list nat;
    sched_double : list nat;
    sched_kernel : nat -> kernel -> list nat }.

Definition in_order (cfg : config) : schedules :=
  let s := seq 0 (STREAM_ARRAY_SIZE cfg) in
  Schedules s s (fun _ _ => s).

(** "Initialize arrays". *)
Definition init_arrays (sched : list nat) (st : arrays) : arrays :=
  omp_parallel_for sched
    (fun j st => Arrays (store (a st) j 1) (store (b st) j 2) (store (c st) j 0))
    st.

(** [a[j] = 2.0E0 * a[j]], the loop timed to estimate the test duration. *)
Definition double_a (sched : list nat) (st : arrays) : arrays :=
  omp_parallel_for sched
    (fun j st => Arrays (store (a st) j (2 * load (a st) j)) (b st) (c st))
    st.

(** The four kernels. *)
Definition copy (sched : list nat) (st : arrays) : arrays :=
  omp_parallel_for sched
    (fun j st => Arrays (a st) (b st) (store (c st) j (load (a st) j)))
    st.

Definition scale (scalar : double) (sched : list nat) (st : arrays) : arrays :=
  omp_parallel_for sched
    (fun j st => Arrays (a st) (store (b st) j (scalar * load (c st) j)) (c st))
    st.

Definition add (sched : list nat) (st : arrays) : arrays :=
  omp_parallel_for sched
    (fun j st =>
       Arrays (a st) (b st) (store (c st) j (load (a st) j + load (b st) j)))
    st.

Definition triad (scalar : double) (sched : list nat) (st : arrays) : arrays :=
  omp_parallel_for sched
    (fun j st =>
       Arrays (store (a st) j (load (b st) j + scalar * load (c st) j))
         (b st) (c st))
    st.

Definition run_kernel (scalar : double) (k : kernel) (sched : list nat)
    (st : arrays) : arrays :=
  match k with
  | Copy => copy sched st
  | Scale => scale scalar sched st
  | Add => add sched st
  | Triad => triad scalar sched st
  end.

(** Fallible steps: a result, undefined behaviour (an out-of-range
    conversion to [int]), or a spin loop that has not ended within the
    steps allowed ([fuel]). *)
Inductive outcome (A : Type) :=
| Done (x : A)
| Undefined
| OutOfFuel.
Arguments Done {A} x.
Arguments Undefined {A}.
Arguments OutOfFuel {A}.

Definition bind {A B : Type} (m : outcome A) (f : A -> outcome B) : outcome B :=
  match m with
  | Done x => f x
  | Undefined => Undefined
  | OutOfFuel => OutOfFuel
  end.

Notation "x <- m ;; k" := (bind m (fun x => k))
  (at level 100, m at next level, right associativity).

(** A conversion to [int] as a step: undefined when out of range. *)
Definition cast (x : double) : outcome Z :=
  match int_of_double x with
  | Some z => Done z
  | None => Undefined
  end.

(** ** [checktick] *)

Definition M : nat := 20.

(** [while (((t2 = mysecond()) - t1) < 1.0E-6) ;] *)
Fixpoint spin (os : clocks) (fuel : nat) (t1 : double) (w : world)
    : outcome (double * world) :=
  match fuel with
  | O => OutOfFuel
  | S fuel =>
      let (t2, w) := mysecond os w in
      if lt (t2 - t1) 1e-6 then spin os fuel t1 w else Done (t2, w)
  end.

(** The first loop: collect [M] timestamps, each one the first reading at
    least a microsecond after the reading that opened its round. *)
Fixpoint collect (os : clocks) (fuel : nat) (rounds : nat)
    (timesfound : list double) (w : world) : outcome (list double * world) :=
  match rounds with
  | O => Done (timesfound, w)
  | S rounds =>
      let (t1, w) := mysecond os w in
      r <- spin os fuel t1 w ;;
      collect os fuel rounds (timesfound ++ [fst r]) (snd r)
  end.

(** [Delta = (int)(1.0E6 * (timesfound[i] - timesfound[i-1]))]. *)
Definition delta (timesfound : list double) (i : nat) : option Z :=
  int_of_double (1e6 * (load timesfound i - load timesfound (i - 1))).

(** The second loop: the minimum of the deltas, starting from 1000000. *)
Fixpoint min_delta (timesfound : list double) (indices : list nat) (minDelta : Z)
    : outcome Z :=
  match indices with
  | [] => Done minDelta
  | i :: rest =>
      match delta timesfound i with
      | Some Delta =>
          min_delta timesfound rest (if (minDelta <? Delta)%Z then minDelta else Delta)
      | None => Undefined
      end
  end.

Definition checktick (os : clocks) (fuel : nat) (w : world) : outcome (Z * world) :=
  r <- collect os fuel M [] w ;;
  d <- min_delta (fst r) (seq 1 (M - 1)) 1000000 ;;
  Done (d, snd r).

(** The caller's use of [checktick]: [quantum] as [main] goes on with it. *)
Definition quantum_of (ticks : Z) : Z :=
  if (1 <=? ticks)%Z then ticks else 1%Z.

(** ** The main loop *)

(** [times[4][NTIMES]], one row per kernel.  The array is not initialised
    in C; every entry that is read has been written before. *)
Definition times_t := list (list double).

Definition times_get (times : times_t) (j k : nat) : double :=
  load (nth j times []) k.

Definition times_set (times : times_t) (j k : nat) (v : double) : times_t :=
  <[j := store (nth j times []) k v]> times.

Definition kernel_row (k : kernel) : nat :=
  match k with Copy => 0 | Scale => 1 | Add => 2 | Triad => 3 end.

Record loop_state := LoopState
  { ls_arrays : arrays; ls_times : times_t; ls_world : world }.

(** One timed kernel of a trial:
    [times[r][k] = mysecond(); <kernel>; times[r][k] = mysecond() - times[r][k]]. *)
Definition timed_kernel (os : clocks) (sch : schedules) (scalar : double)
    (k : nat) (kern : kernel) (st : loop_state) : loop_state :=
  let r := kernel_row kern in
  let (t0, w) := mysecond os (ls_world st) in
  let times := times_set (ls_times st) r k t0 in
  let arr := run_kernel scalar kern (sched_kernel sch k kern) (ls_arrays st) in
  let (t1, w) := mysecond os w in
  LoopState arr (times_set times r k (t1 - times_get times r k)) w.

(** The body of the main loop: trial [k]. *)
Definition trial (os : clocks) (sch : schedules) (scalar : double) (k : nat)
    (st : loop_state) : loop_state :=
  let st := timed_kernel os sch scalar k Copy st in
  let st := timed_kernel os sch scalar k Scale st in
  let st := timed_kernel os sch scalar k Add st in
  timed_kernel os sch scalar k Triad st.

Definition main_loop (cfg : config) (os : clocks) (sch : schedules)
    (st : loop_state) : loop_state :=
  for_loop 0 (NTIMES cfg) (trial os sch 3) st.

(** ** "Summarize results" *)

Record summary := Summary
  { avgtime : list double; mintime : list double; maxtime : list double }.

Definition summary0 : summary :=
  Summary [0; 0; 0; 0] [FLT_MAX; FLT_MAX; FLT_MAX; FLT_MAX] [0; 0; 0; 0].

Definition summarize_step (times : times_t) (k j : nat) (s : summary) : summary :=
  let t := times_get times j k in
  Summary
    (store (avgtime s) j (load (avgtime s) j + t))
    (store (mintime s) j (if lt (load (mintime s) j) t then load (mintime s) j else t))
    (store (maxtime s) j (if gt (load (maxtime s) j) t then load (maxtime s) j else t)).

(** [for (k=1; k<NTIMES; k++)], skipping the first iteration. *)
Definition accumulate (cfg : config) (times : times_t) : summary :=
  for_loop 1 (NTIMES cfg)
    (fun k s => for_loop 0 4 (fun j s => summarize_step times k j s) s) summary0.

(** The reporting loop: [avgtime[j] = avgtime[j]/(double)(NTIMES-1)]. *)
Definition summarize (cfg : config) (times : times_t) : summary :=
  for_loop 0 4
    (fun j s =>
       Summary
         (store (avgtime s) j
            (load (avgtime s) j / double_of_int (Z.of_nat (NTIMES cfg) - 1)))
         (mintime s) (maxtime s))
    (accumulate cfg times).

(** ** [checkSTREAMresults] *)

(** The macro [abs(a)]: [((a) >= 0 ? (a) : -(a))]. *)
Definition abs_macro (x : double) : double := if ge x 0 then x else - x.

Record scalars := Scalars { aj : double; bj : double; cj : double }.

(** The four assignments of the verifier's loop body. *)
Definition scalar_kernel (scalar : double) (k : kernel) (s : scalars) : scalars :=
  match k with
  | Copy => Scalars (aj s) (bj s) (aj s)
  | Scale => Scalars (aj s) (scalar * cj s) (cj s)
  | Add => Scalars (aj s) (bj s) (aj s + bj s)
  | Triad => Scalars (bj s + scalar * cj s) (bj s) (cj s)
  end.

Definition scalar_trial (scalar : double) (s : scalars) : scalars :=
  let s := scalar_kernel scalar Copy s in
  let s := scalar_kernel scalar Scale s in
  let s := scalar_kernel scalar Add s in
  scalar_kernel scalar Triad s.

(** "reproduce initialization" and "a[] is modified during timing check". *)
Definition scalars_initial : scalars := Scalars 1 2 0.
Definition scalars_doubled (s : scalars) : scalars :=
  Scalars (2 * aj s) (bj s) (cj s).

(** The expected values: the initialisation, the doubling of [aj], then
    [NTIMES] rounds of the recurrence with [scalar = 3.0]. *)
Definition expected (cfg : config) : scalars :=
  for_loop 0 (NTIMES cfg) (fun _ s => scalar_trial 3 s)
    (scalars_doubled scalars_initial).

Definition epsilon_for (sizeof : Z) : double :=
  if (sizeof =? 4)%Z then 1e-6
  else if (sizeof =? 8)%Z then 1e-13
  else 1e-6.

(** [xSumErr]: the sum of [abs(x[j] - xj)] over the array. *)
Definition sum_err (n : nat) (x : list double) (xj : double) : double :=
  for_loop 0 n (fun j s => s + abs_macro (load x j - xj)) 0.

Definition avg_err (n : nat) (x : list double) (xj : double) : double :=
  sum_err n x xj / double_of_int (Z.of_nat n).

(** The test on one array: [abs(xAvgErr/xj) > epsilon]. *)
Definition array_fails (n : nat) (epsilon : double) (x : list double)
    (xj : double) : bool :=
  gt (abs_macro (avg_err n x xj / xj)) epsilon.

(** [ierr]: the number of elements with [abs(x[j]/xj-1.0) > epsilon]. *)
Definition count_errors (n : nat) (epsilon : double) (x : list double)
    (xj : double) : nat :=
  for_loop 0 n
    (fun j ierr => if gt (abs_macro (load x j / xj - 1)) epsilon then S ierr else ierr)
    0%nat.

(** What the verifier reports: for each array that fails, its name and
    [ierr]; [err] is the number of arrays that fail. *)
Record validation := Validation
  { err : nat; failures : list (string * nat) }.

Definition check_array (n : nat) (epsilon : double) (name : string)
    (x : list double) (xj : double) (v : validation) : validation :=
  if array_fails n epsilon x xj
  then Validation (S (err v)) (failures v ++ [(name, count_errors n epsilon x xj)])
  else v.

Definition checkSTREAMresults (cfg : config) (st : arrays) : validation :=
  let e := expected cfg in
  let n := STREAM_ARRAY_SIZE cfg in
  let epsilon := epsilon_for sizeof_STREAM_TYPE in
  let v := Validation 0 [] in
  let v := check_array n epsilon "a" (a st) (aj e) v in
  let v := check_array n epsilon "b" (b st) (bj e) v in
  check_array n epsilon "c" (c st) (cj e) v.

(** The line [checkSTREAMresults] prints last, if any. *)
Definition validation_output (v : validation) (w : world) : world :=
  let w := fold_left
             (fun w f => print (Stdout (String.append "Failed Validation on array " (fst f))) w)
             (failures v) w in
  if (err v =? 0)%nat then print (Stdout "Solution Validates") w else w.

(** ** [main] *)

Record run := Run
  { exit_code : Z;
    final_arrays : arrays;
    final_world : world;
    quantum : Z;
    times : times_t;
    results : summary;
    validated : validation }.

(** The end of [main]: "Summarize results", [checkSTREAMresults();],
    [return 0;]. *)
Definition report_and_exit (cfg : config) (quantum : Z) (st : loop_state) : run :=
  let s := summarize cfg (ls_times st) in
  let v := checkSTREAMresults cfg (ls_arrays st) in
  Run 0 (ls_arrays st) (validation_output v (ls_world st)) quantum
    (ls_times st) s v.

(** [main].  The two conversions [(int) t] and [(int) (t/quantum)] are the
    arguments of the lines that announce the expected test duration. *)
Definition main (cfg : config) (os : clocks) (sch : schedules) (fuel : nat)
    : outcome run :=
  let arr := init_arrays (sched_init sch) (static_arrays cfg) in
  r <- checktick os fuel start ;;
  let quantum := quantum_of (fst r) in
  let (t, w) := mysecond os (snd r) in
  let arr := double_a (sched_double sch) arr in
  let (t', w) := mysecond os w in
  let t := 1e6 * (t' - t) in
  _ <- cast t ;;
  _ <- cast (t / double_of_int quantum) ;;
  let st := main_loop cfg os sch
              (LoopState arr (replicate 4 (replicate (NTIMES cfg) 0)) w) in
  Done (report_and_exit cfg quantum st).

(** ** Observing a run *)

(** The schedules of a run are schedules of the loops: each one runs every
    index of the arrays once. *)
Definition valid_schedules (cfg : config) (sch : schedules) : Prop :=
  sched_init sch ≡ₚ seq 0 (STREAM_ARRAY_SIZE cfg) /\
  sched_double sch ≡ₚ seq 0 (STREAM_ARRAY_SIZE cfg) /\
  forall k kern, sched_kernel sch k kern ≡ₚ seq 0 (STREAM_ARRAY_SIZE cfg).

(** The order of the kernels in the body of the main loop. *)
Definition kernel_order : list kernel := [Copy; Scale; Add; Triad].

(** The first [m] timed kernels of trial [k]; [trial] is [trial_upto 4]. *)
Definition trial_upto (m : nat) (os : clocks) (sch : schedules) (scalar : double)
    (k : nat) (st : loop_state) : loop_state :=
  fold_left (fun st kern => timed_kernel os sch scalar k kern st)
    (take m kernel_order) st.

(** The state after [k] whole trials and the first [m] kernels of the next. *)
Definition state_at (os : clocks) (sch : schedules) (st : loop_state)
    (k m : nat) : loop_state :=
  trial_upto m os sch 3 k (for_loop 0 k (trial os sch 3) st).

(** The same positions in the verifier's scalar recurrence. *)
Definition scalars_at (s : scalars) (k m : nat) : scalars :=
  fold_left (fun s kern => scalar_kernel 3 kern s) (take m kernel_order)
    (for_loop 0 k (fun _ s => scalar_trial 3 s) s).

(** Three arrays of [n] elements, each holding one value throughout. *)
Definition broadcast (n : nat) (s : scalars) : arrays :=
  Arrays (replicate n (aj s)) (replicate n (bj s)) (replicate n (cj s)).

(** The state in which [main] enters the main loop, given the process state
    [w] reached by then. *)
Definition entry_state (cfg : config) (sch : schedules) (w : world) : loop_state :=
  LoopState
    (double_a (sched_double sch) (init_arrays (sched_init sch) (static_arrays cfg)))
    (replicate 4 (replicate (NTIMES cfg) 0)) w.

(** The value [mysecond] returns at the [k]-th clock call. *)
Definition reading (os : clocks) (k : nat) : double :=
  timeval_seconds (gettimeofday os k).

(** The spin loop that starts at clock call [c] with [t1] ends at call [q]:
    the reading of call [q] is the first one not less than a microsecond
    after [t1]. *)
Definition spun (os : clocks) (t1 : double) (c q : nat) : Prop :=
  (c <= q)%nat /\
  lt (reading os q - t1) 1e-6 = false /\
  forall k, (c <= k < q)%nat -> lt (reading os k - t1) 1e-6 = true.

(** Rounds of the first loop of [checktick] from clock call [c] on: each
    reads [t1], spins, and records the reading that ended the spin. *)
Inductive rounds (os : clocks) : nat -> list double -> nat -> Prop :=
| rounds_done (c : nat) : rounds os c [] c
| rounds_round (c q : nat) (found : list double) (c' : nat) :
    spun os (reading os c) (S c) q ->
    rounds os (S q) found c' ->
    rounds os c (reading os q :: found) c'.

(** The clock ticks within [fuel] readings of call [p]: one of the [fuel]
    readings that follow is not less than a microsecond after it. *)
Definition ticks_within (os : clocks) (fuel : nat) (p : nat) : bool :=
  existsb (fun q => negb (lt (reading os q - reading os p) 1e-6)) (seq (S p) fuel).

End Stream.



(** ** What the specification says, in its own words *)

Module Spec.
Import C.

(** "C[i,j] = sum over k of A[i,k]*B[k,j]": the product matrix, row-major,
    every entry accumulated in the order of [k]. *)
Definition product (A B : list double) (n : nat) : list double :=
  map (fun p => Matmul.dot A B n (p / n) (p mod n)) (seq 0 (n * n)).

(** "flags element i as erroneous when |reference[i] - candidate[i]| > tolerance". *)
Definition mismatch (reference candidate : list double) (tolerance : double)
    (i : nat) : bool :=
  gt (fabs (load reference i - load candidate i)) tolerance.

(** The erroneous elements of the first [len] ones, in index order. *)
Definition mismatches (reference candidate : list double) (tolerance : double)
    (len : nat) : list nat :=
  List.filter (mismatch reference candidate tolerance) (seq 0 len).

(** "records the first 5 mismatches with their values and absolute difference". *)
Definition error_line_of (reference candidate : list double) (i : nat)
    : Matmul.error_line :=
  Matmul.ErrorLine i (load reference i) (load candidate i)
    (fabs (load reference i - load candidate i)).

(** "Copy c=a; Scale b=scalar*c; Add c=a+b; Triad a=b+scalar*c", on whole
    arrays. *)
Definition kernel_effect (scalar : double) (k : Stream.kernel) (st : Stream.arrays)
    : Stream.arrays :=
  match k with
  | Stream.Copy => Stream.Arrays (Stream.a st) (Stream.b st) (Stream.a st)
  | Stream.Scale =>
      Stream.Arrays (Stream.a st) (map (fun x => scalar * x) (Stream.c st))
        (Stream.c st)
  | Stream.Add =>
      Stream.Arrays (Stream.a st) (Stream.b st)
        (zip_with (fun x y => x + y) (Stream.a st) (Stream.b st))
  | Stream.Triad =>
      Stream.Arrays
        (zip_with (fun y z => y + scalar * z) (Stream.b st) (Stream.c st))
        (Stream.b st) (Stream.c st)
  end.

(** The two conditional expressions of the timing code:
    [(m < t) ? m : t] and [(m > t) ? m : t]. *)
Definition cmin (m t : double) : double := if lt m t then m else t.
Definition cmax (m t : double) : double := if gt m t then m else t.

(** The update of the OpenMP examples: [if (t < min) min = t;]. *)
Definition lower (m t : double) : double := if lt t m then t else m.

(** "min, max, average (arithmetic mean)" of a series of samples. *)
Definition is_minimum (m : double) (l : list double) : Prop :=
  In m l /\ forall t, In t l -> (m <=? t) = true.
Definition is_maximum (m : double) (l : list double) : Prop :=
  In m l /\ forall t, In t l -> (t <=? m) = true.
Definition mean (l : list double) : double :=
  fold_left (fun s t => s + t) l 0 / double_of_int (Z.of_nat (length l)).

(** "drop iteration 0 from the series": the samples of iterations
    [1 .. NTIMES-1] of row [j] of [times]. *)
Definition remaining (cfg : Stream.config) (times : Stream.times_t) (j : nat)
    : list double :=
  map (Stream.times_get times j) (seq 1 (Stream.NTIMES cfg - 1)).

(** The elapsed time a timing loop of the OpenMP examples measures in its
    iteration [k], when the loop starts at clock call [c0]. *)
Definition sample (os : OS.clocks) (c0 k : nat) : double :=
  OS.timespec_seconds (OS.clock_gettime_monotonic os (c0 + 2 * k + 1))
  - OS.timespec_seconds (OS.clock_gettime_monotonic os (c0 + 2 * k)).

(** "starting from the initial constants a=1.0, b=2.0, c=0.0": the recurrence
    applied [ntimes] times to the constants of the initialisation. *)
Definition expected_from_initial (ntimes : nat) : Stream.scalars :=
  for_loop 0 ntimes (fun _ s => Stream.scalar_trial 3 s) Stream.scalars_initial.

(** "sum of |observed-expected| over the array, divided by the array length,
    divided by the expected value". *)
Definition sum_abs_err (x : list double) (xj : double) : double :=
  fold_left (fun s v => s + Stream.abs_macro (v - xj)) x 0.

Definition avg_rel_abs_err (x : list double) (xj : double) : double :=
  sum_abs_err x xj / double_of_int (Z.of_nat (length x)) / xj.

(** The three arrays all have [n] elements. *)
Definition sized (n : nat) (st : Stream.arrays) : Prop :=
  length (Stream.a st) = n /\ length (Stream.b st) = n /\ length (Stream.c st) = n.

(** The line the vector verifier prints for a mismatch: index and both values. *)
Definition mismatch_line_of (reference candidate : list double) (i : nat)
    : VectorAdd.mismatch_line :=
  VectorAdd.MismatchLine i (load reference i) (load candidate i).

End Spec.

(** ** Notions the proofs go through *)

Module Probe.
Import C OS.

(** The index of cell [(i, j)] in a row-major [n x n] matrix. *)
Definition ij_index (n : nat) (ij : nat * nat) : nat := fst ij * n + snd ij.

(** Running the body of the [j] loop of the matrix product over a list of
    cells. *)
Definition run_cells (A B : list double) (n : nat) (order : list (nat * nat))
    (C : list double) : list double :=
  fold_left (fun C ij => Matmul.cell A B n (fst ij) (snd ij) C) order C.

(** Values that are a zero or NaN: what the error sums of an exact result
    are made of. *)
Definition zero_or_nan (x : double) : bool :=
  match Prim2SF x with
  | S754_zero _ | S754_nan => true
  | _ => false
  end.

(** What [main] of the OpenMP examples returns when an allocation fails:
    exit code 1, the message on standard error, no clock call. *)
Definition allocation_failure_run_matmul : Matmul.run :=
  Matmul.Run 1 (World 0 [Stderr "Memory allocation failed"]) None.

Definition allocation_failure_run_vector : VectorAdd.run :=
  VectorAdd.Run 1 (World 0 [Stderr "Memory allocation failed"]) None.

End Probe.

(** ** Binary64 rounding, on integers

    The arithmetic of C doubles is SpecFloat's: every operation rounds the
    exact result to the nearest binary64 value, ties to even.  The notions
    below describe that rounding on a non-negative number [m * 2^e] given
    by integers; the proofs about the timestamp conversions go through
    them. *)

Module Round.
#[local] Open Scope Z_scope.

(** What [n >= 1] right shifts leave of [m]: the quotient, the round bit
    and the sticky bit. *)
Definition shr_spec (m n : Z) : shr_record :=
  Build_shr_record (m / 2 ^ n) (2 ^ (n - 1) <=? m mod 2 ^ n)
    (negb (m mod 2 ^ (n - 1) =? 0)).

(** [m / 2^n] rounded to the nearest integer, ties to even. *)
Definition rne (m n : Z) : Z :=
  let q := m / 2 ^ n in
  let r := m mod 2 ^ n in
  let h := 2 ^ (n - 1) in
  if r <? h then q else if r =? h then (if Z.even q then q else q + 1) else q + 1.

(** The last step of [binary_round_aux]: the overflow test. *)
Definition aux_out (s : bool) (m e : Z) : spec_float :=
  match m with
  | Z0 => S754_zero s
  | Zpos p => if e <=? emax - prec then S754_finite s p e else S754_infinity s
  | Zneg _ => S754_nan
  end.

(** Its two shifts: the first rounds, the second renormalises a mantissa
    that the rounding carried to [2^53]. *)
Definition stage1 (m e : Z) : Z * Z :=
  let n := fexp prec emax (Zdigits2 m + e) - e in
  if 0 <? n then (rne m n, e + n) else (m, e).

Definition stage2 (m e : Z) : Z * Z :=
  let n := fexp prec emax (Zdigits2 m + e) - e in
  if 0 <? n then (m / 2 ^ n, e + n) else (m, e).

Definition norm (s : bool) (r E : Z) : spec_float :=
  if r =? 2 ^ 53 then aux_out s (2 ^ 52) (E + 1) else aux_out s r E.

(** The mantissa of [m * 2^e] rounded at the exponent of its binade. *)
Definition rounded (m e : Z) : Z :=
  let E := fexp prec emax (Zdigits2 m + e) in
  if e <? E then rne m (E - e) else m.

(** The binary64 value nearest to [m * 2^e]. *)
Definition nearest (m e : Z) : spec_float := binary_normalize prec emax m e false.

(** Non-negative finite floats, as a mantissa and an exponent. *)
Definition mk (m e : Z) : spec_float :=
  match m with
  | Z0 => S754_zero false
  | Zpos p => S754_finite false p e
  | Zneg _ => S754_nan
  end.

(** The canonical representation of binary64: 53 digits unless subnormal. *)
Definition canon (m e : Z) : Prop :=
  0 <= m < 2 ^ 53 /\ -1074 <= e <= 971 /\ (e = -1074 \/ 2 ^ 52 <= m).

(** [x] is a non-negative finite double of value [v * 2^-1074]. *)
Definition repr (x : float) (v : Z) : Prop :=
  exists m e, Prim2SF x = mk m e /\ canon m e /\ m * 2 ^ (e + 1074) = v.

End Round.

(** ** Concrete inputs the statements below are evaluated on *)

Module Sample.
Import C.

(** A 2 x 2 problem: the matrices [initialize_matrix] builds, three output
    buffers, the rows and the cells scheduled in reverse order. *)
Definition A2 : list double := Matmul.initialize_matrix [0; 0; 0; 0] 2 1.
Definition B2 : list double := Matmul.initialize_matrix [0; 0; 0; 0] 2 2.
Definition fresh4 : list double := [7; 7; 7; 7].
Definition rows2 : list nat := [1; 0]%nat.
Definition cells2 : list (nat * nat) := [(1, 1); (1, 0); (0, 1); (0, 0)]%nat.

(** A STREAM build with 4-element arrays and 3 trials, a clock that advances
    by one microsecond per call, and the loops run in index order. *)
Definition cfg43 : Stream.config := Stream.Config 4 3.
Definition steady_clock : OS.clocks :=
  OS.Clocks (fun k => (5000000000 + 1000 * Z.of_nat k)%Z)
    (fun _ => 1700000000000000%Z).
Definition after_checktick : OS.world := OS.World 53 [].

(** The default number of trials on 4-element arrays; the arrays the run
    leaves, and the same with [a[2]] off by 0.25 and by 1. *)
Definition cfg410 : Stream.config := Stream.Config 4 10.
Definition left_by_run : Stream.arrays :=
  Stream.broadcast 4 (Stream.expected cfg410).
Definition perturb (d : double) : Stream.arrays :=
  Stream.Arrays
    (store (Stream.a left_by_run) 2 (Stream.aj (Stream.expected cfg410) + d))
    (Stream.b left_by_run) (Stream.c left_by_run).

(** A clock on which the first timed iteration takes one second and every
    later one three seconds. *)
Definition first_fastest : OS.clocks :=
  OS.Clocks
    (fun k => match k with
              | O => 0%Z
              | S O => 1000000000%Z
              | _ => (3000000000 * Z.of_nat k)%Z
              end)
    (fun _ => 0%Z).

(** The timing series of the specification's example, in all four rows. *)
Definition series6 : Stream.times_t := replicate 4 [5; 1; 3; 1; 9; 2].

(** A clock that advances by four seconds per call. *)
Definition slow_clock : OS.clocks :=
  OS.Clocks (fun k => (4000000000 * Z.of_nat k)%Z) (fun _ => 0%Z).

(** A STREAM build with a single trial. *)
Definition cfg41 : Stream.config := Stream.Config 4 1.

(** A system up for 100 seconds whose wall clock is set back by 50 seconds
    between the first clock call and the second, one second later. *)
Definition stepped_back : OS.clocks :=
  OS.Clocks (fun k => (100000000000 + 1000000000 * Z.of_nat k)%Z)
    (fun k => match k with O => 0%Z | _ => (-50000000)%Z end).

(** Two buffers that differ by 1 in both elements. *)
Definition zeros2 : list double := [0; 0].
Definition ones2 : list double := [1; 1].

End Sample.

(** * Verification *)

#[local] Close Scope float_scope.

(** ** Buffers and loops *)

Section Buffers.
Import C.

Lemma length_store (p : list double) i v : length (store p i v) = length p.
Proof. unfold store. apply length_insert. Qed.

Lemma load_store_eq (p : list double) i v :
  i < length p -> load (store p i v) i = v.
Proof.
  intros Hi. unfold load, store.
  rewrite nth_lookup, list_lookup_insert_eq by exact Hi. reflexivity.
Qed.

Lemma load_store_ne (p : list double) i j v :
  i <> j -> load (store p i v) j = load p j.
Proof.
  intros Hij. unfold load, store.
  rewrite !nth_lookup, list_lookup_insert_ne by exact Hij. reflexivity.
Qed.

Lemma buffer_ext (p q : list double) :
  length p = length q ->
  (forall i, i < length p -> load p i = load q i) ->
  p = q.
Proof.
  intros Hlen Hload. apply (nth_ext p q 0%float 0%float); [exact Hlen|].
  intros i Hi. apply Hload, Hi.
Qed.

(** A loop whose iteration [j] rewrites element [j] from its own old value:
    whatever the order, every scheduled element is rewritten once and the
    others are left alone. *)
Lemma pointwise_fold (g : nat -> double -> double) (sched : list nat) :
  NoDup sched ->
  forall p : list double,
  let r := fold_left (fun p j => store p j (g j (load p j))) sched p in
  length r = length p /\
  forall i, i < length p ->
    load r i = if decide (i ∈ sched) then g i (load p i) else load p i.
Proof.
  induction sched as [|j sched IH]; intros Hnd p; simpl.
  - split; [reflexivity|]. intros i _. destruct (decide (i ∈ [])) as [H|_]; [|reflexivity].
    inversion H.
  - apply NoDup_cons in Hnd as [Hj Hnd].
    destruct (IH Hnd (store p j (g j (load p j)))) as [Hlen Hval].
    rewrite length_store in Hlen, Hval. split; [exact Hlen|].
    intros i Hi. rewrite (Hval i Hi).
    destruct (decide (i = j)) as [->|Hne].
    + rewrite decide_False by exact Hj.
      rewrite decide_True by (left).
      apply load_store_eq, Hi.
    + rewrite load_store_ne by (intros E; apply Hne; symmetry; exact E).
      destruct (decide (i ∈ sched)) as [Hin|Hnin].
      * rewrite decide_True by (right; exact Hin). reflexivity.
      * rewrite decide_False; [reflexivity|].
        intros Hin. apply elem_of_cons in Hin as [E|Hin]; [exact (Hne E)|exact (Hnin Hin)].
Qed.

(** With a schedule of the whole range, the loop is the elementwise map. *)
Lemma pointwise_schedule (g : nat -> double -> double) (sched : list nat)
    (p : list double) :
  sched ≡ₚ seq 0 (length p) ->
  fold_left (fun p j => store p j (g j (load p j))) sched p
  = map (fun i => g i (load p i)) (seq 0 (length p)).
Proof.
  intros Hperm.
  assert (Hnd : NoDup sched).
  { rewrite Hperm. apply NoDup_seq. }
  destruct (pointwise_fold g sched Hnd p) as [Hlen Hval].
  apply buffer_ext.
  - rewrite Hlen, length_map, length_seq. reflexivity.
  - intros i Hi. rewrite Hlen in Hi. rewrite (Hval i Hi).
    rewrite decide_True.
    + unfold load at 2. rewrite (nth_indep _ 0%float (g 0%nat (load p 0%nat)))
        by (rewrite length_map, length_seq; exact Hi).
      rewrite (map_nth (fun i => g i (load p i))), seq_nth by exact Hi.
      reflexivity.
    + rewrite Hperm. apply elem_of_seq. lia.
Qed.

End Buffers.

(** ** Facts about binary64 arithmetic *)

Section FloatFacts.
Import C Probe.
#[local] Open Scope float_scope.

Lemma SFsub_diag (x : spec_float) :
  SFsub prec emax x x = S754_zero false \/ SFsub prec emax x x = S754_nan.
Proof.
  destruct x as [s|s| |s m e]; simpl.
  - left. destruct s; reflexivity.
  - right. destruct s; reflexivity.
  - right. reflexivity.
  - left. rewrite Z.sub_diag. reflexivity.
Qed.

Lemma sub_diag_cases (x : double) :
  Prim2SF (x - x) = S754_zero false \/ Prim2SF (x - x) = S754_nan.
Proof. rewrite sub_spec. apply SFsub_diag. Qed.

Lemma sub_diag_finite (x : double) :
  is_finite x = true -> Prim2SF (x - x) = S754_zero false.
Proof.
  unfold is_finite. rewrite sub_spec. unfold SF64sub.
  destruct (Prim2SF x) as [s|s| |s m e]; simpl; try discriminate; intros _.
  - destruct s; reflexivity.
  - rewrite Z.sub_diag. reflexivity.
Qed.

Lemma Prim2SF_zero : Prim2SF 0 = S754_zero false.
Proof. reflexivity. Qed.

Lemma SFltb_nan_r (x : spec_float) : SFltb x S754_nan = false.
Proof. destruct x; reflexivity. Qed.

Lemma SFltb_nan_l (x : spec_float) : SFltb S754_nan x = false.
Proof. destruct x; reflexivity. Qed.

(** A value compared with itself is never flagged by a tolerance that is not
    negative: the difference is [+0], or NaN when the value is not finite,
    and neither exceeds the tolerance. *)
Lemma self_difference_not_flagged (x tol : double) :
  lt tol 0 = false -> gt (fabs (x - x)) tol = false.
Proof.
  unfold lt, gt, fabs. rewrite !ltb_spec, abs_spec, Prim2SF_zero.
  intros Htol. destruct (sub_diag_cases x) as [-> | ->]; simpl.
  - exact Htol.
  - apply SFltb_nan_r.
Qed.

(** On a finite value the difference is exactly zero. *)
Lemma self_difference_within (x tol : double) :
  is_finite x = true -> (0 <=? tol) = true -> (fabs (x - x) <=? tol) = true.
Proof.
  intros Hfin Htol. unfold fabs.
  rewrite leb_spec, abs_spec, (sub_diag_finite x Hfin). simpl.
  rewrite leb_spec, Prim2SF_zero in Htol. exact Htol.
Qed.

(** The order of binary64, on the values that are not NaN. *)
Ltac order_cases :=
  repeat match goal with
  | H : context [Z.compare ?a ?b] |- _ => destruct (Z.compare_spec a b)
  | |- context [Z.compare ?a ?b] => destruct (Z.compare_spec a b)
  | H : context [Pos.compare_cont Eq ?a ?b] |- _ =>
      change (Pos.compare_cont Eq a b) with (Pos.compare a b) in *;
      destruct (Pos.compare_spec a b)
  | |- context [Pos.compare_cont Eq ?a ?b] =>
      change (Pos.compare_cont Eq a b) with (Pos.compare a b) in *;
      destruct (Pos.compare_spec a b)
  end.

Lemma SFleb_trans x y z :
  SFleb x y = true -> SFleb y z = true -> SFleb x z = true.
Proof.
  unfold SFleb.
  destruct x as [sx|sx| |sx mx ex], y as [sy|sy| |sy my ey], z as [sz|sz| |sz mz ez];
    try destruct sx; try destruct sy; try destruct sz; simpl;
    try discriminate; try reflexivity; intros H1 H2;
    order_cases; simpl in *; subst; try discriminate; try reflexivity; try lia.
Qed.

Lemma SFltb_false_leb x y :
  x <> S754_nan -> y <> S754_nan -> SFltb x y = false -> SFleb y x = true.
Proof.
  unfold SFleb, SFltb.
  destruct x as [sx|sx| |sx mx ex], y as [sy|sy| |sy my ey];
    try destruct sx; try destruct sy; simpl;
    try discriminate; try reflexivity; try congruence; intros _ _ H;
    order_cases; simpl in *; subst; try discriminate; try reflexivity; try lia.
Qed.

Lemma SFleb_ltb_false x y : SFleb x y = true -> SFltb y x = false.
Proof.
  unfold SFleb, SFltb.
  destruct x as [sx|sx| |sx mx ex], y as [sy|sy| |sy my ey];
    try destruct sx; try destruct sy; simpl;
    try discriminate; try reflexivity; intros H;
    order_cases; simpl in *; subst; try discriminate; try reflexivity; try lia.
Qed.

Lemma SFleb_not_nan x y : SFleb x y = true -> x <> S754_nan /\ y <> S754_nan.
Proof.
  unfold SFleb. destruct x, y; simpl; try discriminate; intros _; split; discriminate.
Qed.

Lemma leb_trans (x y z : double) :
  (x <=? y) = true -> (y <=? z) = true -> (x <=? z) = true.
Proof. rewrite !leb_spec. apply SFleb_trans. Qed.

Lemma ltb_false_leb (x y : double) :
  (x <=? x) = true -> (y <=? y) = true -> (x <? y) = false -> (y <=? x) = true.
Proof.
  rewrite !leb_spec, ltb_spec. intros Hx Hy.
  apply SFltb_false_leb; [apply (SFleb_not_nan _ _ Hx)|apply (SFleb_not_nan _ _ Hy)].
Qed.

Lemma leb_ltb_false (x y : double) : (x <=? y) = true -> (y <? x) = false.
Proof. rewrite leb_spec, ltb_spec. apply SFleb_ltb_false. Qed.

Lemma ltb_leb (x y : double) : (x <? y) = true -> (x <=? y) = true.
Proof.
  rewrite leb_spec, ltb_spec. unfold SFleb, SFltb.
  destruct (SFcompare _ _) as [[]|]; try discriminate; reflexivity.
Qed.

(** A value that is below or above some value is comparable with itself. *)
Lemma leb_refl_l (x y : double) : (x <=? y) = true -> (x <=? x) = true.
Proof.
  rewrite !leb_spec. intros H. destruct (SFleb_not_nan _ _ H) as [Hx _].
  apply SFltb_false_leb; try exact Hx.
  destruct (SFltb (Prim2SF x) (Prim2SF x)) eqn:E; [|reflexivity].
  unfold SFltb in E. revert E.
  destruct (Prim2SF x) as [sx|sx| |sx mx ex]; try destruct sx; simpl;
    try discriminate; rewrite Z.compare_refl;
    change (Pos.compare_cont Eq mx mx) with (Pos.compare mx mx);
    rewrite Pos.compare_refl; discriminate.
Qed.

Lemma leb_refl_r (x y : double) : (x <=? y) = true -> (y <=? y) = true.
Proof.
  intros H. destruct (y <? y) eqn:E.
  - apply ltb_leb, E.
  - rewrite leb_spec in H. destruct (SFleb_not_nan _ _ H) as [_ Hy].
    rewrite leb_spec. rewrite ltb_spec in E.
    apply SFltb_false_leb; assumption.
Qed.

Lemma zero_or_nan_sub_diag (x : double) : zero_or_nan (x - x) = true.
Proof. unfold zero_or_nan. destruct (sub_diag_cases x) as [-> | ->]; reflexivity. Qed.

Lemma zero_or_nan_abs_macro (x : double) :
  zero_or_nan x = true -> zero_or_nan (Stream.abs_macro x) = true.
Proof.
  unfold Stream.abs_macro, ge. destruct (0 <=? x) eqn:E; [trivial|].
  unfold zero_or_nan. rewrite opp_spec.
  destruct (Prim2SF x); simpl; trivial.
Qed.

Lemma zero_or_nan_add (x y : double) :
  zero_or_nan x = true -> zero_or_nan y = true -> zero_or_nan (x + y) = true.
Proof.
  unfold zero_or_nan. rewrite add_spec. unfold SF64add.
  destruct (Prim2SF x) as [sx|sx| |sx mx ex]; try discriminate;
    destruct (Prim2SF y) as [sy|sy| |sy my ey]; try discriminate; intros _ _;
    try reflexivity.
  destruct sx, sy; reflexivity.
Qed.

Lemma zero_or_nan_div (x y : double) :
  zero_or_nan x = true -> zero_or_nan (x / y) = true.
Proof.
  unfold zero_or_nan. rewrite div_spec. unfold SF64div.
  destruct (Prim2SF x) as [sx|sx| |sx mx ex]; try discriminate;
    destruct (Prim2SF y) as [sy|sy| |sy my ey]; intros _; reflexivity.
Qed.

Lemma zero_or_nan_not_above (x eps : double) :
  zero_or_nan x = true -> lt eps 0 = false -> gt x eps = false.
Proof.
  unfold zero_or_nan, lt, gt. rewrite !ltb_spec, Prim2SF_zero.
  destruct (Prim2SF x) as [sx|sx| |sx mx ex]; try discriminate; intros _.
  - destruct (Prim2SF eps) as [se|se| |se me ee]; trivial.
  - intros _. apply SFltb_nan_r.
Qed.

End FloatFacts.

(** ** matmul.c: the three variants compute the same matrix *)

Section MatmulProofs.
Import C Matmul Spec Probe.

Lemma fold_left_flat_map {X Y S : Type} (f : S -> Y -> S) (g : X -> list Y)
    (l : list X) (s : S) :
  fold_left f (flat_map g l) s = fold_left (fun s x => fold_left f (g x) s) l s.
Proof.
  revert s. induction l as [|x l IH]; intros s; simpl; [reflexivity|].
  rewrite fold_left_app. apply IH.
Qed.

Lemma fold_left_map_list {X Y S : Type} (f : S -> Y -> S) (h : X -> Y)
    (l : list X) (s : S) :
  fold_left f (map h l) s = fold_left (fun s x => f s (h x)) l s.
Proof.
  revert s. induction l as [|x l IH]; intros s; simpl; [reflexivity|]. apply IH.
Qed.

Lemma fold_left_ext_in {X S : Type} (f g : S -> X -> S) (l : list X) (s : S) :
  (forall x s, In x l -> f s x = g s x) -> fold_left f l s = fold_left g l s.
Proof.
  revert s. induction l as [|x l IH]; intros s H; simpl; [reflexivity|].
  rewrite H by (left; reflexivity). apply IH.
  intros y t Hy. apply H. right. exact Hy.
Qed.

Lemma matmul_serial_cells A B C n :
  matmul_serial A B C n = run_cells A B n (ij_space n) C.
Proof.
  unfold matmul_serial, run_cells, ij_space, for_loop.
  rewrite fold_left_flat_map, !Nat.sub_0_r.
  apply fold_left_ext_in. intros i s _.
  rewrite fold_left_map_list. reflexivity.
Qed.

Lemma matmul_parallel_cells rows A B C n :
  matmul_parallel rows A B C n
  = run_cells A B n (flat_map (fun i => map (fun j => (i, j)) (seq 0 n)) rows) C.
Proof.
  unfold matmul_parallel, run_cells, omp_parallel_for, for_loop.
  rewrite fold_left_flat_map, !Nat.sub_0_r.
  apply fold_left_ext_in. intros i s _.
  rewrite fold_left_map_list. reflexivity.
Qed.

Lemma flat_rows (n m : nat) :
  flat_map (fun i => seq (i * n) n) (seq 0 m) = seq 0 (m * n).
Proof.
  induction m as [|m IH]; [reflexivity|].
  rewrite seq_S, flat_map_app, IH. simpl.
  rewrite app_nil_r, <- seq_app. f_equal. lia.
Qed.

Lemma ij_space_indices (n : nat) : map (ij_index n) (ij_space n) = seq 0 (n * n).
Proof.
  unfold ij_space. rewrite <- (flat_rows n n).
  rewrite flat_map_concat_map, concat_map, map_map, <- flat_map_concat_map.
  apply flat_map_ext. intros i. rewrite map_map. unfold ij_index. simpl.
  etransitivity; [apply (fmap_add_seq (i * n) 0 n)|].
  rewrite Nat.add_0_r. reflexivity.
Qed.

(** Whatever the order in which the cells are written, the result is the
    product: each cell is written once, from inputs no cell write changes. *)
Lemma run_cells_product A B n order (C : list double) :
  length C = n * n ->
  order ≡ₚ ij_space n ->
  run_cells A B n order C = product A B n.
Proof.
  intros Hlen Hperm.
  assert (Hin : forall ij, In ij order -> fst ij < n /\ snd ij < n).
  { intros [i j] H. apply list_elem_of_In in H. rewrite Hperm in H.
    apply list_elem_of_In in H. unfold ij_space in H.
    apply in_flat_map in H as (i' & Hi' & H).
    apply in_map_iff in H as (j' & E & Hj'). inversion E; subst.
    apply in_seq in Hi', Hj'. simpl. lia. }
  unfold run_cells, cell.
  rewrite (fold_left_ext_in _
             (fun C ij => store C (ij_index n ij)
                            (dot A B n (ij_index n ij / n) (ij_index n ij mod n)))).
  2:{ intros [i j] s H. destruct (Hin _ H) as [Hi Hj]. simpl in *.
      unfold ij_index. simpl. f_equal.
      rewrite Nat.div_add_l, Nat.div_small, Nat.add_0_r by lia.
      rewrite Nat.add_comm, Nat.Div0.mod_add, Nat.mod_small by lia.
      reflexivity. }
  rewrite <- (fold_left_map_list
                (fun C p => store C p (dot A B n (p / n) (p mod n)))
                (ij_index n)).
  etransitivity.
  - apply (pointwise_schedule (fun p _ => dot A B n (p / n) (p mod n))).
    rewrite Hlen, <- ij_space_indices. apply Permutation_map. exact Hperm.
  - unfold product. rewrite Hlen. reflexivity.
Qed.

(** The loop of [verify_results] over any list of indices: it counts the
    mismatches and prints the first five. *)
Lemma verify_fold_spec C1 C2 tol (l : list nat) :
  let st := fold_left (fun st i => verify_step C1 C2 tol i st) l (VerifyState 0 []) in
  errors st = length (List.filter (mismatch C1 C2 tol) l) /\
  printed st
  = map (error_line_of C1 C2) (take 5 (List.filter (mismatch C1 C2 tol) l)).
Proof.
  induction l as [|i l IH] using rev_ind; [split; reflexivity|].
  cbv zeta in *. rewrite fold_left_app, List.filter_app. simpl.
  destruct IH as [IHe IHp].
  unfold verify_step at 1 3. fold (mismatch C1 C2 tol i).
  destruct (mismatch C1 C2 tol i); simpl.
  - rewrite length_app, IHe. simpl. split; [lia|].
    destruct (Nat.leb_spec (length (List.filter (mismatch C1 C2 tol) l)) 4)
      as [Hle|Hgt].
    + rewrite IHp, !take_ge, map_app by (rewrite ?length_app; simpl; lia).
      reflexivity.
    + rewrite IHp, take_app_le by lia. reflexivity.
  - rewrite app_nil_r. split; assumption.
Qed.

Lemma filter_none {X : Type} (f : X -> bool) (l : list X) :
  (forall x, In x l -> f x = false) -> List.filter f l = [].
Proof.
  induction l as [|x l IH]; intros H; simpl; [reflexivity|].
  rewrite (H x) by (left; reflexivity). apply IH.
  intros y Hy. apply H. right. exact Hy.
Qed.

(** C1.  For every size [n] and all inputs [A] and [B], whatever the contents
    of the three output buffers before the call and whatever the schedules
    the OpenMP runtime picks (any order of the rows for [matmul_parallel],
    any order of the cells for [matmul_parallel_collapse]), the three
    variants produce the same matrix: every entry [C[i*n+j]] is the sum
    accumulated over [k] in the same order.  Hence no entry differs by more
    than 1e-6: the test [fabs(x - y) > 1e-6] of the verifier is false at every
    index for each pair of results, the difference is within 1e-6 at every
    entry that is finite, and [verify_results] returns 0 for both parallel
    variants. *)
Theorem matmul_variants_agree (n : nat)
    (A B C_serial C_parallel C_collapse : list double)
    (rows : list nat) (cells : list (nat * nat)) :
  length C_serial = n * n ->
  length C_parallel = n * n ->
  length C_collapse = n * n ->
  rows ≡ₚ seq 0 n ->
  cells ≡ₚ ij_space n ->
  let S := matmul_serial A B C_serial n in
  let P := matmul_parallel rows A B C_parallel n in
  let K := matmul_parallel_collapse cells A B C_collapse n in
  (forall i j, i < n -> j < n -> load S (i * n + j) = dot A B n i j) /\
  P = S /\ K = S /\
  (forall p, p < n * n ->
     gt (fabs (load S p - load P p)%float) 1e-6%float = false /\
     gt (fabs (load S p - load K p)%float) 1e-6%float = false /\
     gt (fabs (load P p - load K p)%float) 1e-6%float = false /\
     (is_finite (load S p) = true ->
      (fabs (load S p - load P p) <=? 1e-6)%float = true /\
      (fabs (load S p - load K p) <=? 1e-6)%float = true /\
      (fabs (load P p - load K p) <=? 1e-6)%float = true)) /\
  verify_results S P n 1e-6%float = 0 /\
  verify_results S K n 1e-6%float = 0.
Proof.
  intros HS HP HK Hrows Hcells S P K.
  assert (ES : S = product A B n).
  { unfold S. rewrite matmul_serial_cells. apply run_cells_product; [exact HS|reflexivity]. }
  assert (EP : P = product A B n).
  { unfold P. rewrite matmul_parallel_cells. apply run_cells_product; [exact HP|].
    unfold ij_space. apply Permutation_flat_map. exact Hrows. }
  assert (EK : K = product A B n).
  { unfold K, matmul_parallel_collapse, omp_parallel_for.
    apply (run_cells_product A B n cells C_collapse HK Hcells). }
  assert (Hself : forall x : double,
             gt (fabs (x - x)%float) 1e-6%float = false /\
             (is_finite x = true -> (fabs (x - x) <=? 1e-6)%float = true)).
  { intros x. split.
    - apply self_difference_not_flagged. reflexivity.
    - intros Hx. apply self_difference_within; [exact Hx|reflexivity]. }
  assert (Hverify : verify_results (product A B n) (product A B n) n 1e-6%float = 0).
  { unfold verify_results, verify_run, for_loop.
    destruct (verify_fold_spec (product A B n) (product A B n) 1e-6%float
                (seq 0 (n * n - 0))) as [-> _].
    rewrite filter_none; [reflexivity|].
    intros i _. apply Hself. }
  rewrite EP, EK, ES.
  split; [|split; [reflexivity|split; [reflexivity|split; [|split; exact Hverify]]]].
  - intros i j Hi Hj. unfold product, load.
    rewrite (nth_indep _ 0%float (dot A B n (0 / n) (0 mod n)))
      by (rewrite length_map, length_seq; nia).
    rewrite (map_nth (fun p => dot A B n (p / n) (p mod n))), seq_nth by nia.
    simpl. rewrite Nat.div_add_l, Nat.div_small, Nat.add_0_r by lia.
    rewrite Nat.add_comm, Nat.Div0.mod_add, Nat.mod_small by lia.
    reflexivity.
  - intros p _. destruct (Hself (load (product A B n) p)) as [H1 H2].
    split; [exact H1|split; [exact H1|split; [exact H1|]]].
    intros Hfin. specialize (H2 Hfin). repeat split; exact H2.
Qed.

Lemma matmul_variants_agree_witness :
  matmul_parallel Sample.rows2 Sample.A2 Sample.B2 Sample.fresh4 2
  = matmul_serial Sample.A2 Sample.B2 Sample.fresh4 2 /\
  matmul_parallel_collapse Sample.cells2 Sample.A2 Sample.B2 Sample.fresh4 2
  = matmul_serial Sample.A2 Sample.B2 Sample.fresh4 2.
Proof.
  destruct (matmul_variants_agree 2 Sample.A2 Sample.B2
              Sample.fresh4 Sample.fresh4 Sample.fresh4
              Sample.rows2 Sample.cells2 eq_refl eq_refl eq_refl)
    as (_ & HP & HK & _).
  - symmetry. apply (Permutation_rev (seq 0 2)).
  - symmetry. apply (Permutation_rev (ij_space 2)).
  - split; [exact HP|exact HK].
Defined.

End MatmulProofs.

(** ** The two buffer-comparison verifiers *)

Section VerifierProofs.
Import C Spec.

Lemma filter_nil_iff {X : Type} (f : X -> bool) (l : list X) :
  List.filter f l = [] <-> forall x, In x l -> f x = false.
Proof.
  split; [|apply filter_none].
  induction l as [|x l IH]; simpl; [intros _ y []|].
  destruct (f x) eqn:E; [discriminate|].
  intros H y [<-|Hy]; [exact E|apply IH; assumption].
Qed.

Lemma verify_scan_spec c1 c2 tol (l : list nat) :
  VectorAdd.verify_scan c1 c2 tol l
  = (match List.filter (mismatch c1 c2 tol) l with [] => 1%Z | _ :: _ => 0%Z end,
     map (mismatch_line_of c1 c2) (take 1 (List.filter (mismatch c1 c2 tol) l))).
Proof.
  induction l as [|i l IH]; simpl; [reflexivity|].
  fold (mismatch c1 c2 tol i). destruct (mismatch c1 c2 tol i); simpl.
  - reflexivity.
  - exact IH.
Qed.

(** C2, as the code has it.  An element is erroneous exactly when
    [fabs(reference[i] - candidate[i]) > tolerance].  The verifier of
    matmul.c scans the whole buffer, prints the first 5 mismatches only (index,
    both values, absolute difference), returns the total number of
    mismatches, and so returns 0 iff no element mismatches.  The verifier of
    vector_add.c returns from inside the loop at the first mismatch: it
    prints that one mismatch, returns 0 there, and returns 1 iff no element
    mismatches. *)
Theorem verify_results_spec (reference candidate : list double) (n : nat)
    (tolerance : double) :
  (Matmul.verify_results reference candidate n tolerance
   = length (mismatches reference candidate tolerance (n * n)) /\
   Matmul.verify_output reference candidate n tolerance
   = map (error_line_of reference candidate)
       (take 5 (mismatches reference candidate tolerance (n * n))) /\
   (Matmul.verify_results reference candidate n tolerance = 0 <->
    forall i, i < n * n -> mismatch reference candidate tolerance i = false)) /\
  (VectorAdd.verify_results reference candidate n tolerance
   = match mismatches reference candidate tolerance n with
     | [] => 1%Z
     | _ :: _ => 0%Z
     end /\
   VectorAdd.verify_output reference candidate n tolerance
   = map (mismatch_line_of reference candidate)
       (take 1 (mismatches reference candidate tolerance n)) /\
   (VectorAdd.verify_results reference candidate n tolerance = 1%Z <->
    forall i, i < n -> mismatch reference candidate tolerance i = false)).
Proof.
  split.
  - unfold Matmul.verify_results, Matmul.verify_output, Matmul.verify_run, for_loop.
    destruct (verify_fold_spec reference candidate tolerance (seq 0 (n * n - 0)))
      as [He Hp].
    rewrite Nat.sub_0_r in He, Hp |- *. fold (mismatches reference candidate tolerance (n * n)) in He, Hp.
    split; [exact He|split; [exact Hp|]].
    rewrite He, length_zero_iff_nil. unfold mismatches. rewrite filter_nil_iff.
    split; intros H i Hi; apply H.
    + apply in_seq. lia.
    + apply in_seq in Hi. lia.
  - unfold VectorAdd.verify_results, VectorAdd.verify_output.
    rewrite verify_scan_spec. fold (mismatches reference candidate tolerance n).
    simpl. split; [reflexivity|split; [reflexivity|]].
    transitivity (mismatches reference candidate tolerance n = []).
    + destruct (mismatches reference candidate tolerance n); split;
        intros H; try reflexivity; discriminate.
    + unfold mismatches. rewrite filter_nil_iff.
      split; intros H i Hi; apply H.
      * apply in_seq. lia.
      * apply in_seq in Hi. lia.
Qed.

(** On two buffers whose two elements both differ by 1, with tolerance 0.5,
    there are two erroneous elements; the verifier of vector_add.c returns 0,
    not the count 2, and prints one line, not the two mismatches. *)
Lemma vector_verifier_stops_at_first_mismatch :
  length (mismatches Sample.zeros2 Sample.ones2 0.5%float 2) = 2 /\
  VectorAdd.verify_results Sample.zeros2 Sample.ones2 2 0.5%float = 0%Z /\
  VectorAdd.verify_results Sample.zeros2 Sample.ones2 2 0.5%float
  <> Z.of_nat (length (mismatches Sample.zeros2 Sample.ones2 0.5%float 2)) /\
  VectorAdd.verify_output Sample.zeros2 Sample.ones2 2 0.5%float
  = [VectorAdd.MismatchLine 0 0%float 1%float] /\
  length (VectorAdd.verify_output Sample.zeros2 Sample.ones2 2 0.5%float)
  <> length (take 5 (mismatches Sample.zeros2 Sample.ones2 0.5%float 2)).
Proof. vm_compute. repeat split; discriminate. Qed.

End VerifierProofs.

(** ** stream.c: the kernels, whatever the schedule *)

Section StreamKernels.
Import C OS Stream Spec.

Lemma map_seq_load (p : list double) (n : nat) :
  length p = n -> map (load p) (seq 0 n) = p.
Proof.
  intros <-. apply buffer_ext.
  - rewrite length_map, length_seq. reflexivity.
  - intros i Hi. rewrite length_map, length_seq in Hi. unfold load at 1.
    rewrite (nth_indep _ 0%float (load p 0)) by (rewrite length_map, length_seq; exact Hi).
    rewrite map_nth, seq_nth by exact Hi. reflexivity.
Qed.

Lemma map_seq_load1 (f : double -> double) (p : list double) (n : nat) :
  length p = n -> map (fun i => f (load p i)) (seq 0 n) = map f p.
Proof.
  intros H. rewrite <- (map_map (load p) f), (map_seq_load p n H). reflexivity.
Qed.

Lemma map_seq_load2 (f : double -> double -> double) (p q : list double) (n : nat) :
  length p = n -> length q = n ->
  map (fun i => f (load p i) (load q i)) (seq 0 n) = zip_with f p q.
Proof.
  intros Hp Hq.
  transitivity (zip_with f (map (load p) (seq 0 n)) (map (load q) (seq 0 n))).
  - rewrite zip_with_fmap_l, zip_with_fmap_r, zip_with_diag. reflexivity.
  - rewrite (map_seq_load p n Hp), (map_seq_load q n Hq). reflexivity.
Qed.

(** A loop that writes only [c], only [b] or only [a] leaves the other two
    arrays as they are, so it is a loop on the array it writes. *)
Lemma fold_writes_c (g : arrays -> nat -> double) (sched : list nat) (st : arrays) :
  (forall st p, g (Arrays (a st) (b st) p) = g st) ->
  omp_parallel_for sched
    (fun j st => Arrays (a st) (b st) (store (c st) j (g st j))) st
  = Arrays (a st) (b st)
      (fold_left (fun p j => store p j (g st j)) sched (c st)).
Proof.
  intros Hg. unfold omp_parallel_for. revert st.
  induction sched as [|j sched IH]; intros [xa xb xc]; simpl; [reflexivity|].
  rewrite IH. simpl. f_equal.
  apply fold_left_ext_in. intros i p _. rewrite (Hg (Arrays xa xb xc)). reflexivity.
Qed.

Lemma fold_writes_b (g : arrays -> nat -> double) (sched : list nat) (st : arrays) :
  (forall st p, g (Arrays (a st) p (c st)) = g st) ->
  omp_parallel_for sched
    (fun j st => Arrays (a st) (store (b st) j (g st j)) (c st)) st
  = Arrays (a st)
      (fold_left (fun p j => store p j (g st j)) sched (b st)) (c st).
Proof.
  intros Hg. unfold omp_parallel_for. revert st.
  induction sched as [|j sched IH]; intros [xa xb xc]; simpl; [reflexivity|].
  rewrite IH. simpl. f_equal.
  apply fold_left_ext_in. intros i p _. rewrite (Hg (Arrays xa xb xc)). reflexivity.
Qed.

Lemma fold_writes_a (g : arrays -> nat -> double) (sched : list nat) (st : arrays) :
  (forall st p, g (Arrays p (b st) (c st)) = g st) ->
  omp_parallel_for sched
    (fun j st => Arrays (store (a st) j (g st j)) (b st) (c st)) st
  = Arrays
      (fold_left (fun p j => store p j (g st j)) sched (a st)) (b st) (c st).
Proof.
  intros Hg. unfold omp_parallel_for. revert st.
  induction sched as [|j sched IH]; intros [xa xb xc]; simpl; [reflexivity|].
  rewrite IH. simpl. f_equal.
  apply fold_left_ext_in. intros i p _. rewrite (Hg (Arrays xa xb xc)). reflexivity.
Qed.

(** Each kernel, under any schedule of its loop, has the effect the
    specification names. *)
Lemma run_kernel_effect (scalar : double) (k : kernel) (sched : list nat)
    (n : nat) (st : arrays) :
  sized n st -> sched ≡ₚ seq 0 n ->
  run_kernel scalar k sched st = kernel_effect scalar k st.
Proof.
  intros (Ha & Hb & Hc) Hs. destruct st as [xa xb xc]. simpl in *.
  destruct k; simpl.
  - unfold copy.
    rewrite (fold_writes_c (fun st j => load (a st) j)) by reflexivity. simpl.
    f_equal. etransitivity.
    + apply (pointwise_schedule (fun j _ => load xa j)). rewrite Hc. exact Hs.
    + rewrite Hc. apply map_seq_load, Ha.
  - unfold scale.
    rewrite (fold_writes_b (fun st j => (scalar * load (c st) j)%float)) by reflexivity.
    simpl. f_equal. etransitivity.
    + apply (pointwise_schedule (fun j _ => (scalar * load xc j)%float)).
      rewrite Hb. exact Hs.
    + rewrite Hb. apply (map_seq_load1 (fun x => (scalar * x)%float)), Hc.
  - unfold add.
    rewrite (fold_writes_c (fun st j => (load (a st) j + load (b st) j)%float))
      by reflexivity.
    simpl. f_equal. etransitivity.
    + apply (pointwise_schedule (fun j _ => (load xa j + load xb j)%float)).
      rewrite Hc. exact Hs.
    + rewrite Hc. apply (map_seq_load2 (fun x y => (x + y)%float)); assumption.
  - unfold triad.
    rewrite (fold_writes_a
               (fun st j => (load (b st) j + scalar * load (c st) j)%float))
      by reflexivity.
    simpl. f_equal. etransitivity.
    + apply (pointwise_schedule (fun j _ => (load xb j + scalar * load xc j)%float)).
      rewrite Ha. exact Hs.
    + rewrite Ha. apply (map_seq_load2 (fun y z => (y + scalar * z)%float)); assumption.
Qed.

Lemma kernel_effect_sized scalar k n st :
  sized n st -> sized n (kernel_effect scalar k st).
Proof.
  destruct st as [xa xb xc]. unfold sized. simpl. intros (Ha & Hb & Hc).
  destruct k; simpl;
    rewrite ?length_map, ?length_zip_with, ?Ha, ?Hb, ?Hc, ?Nat.min_id;
    repeat split; reflexivity.
Qed.

Lemma kernel_effect_broadcast scalar k n s :
  kernel_effect scalar k (broadcast n s) = broadcast n (scalar_kernel scalar k s).
Proof.
  destruct k; unfold broadcast; simpl;
    rewrite ?zip_with_replicate, ?Nat.min_id; try reflexivity.
  f_equal. apply (fmap_replicate (fun x => (scalar * x)%float)).
Qed.

Lemma broadcast_sized n s : sized n (broadcast n s).
Proof. unfold sized, broadcast; simpl. rewrite !length_replicate. auto. Qed.

(** The initialisation loop writes the three arrays at once. *)
Lemma init_arrays_fold (sched : list nat) (st : arrays) :
  init_arrays sched st
  = Arrays (fold_left (fun p j => store p j 1%float) sched (a st))
      (fold_left (fun p j => store p j 2%float) sched (b st))
      (fold_left (fun p j => store p j 0%float) sched (c st)).
Proof.
  unfold init_arrays, omp_parallel_for. revert st.
  induction sched as [|j sched IH]; intros [xa xb xc]; simpl; [reflexivity|].
  rewrite IH. reflexivity.
Qed.

Lemma map_const_seq (v : double) (lo n : nat) :
  map (fun _ => v) (seq lo n) = replicate n v.
Proof.
  revert lo. induction n as [|n IH]; intros lo; simpl; [reflexivity|].
  rewrite IH. reflexivity.
Qed.

Lemma constant_fold (v : double) (sched : list nat) (p : list double) :
  sched ≡ₚ seq 0 (length p) ->
  fold_left (fun p j => store p j v) sched p = replicate (length p) v.
Proof.
  intros Hs. etransitivity.
  - apply (pointwise_schedule (fun _ _ => v)). exact Hs.
  - apply map_const_seq.
Qed.

Lemma init_arrays_broadcast (cfg : config) (sched : list nat) :
  sched ≡ₚ seq 0 (STREAM_ARRAY_SIZE cfg) ->
  init_arrays sched (static_arrays cfg)
  = broadcast (STREAM_ARRAY_SIZE cfg) scalars_initial.
Proof.
  intros Hs. rewrite init_arrays_fold. unfold static_arrays, broadcast. simpl.
  rewrite !constant_fold by (rewrite length_replicate; exact Hs).
  rewrite length_replicate. reflexivity.
Qed.

(** The loop that doubles [a] rewrites each element from its own value. *)
Lemma double_a_fold (sched : list nat) (st : arrays) :
  double_a sched st
  = Arrays (fold_left (fun p j => store p j (2 * load p j)%float) sched (a st))
      (b st) (c st).
Proof.
  unfold double_a, omp_parallel_for. revert st.
  induction sched as [|j sched IH]; intros [xa xb xc]; simpl; [reflexivity|].
  rewrite IH. reflexivity.
Qed.

Lemma double_a_effect (sched : list nat) (n : nat) (st : arrays) :
  length (a st) = n -> sched ≡ₚ seq 0 n ->
  double_a sched st = Arrays (map (fun x => (2 * x)%float) (a st)) (b st) (c st).
Proof.
  intros Ha Hs. rewrite double_a_fold. f_equal. etransitivity.
  - apply (pointwise_schedule (fun _ x => (2 * x)%float)). rewrite Ha. exact Hs.
  - rewrite Ha. apply (map_seq_load1 (fun x => (2 * x)%float)), Ha.
Qed.

Lemma double_a_broadcast (sched : list nat) (n : nat) (s : scalars) :
  sched ≡ₚ seq 0 n ->
  double_a sched (broadcast n s) = broadcast n (scalars_doubled s).
Proof.
  intros Hs. rewrite (double_a_effect sched n).
  - unfold broadcast. simpl. f_equal. apply (fmap_replicate (fun x => (2 * x)%float)).
  - simpl. apply length_replicate.
  - exact Hs.
Qed.

(** ** stream.c: the main loop *)

Lemma timed_kernel_arrays os sch scalar k kern st :
  ls_arrays (timed_kernel os sch scalar k kern st)
  = run_kernel scalar kern (sched_kernel sch k kern) (ls_arrays st).
Proof. reflexivity. Qed.

Lemma trial_upto_arrays m os sch scalar k st :
  ls_arrays (trial_upto m os sch scalar k st)
  = fold_left (fun arr kern => run_kernel scalar kern (sched_kernel sch k kern) arr)
      (take m kernel_order) (ls_arrays st).
Proof.
  unfold trial_upto. revert st.
  induction (take m kernel_order) as [|kern l IH]; intros st; simpl; [reflexivity|].
  rewrite IH, timed_kernel_arrays. reflexivity.
Qed.

Lemma trial_all os sch scalar k st :
  trial os sch scalar k st = trial_upto 4 os sch scalar k st.
Proof. reflexivity. Qed.

Lemma for_loop_S {S : Type} (n : nat) (body : nat -> S -> S) (s : S) :
  for_loop 0 (Datatypes.S n) body s = body n (for_loop 0 n body s).
Proof.
  unfold for_loop. rewrite !Nat.sub_0_r, seq_S, fold_left_app. reflexivity.
Qed.

(** The arrays through a run of kernels, against the effects the
    specification names. *)
Lemma kernels_effect cfg sch scalar k (l : list kernel) (st : arrays) :
  valid_schedules cfg sch ->
  sized (STREAM_ARRAY_SIZE cfg) st ->
  fold_left (fun arr kern => run_kernel scalar kern (sched_kernel sch k kern) arr) l st
  = fold_left (fun arr kern => kernel_effect scalar kern arr) l st /\
  sized (STREAM_ARRAY_SIZE cfg)
    (fold_left (fun arr kern => kernel_effect scalar kern arr) l st).
Proof.
  intros Hv. revert st. induction l as [|kern l IH]; intros st Hst; simpl.
  - split; [reflexivity|exact Hst].
  - rewrite (run_kernel_effect scalar kern _ (STREAM_ARRAY_SIZE cfg) st Hst)
      by apply Hv.
    apply IH, kernel_effect_sized, Hst.
Qed.

Lemma state_at_next os sch st k :
  state_at os sch st (S k) 0 = state_at os sch st k 4.
Proof.
  unfold state_at. rewrite for_loop_S, trial_all. reflexivity.
Qed.

Lemma state_at_sized cfg os sch st k m :
  valid_schedules cfg sch ->
  sized (STREAM_ARRAY_SIZE cfg) (ls_arrays st) ->
  sized (STREAM_ARRAY_SIZE cfg) (ls_arrays (state_at os sch st k m)).
Proof.
  intros Hv Hst.
  assert (H0 : forall k, sized (STREAM_ARRAY_SIZE cfg)
                           (ls_arrays (for_loop 0 k (trial os sch 3%float) st))).
  { intros j. induction j as [|j IH]; [exact Hst|].
    rewrite for_loop_S, trial_all, trial_upto_arrays.
    destruct (kernels_effect cfg sch 3%float j (take 4 kernel_order) _ Hv IH)
      as [-> H]. exact H. }
  unfold state_at. rewrite trial_upto_arrays.
  destruct (kernels_effect cfg sch 3%float k (take m kernel_order) _ Hv (H0 k))
    as [-> H]. exact H.
Qed.

Lemma state_at_step cfg os sch st k m kern :
  valid_schedules cfg sch ->
  sized (STREAM_ARRAY_SIZE cfg) (ls_arrays st) ->
  kernel_order !! m = Some kern ->
  ls_arrays (state_at os sch st k (S m))
  = kernel_effect 3%float kern (ls_arrays (state_at os sch st k m)).
Proof.
  intros Hv Hst Hk.
  pose proof (state_at_sized cfg os sch st k m Hv Hst) as Hm.
  unfold state_at in *. unfold trial_upto in *.
  rewrite (take_S_r _ _ _ Hk), fold_left_app. cbn [fold_left].
  rewrite timed_kernel_arrays. apply (run_kernel_effect _ _ _ _ _ Hm), Hv.
Qed.

Lemma main_loop_state_at cfg os sch st :
  main_loop cfg os sch st = state_at os sch st (NTIMES cfg) 0.
Proof. reflexivity. Qed.

(** C6.  In every trial [k] the four kernels run in the order Copy, Scale,
    Add, Triad on the same three arrays, each with the effect the
    specification names ([c = a], [b = scalar*c], [c = a+b], [a = b+scalar*c]
    with [scalar = 3]); trial [k+1] starts from the very state trial [k]
    ends in, so the [a] that the Copy of trial [k+1] reads, and copies into
    [c], is the [a] that the Triad of trial [k] wrote; and the main loop is
    [NTIMES] such trials. *)
Theorem stream_trials_chain (cfg : config) (os : clocks) (sch : schedules)
    (st : loop_state) (k : nat) :
  valid_schedules cfg sch ->
  sized (STREAM_ARRAY_SIZE cfg) (ls_arrays st) ->
  let arr := fun k m => ls_arrays (state_at os sch st k m) in
  arr k 1 = kernel_effect 3%float Copy (arr k 0) /\
  arr k 2 = kernel_effect 3%float Scale (arr k 1) /\
  arr k 3 = kernel_effect 3%float Add (arr k 2) /\
  arr k 4 = kernel_effect 3%float Triad (arr k 3) /\
  state_at os sch st (S k) 0 = state_at os sch st k 4 /\
  a (arr (S k) 0) = a (arr k 4) /\
  c (arr (S k) 1) = a (arr k 4) /\
  main_loop cfg os sch st = state_at os sch st (NTIMES cfg) 0.
Proof.
  intros Hv Hst arr. unfold arr.
  split; [apply (state_at_step cfg os sch st k 0 Copy Hv Hst eq_refl)|].
  split; [apply (state_at_step cfg os sch st k 1 Scale Hv Hst eq_refl)|].
  split; [apply (state_at_step cfg os sch st k 2 Add Hv Hst eq_refl)|].
  split; [apply (state_at_step cfg os sch st k 3 Triad Hv Hst eq_refl)|].
  split; [apply state_at_next|].
  split; [rewrite state_at_next; reflexivity|].
  split; [|reflexivity].
  rewrite (state_at_step cfg os sch st (S k) 0 Copy Hv Hst eq_refl), state_at_next.
  reflexivity.
Qed.

Lemma kernels_broadcast scalar (l : list kernel) n s :
  fold_left (fun arr kern => kernel_effect scalar kern arr) l (broadcast n s)
  = broadcast n (fold_left (fun s kern => scalar_kernel scalar kern s) l s).
Proof.
  revert s. induction l as [|kern l IH]; intros s; simpl; [reflexivity|].
  rewrite kernel_effect_broadcast. apply IH.
Qed.

Lemma state_at_broadcast cfg os sch st s k m :
  valid_schedules cfg sch ->
  ls_arrays st = broadcast (STREAM_ARRAY_SIZE cfg) s ->
  ls_arrays (state_at os sch st k m)
  = broadcast (STREAM_ARRAY_SIZE cfg) (scalars_at s k m).
Proof.
  intros Hv Hst.
  assert (H0 : forall k,
             ls_arrays (for_loop 0 k (trial os sch 3%float) st)
             = broadcast (STREAM_ARRAY_SIZE cfg)
                 (for_loop 0 k (fun _ s => scalar_trial 3%float s) s)).
  { intros j. induction j as [|j IH]; [exact Hst|].
    rewrite !for_loop_S, trial_all, trial_upto_arrays, IH.
    destruct (kernels_effect cfg sch 3%float j (take 4 kernel_order) _ Hv
                (broadcast_sized (STREAM_ARRAY_SIZE cfg)
                   (for_loop 0 j (fun _ s => scalar_trial 3%float s) s)))
      as [-> _].
    rewrite kernels_broadcast. reflexivity. }
  unfold state_at, scalars_at. rewrite trial_upto_arrays, H0.
  destruct (kernels_effect cfg sch 3%float k (take m kernel_order) _ Hv
              (broadcast_sized (STREAM_ARRAY_SIZE cfg)
                 (for_loop 0 k (fun _ s => scalar_trial 3%float s) s)))
    as [-> _].
  apply kernels_broadcast.
Qed.

Lemma entry_state_broadcast cfg sch w :
  valid_schedules cfg sch ->
  ls_arrays (entry_state cfg sch w)
  = broadcast (STREAM_ARRAY_SIZE cfg) (scalars_doubled scalars_initial).
Proof.
  intros (Hi & Hd & _). unfold entry_state. simpl.
  rewrite (init_arrays_broadcast cfg _ Hi). apply double_a_broadcast, Hd.
Qed.

Lemma main_loop_broadcast cfg os sch w :
  valid_schedules cfg sch ->
  ls_arrays (main_loop cfg os sch (entry_state cfg sch w))
  = broadcast (STREAM_ARRAY_SIZE cfg) (expected cfg).
Proof.
  intros Hv. rewrite main_loop_state_at.
  apply (state_at_broadcast cfg os sch _ _ (NTIMES cfg) 0 Hv).
  apply entry_state_broadcast, Hv.
Qed.

(** C10.  From the initialisation [a[j] = 1.0], [b[j] = 2.0], [c[j] = 0.0],
    whatever the schedules of the loops, each array holds one value in all
    its elements: after the initialisation, after the doubling of [a], and
    after every kernel of every trial (position [m] of trial [k]); that
    value is the one the verifier's scalar recurrence has at the same
    position, and at the end of the main loop it is the expected value the
    verifier compares every element with. *)
Theorem stream_arrays_stay_uniform (cfg : config) (os : clocks) (sch : schedules)
    (w : world) :
  valid_schedules cfg sch ->
  let n := STREAM_ARRAY_SIZE cfg in
  init_arrays (sched_init sch) (static_arrays cfg) = broadcast n scalars_initial /\
  ls_arrays (entry_state cfg sch w)
  = broadcast n (scalars_doubled scalars_initial) /\
  (forall k m,
     ls_arrays (state_at os sch (entry_state cfg sch w) k m)
     = broadcast n (scalars_at (scalars_doubled scalars_initial) k m)) /\
  ls_arrays (main_loop cfg os sch (entry_state cfg sch w))
  = broadcast n (expected cfg).
Proof.
  intros Hv n. split; [apply init_arrays_broadcast, Hv|].
  split; [apply entry_state_broadcast, Hv|].
  split.
  - intros k m. apply state_at_broadcast; [exact Hv|].
    apply entry_state_broadcast, Hv.
  - apply main_loop_broadcast, Hv.
Qed.

Lemma in_order_valid (cfg : config) : valid_schedules cfg (in_order cfg).
Proof. repeat split; reflexivity. Qed.

Lemma stream_arrays_stay_uniform_witness :
  ls_arrays
    (main_loop Sample.cfg43 Sample.steady_clock (in_order Sample.cfg43)
       (entry_state Sample.cfg43 (in_order Sample.cfg43) Sample.after_checktick))
  = broadcast 4 (Scalars 6750 1350 1800).
Proof.
  exact (proj2 (proj2 (proj2
           (stream_arrays_stay_uniform Sample.cfg43 Sample.steady_clock
              (in_order Sample.cfg43) Sample.after_checktick
              (in_order_valid Sample.cfg43))))).
Defined.

(** Two trials on 4-element arrays: the second trial starts from what the
    first one left (its Copy puts 30, the [a] of the first Triad, into [c]),
    and ends with other values than the first. *)
Lemma stream_trials_chain_witness :
  let st := entry_state Sample.cfg43 (in_order Sample.cfg43) Sample.after_checktick in
  let arr := fun k m =>
    ls_arrays (state_at Sample.steady_clock (in_order Sample.cfg43) st k m) in
  c (arr 1 1) = a (arr 0 4) /\
  a (arr 0 4) = [30; 30; 30; 30]%float /\
  a (arr 1 4) = [450; 450; 450; 450]%float.
Proof.
  intros st arr.
  destruct (stream_trials_chain Sample.cfg43 Sample.steady_clock
              (in_order Sample.cfg43) st 0 (in_order_valid Sample.cfg43))
    as (_ & _ & _ & _ & _ & _ & H & _).
  - repeat split; reflexivity.
  - split; [exact H|]. split; reflexivity.
Defined.

End StreamKernels.

(** ** stream.c: the analytic verifier *)

Section StreamVerifier.
Import C OS Stream Spec Probe.
#[local] Open Scope float_scope.

Lemma sum_err_list (n : nat) (x : list double) (xj : double) :
  length x = n -> sum_err n x xj = sum_abs_err x xj.
Proof.
  intros H. unfold sum_err, sum_abs_err, for_loop. rewrite Nat.sub_0_r.
  transitivity (fold_left (fun s v => s + abs_macro (v - xj))
                  (map (load x) (seq 0 n)) 0).
  - rewrite fold_left_map_list. reflexivity.
  - rewrite (map_seq_load x n H). reflexivity.
Qed.

Lemma array_fails_spec (n : nat) (eps : double) (x : list double) (xj : double) :
  length x = n ->
  array_fails n eps x xj = gt (abs_macro (avg_rel_abs_err x xj)) eps.
Proof.
  intros H. unfold array_fails, avg_err, avg_rel_abs_err.
  rewrite (sum_err_list n x xj H), H. reflexivity.
Qed.

Lemma check_array_err n eps name x xj v :
  err (check_array n eps name x xj v)
  = (err v + Nat.b2n (array_fails n eps x xj))%nat.
Proof.
  unfold check_array. destruct (array_fails n eps x xj); simpl; lia.
Qed.

(** The error sum of an array that holds the expected value everywhere is a
    zero, or NaN when that value is not finite. *)
Lemma sum_abs_err_exact (n : nat) (xj s : double) :
  zero_or_nan s = true ->
  zero_or_nan (fold_left (fun s v => s + abs_macro (v - xj)) (replicate n xj) s)
  = true.
Proof.
  revert s. induction n as [|n IH]; intros s Hs; simpl; [exact Hs|].
  apply IH, zero_or_nan_add; [exact Hs|].
  apply zero_or_nan_abs_macro, zero_or_nan_sub_diag.
Qed.

Lemma array_passes_exact (n : nat) (eps xj : double) :
  lt eps 0 = false -> array_fails n eps (replicate n xj) xj = false.
Proof.
  intros He. rewrite array_fails_spec by apply length_replicate.
  apply zero_or_nan_not_above; [|exact He].
  apply zero_or_nan_abs_macro. unfold avg_rel_abs_err.
  apply zero_or_nan_div, zero_or_nan_div. apply sum_abs_err_exact. reflexivity.
Qed.

Lemma check_exact (cfg : config) :
  checkSTREAMresults cfg (broadcast (STREAM_ARRAY_SIZE cfg) (expected cfg))
  = Validation 0 [].
Proof.
  unfold checkSTREAMresults, check_array, broadcast. simpl.
  rewrite !array_passes_exact by reflexivity. reflexivity.
Qed.

(** On a finite value the error of an exact element is [+0]. *)
Lemma finite_self_error (x : double) :
  is_finite x = true -> abs_macro (x - x) = 0.
Proof.
  intros H. apply Prim2SF_inj. unfold abs_macro, ge.
  rewrite leb_spec, (sub_diag_finite x H), Prim2SF_zero. simpl.
  apply sub_diag_finite, H.
Qed.

Lemma add_zero_after (d : double) : (0 + d) + 0 = 0 + d.
Proof.
  apply Prim2SF_inj. rewrite !add_spec, Prim2SF_zero. unfold SF64add.
  destruct (Prim2SF d) as [s|s| |s m e]; try reflexivity.
  destruct s; reflexivity.
Qed.

Lemma zero_add_zero : 0 + 0 = 0.
Proof. reflexivity. Qed.

(** The error sum of an array exact everywhere but at one index is the error
    of that element (added to the [+0] the sum starts from). *)
Lemma sum_abs_err_single (n i : nat) (xj v : double) :
  is_finite xj = true -> (i < n)%nat ->
  sum_abs_err (<[i := v]> (replicate n xj)) xj = 0 + abs_macro (v - xj).
Proof.
  intros Hfin Hi. unfold sum_abs_err.
  assert (Hpre : forall m s, s + 0 = s ->
            fold_left (fun s v => s + abs_macro (v - xj)) (replicate m xj) s = s).
  { induction m as [|m IH]; intros s Hs; simpl; [reflexivity|].
    rewrite (finite_self_error xj Hfin), Hs. apply IH, Hs. }
  rewrite insert_replicate_lt by exact Hi.
  rewrite fold_left_app, (Hpre i 0 zero_add_zero). simpl.
  apply Hpre, add_zero_after.
Qed.

(** C3, as the code has it.  The verifier computes the expected scalars from
    the initial constants with [a] doubled first (2.0, 2.0, 0.0: the loop
    that times a doubling of [a] runs before the trials), by [NTIMES] rounds
    of Copy, Scale, Add, Triad with [scalar = 3.0].  It counts an array as
    failed iff its average relative absolute error (the sum of
    [abs(observed - expected)] over the array, divided by the length and by
    the expected value) exceeds epsilon, which is 1e-6 for a 4-byte and 1e-13
    for an 8-byte element type.  The arrays the main loop leaves pass, for every
    array size, every number of trials and every schedule.  An array with one
    perturbed element fails iff the error of that element, divided by the
    array length and by the expected value, exceeds epsilon. *)
Theorem checkSTREAMresults_spec (cfg : config) (os : clocks) (sch : schedules)
    (w : world) (st : arrays) :
  valid_schedules cfg sch ->
  sized (STREAM_ARRAY_SIZE cfg) st ->
  let n := STREAM_ARRAY_SIZE cfg in
  let e := expected cfg in
  let eps := epsilon_for sizeof_STREAM_TYPE in
  let fails := fun x xj => gt (abs_macro (avg_rel_abs_err x xj)) eps in
  e = for_loop 0 (NTIMES cfg) (fun _ s => scalar_trial 3 s) (Scalars 2 2 0) /\
  (forall s, scalar_trial 3 s
             = Scalars (3 * aj s + 3 * (aj s + 3 * aj s)) (3 * aj s)
                 (aj s + 3 * aj s)) /\
  err (checkSTREAMresults cfg st)
  = (Nat.b2n (fails (a st) (aj e)) + Nat.b2n (fails (b st) (bj e))
     + Nat.b2n (fails (c st) (cj e)))%nat /\
  epsilon_for 4 = 1e-6 /\
  epsilon_for 8 = 1e-13 /\
  eps = 1e-13 /\
  checkSTREAMresults cfg (ls_arrays (main_loop cfg os sch (entry_state cfg sch w)))
  = Validation 0 [] /\
  (forall i v, (i < n)%nat -> is_finite (aj e) = true ->
     err (checkSTREAMresults cfg
            (Arrays (<[i := v]> (replicate n (aj e)))
               (replicate n (bj e)) (replicate n (cj e))))
     = Nat.b2n (gt (abs_macro ((0 + abs_macro (v - aj e))
                               / double_of_int (Z.of_nat n) / aj e)) eps)).
Proof.
  intros Hv (Ha & Hb & Hc) n e eps fails.
  split; [reflexivity|]. split; [reflexivity|]. split.
  { unfold checkSTREAMresults. rewrite !check_array_err. simpl.
    unfold fails.
    rewrite <- (array_fails_spec n eps (a st)), <- (array_fails_spec n eps (b st)),
      <- (array_fails_spec n eps (c st)) by assumption.
    reflexivity. }
  split; [reflexivity|]. split; [reflexivity|]. split; [reflexivity|]. split.
  { rewrite (main_loop_broadcast cfg os sch w Hv). apply check_exact. }
  intros i v Hi Hfin.
  unfold checkSTREAMresults. rewrite !check_array_err. simpl.
  fold n e eps. rewrite !(array_passes_exact n eps) by reflexivity.
  rewrite array_fails_spec by (rewrite length_insert; apply length_replicate).
  unfold avg_rel_abs_err.
  rewrite (sum_abs_err_single n i (aj e) v Hfin Hi), length_insert, length_replicate.
  simpl. lia.
Qed.

(** On 4-element arrays after 10 trials: the arrays the run leaves pass; with
    [a[2]] off by 1 the average relative error of [a] is 2.2e-13 and the
    array fails. *)
Lemma checkSTREAMresults_spec_witness :
  checkSTREAMresults Sample.cfg410
    (ls_arrays
       (main_loop Sample.cfg410 Sample.steady_clock (in_order Sample.cfg410)
          (entry_state Sample.cfg410 (in_order Sample.cfg410)
             Sample.after_checktick)))
  = Validation 0 [] /\
  err (checkSTREAMresults Sample.cfg410 (Sample.perturb 1)) = 1%nat.
Proof.
  destruct (checkSTREAMresults_spec Sample.cfg410 Sample.steady_clock
              (in_order Sample.cfg410) Sample.after_checktick Sample.left_by_run
              (in_order_valid Sample.cfg410))
    as (_ & _ & _ & _ & _ & _ & Hrun & Hone).
  - repeat split; reflexivity.
  - split; [exact Hrun|].
    exact (Hone 2%nat (aj (expected Sample.cfg410) + 1) ltac:(vm_compute; lia) eq_refl).
Defined.

(** Where the claim fails.  After 10 trials the expected [a] is
    1153300781250, twice what the recurrence gives from the initial constants
    alone.  And with [a[2]] off by 0.25 (2.2e-13 of the expected value, more
    than epsilon = 1e-13) that element is beyond epsilon, yet the average over
    the 4 elements is 5.4e-14 and the verifier reports no failure. *)
Lemma stream_verifier_counterexample :
  aj (expected Sample.cfg410) = 1153300781250 /\
  aj (expected_from_initial 10) = 576650390625 /\
  expected Sample.cfg410 <> expected_from_initial 10 /\
  gt (abs_macro (load (a (Sample.perturb 0.25)) 2 / aj (expected Sample.cfg410) - 1))
    (epsilon_for sizeof_STREAM_TYPE) = true /\
  count_errors 4 (epsilon_for sizeof_STREAM_TYPE) (a (Sample.perturb 0.25))
    (aj (expected Sample.cfg410)) = 1%nat /\
  checkSTREAMresults Sample.cfg410 (Sample.perturb 0.25) = Validation 0 [].
Proof.
  split; [reflexivity|]. split; [reflexivity|]. split.
  - intros E. apply (f_equal aj) in E. vm_compute in E.
    apply (f_equal Prim2SF) in E. vm_compute in E. discriminate.
  - repeat split; vm_compute; reflexivity.
Qed.

End StreamVerifier.

(** ** Aggregation of the timing series *)

Section Aggregation.
Import C OS Stream Spec.
#[local] Open Scope float_scope.

(** The running minimum of the timing code: below its starting value, below
    every sample, and equal to the starting value or to a sample. *)
Lemma running_min_bounds (l : list double) (m : double) :
  (m <=? m) = true ->
  (forall t, In t l -> (t <=? t) = true) ->
  let r := fold_left cmin l m in
  (r = m \/ In r l) /\ (r <=? m) = true /\ forall t, In t l -> (r <=? t) = true.
Proof.
  revert m. induction l as [|t l IH]; intros m Hm Hl; simpl.
  - split; [left; reflexivity|]. split; [exact Hm|]. intros t [].
  - assert (Ht : (t <=? t) = true) by (apply Hl; left; reflexivity).
    assert (Hc : (cmin m t <=? m) = true /\ (cmin m t <=? t) = true /\
                 (cmin m t = m \/ cmin m t = t)).
    { unfold cmin, lt. destruct (m <? t) eqn:E.
      - split; [exact Hm|]. split; [apply ltb_leb, E|left; reflexivity].
      - split; [apply ltb_false_leb; assumption|]. split; [exact Ht|right; reflexivity]. }
    destruct Hc as (Hcm & Hct & Hor).
    destruct (IH (cmin m t) (leb_refl_l _ _ Hcm)
                (fun u Hu => Hl u (or_intror Hu))) as (Hr & Hrm & Hrl).
    split; [|split].
    + destruct Hr as [-> | Hr]; [|right; right; exact Hr].
      destruct Hor as [-> | ->]; [left; reflexivity|right; left; reflexivity].
    + apply (leb_trans _ _ _ Hrm Hcm).
    + intros u [<- | Hu]; [apply (leb_trans _ _ _ Hrm Hct)|apply Hrl, Hu].
Qed.

Lemma running_max_bounds (l : list double) (m : double) :
  (m <=? m) = true ->
  (forall t, In t l -> (t <=? t) = true) ->
  let r := fold_left cmax l m in
  (r = m \/ In r l) /\ (m <=? r) = true /\ forall t, In t l -> (t <=? r) = true.
Proof.
  revert m. induction l as [|t l IH]; intros m Hm Hl; simpl.
  - split; [left; reflexivity|]. split; [exact Hm|]. intros t [].
  - assert (Ht : (t <=? t) = true) by (apply Hl; left; reflexivity).
    assert (Hc : (m <=? cmax m t) = true /\ (t <=? cmax m t) = true /\
                 (cmax m t = m \/ cmax m t = t)).
    { unfold cmax, gt. destruct (t <? m) eqn:E.
      - split; [exact Hm|]. split; [apply ltb_leb, E|left; reflexivity].
      - split; [apply ltb_false_leb; assumption|]. split; [exact Ht|right; reflexivity]. }
    destruct Hc as (Hcm & Hct & Hor).
    destruct (IH (cmax m t) (leb_refl_r _ _ Hcm)
                (fun u Hu => Hl u (or_intror Hu))) as (Hr & Hrm & Hrl).
    split; [|split].
    + destruct Hr as [-> | Hr]; [|right; right; exact Hr].
      destruct Hor as [-> | ->]; [left; reflexivity|right; left; reflexivity].
    + apply (leb_trans _ _ _ Hcm Hrm).
    + intros u [<- | Hu]; [apply (leb_trans _ _ _ Hct Hrm)|apply Hrl, Hu].
Qed.

(** Started from a value no sample exceeds, the running minimum is the
    minimum of the samples; started from a value no sample is below, the
    running maximum is their maximum. *)
Lemma running_min_is_minimum (l : list double) (m : double) :
  l <> [] -> (forall t, In t l -> (t <=? m) = true) ->
  is_minimum (fold_left cmin l m) l.
Proof.
  destruct l as [|t l]; [congruence|]. intros _ Hl. simpl.
  assert (Ht : (t <=? m) = true) by (apply Hl; left; reflexivity).
  replace (cmin m t) with t
    by (unfold cmin, lt; rewrite (leb_ltb_false _ _ Ht); reflexivity).
  destruct (running_min_bounds l t (leb_refl_l _ _ Ht)
              (fun u Hu => leb_refl_l _ _ (Hl u (or_intror Hu))))
    as (Hr & Hrt & Hrl).
  split.
  - destruct Hr as [-> | Hr]; [left; reflexivity|right; exact Hr].
  - intros u [<- | Hu]; [exact Hrt|apply Hrl, Hu].
Qed.

Lemma running_max_is_maximum (l : list double) (m : double) :
  l <> [] -> (forall t, In t l -> (m <=? t) = true) ->
  is_maximum (fold_left cmax l m) l.
Proof.
  destruct l as [|t l]; [congruence|]. intros _ Hl. simpl.
  assert (Ht : (m <=? t) = true) by (apply Hl; left; reflexivity).
  replace (cmax m t) with t
    by (unfold cmax, gt; rewrite (leb_ltb_false _ _ Ht); reflexivity).
  destruct (running_max_bounds l t (leb_refl_r _ _ Ht)
              (fun u Hu => leb_refl_r _ _ (Hl u (or_intror Hu))))
    as (Hr & Hrt & Hrl).
  split.
  - destruct Hr as [-> | Hr]; [left; reflexivity|right; exact Hr].
  - intros u [<- | Hu]; [exact Hrt|apply Hrl, Hu].
Qed.

(** "Summarize results", row by row. *)
Lemma accumulate_rows (times : times_t) (ks : list nat) :
  fold_left (fun s k => for_loop 0 4 (fun j s => summarize_step times k j s) s)
    ks summary0
  = Summary
      (map (fun j => fold_left (fun s t => s + t) (map (times_get times j) ks) 0)
         (seq 0 4))
      (map (fun j => fold_left cmin (map (times_get times j) ks) FLT_MAX) (seq 0 4))
      (map (fun j => fold_left cmax (map (times_get times j) ks) 0) (seq 0 4)).
Proof.
  induction ks as [|k ks IH] using rev_ind; [reflexivity|].
  rewrite fold_left_app, IH. simpl.
  rewrite !map_app, !fold_left_app. reflexivity.
Qed.

Lemma accumulate_eq (cfg : config) (times : times_t) :
  accumulate cfg times
  = Summary
      (map (fun j => fold_left (fun s t => s + t) (remaining cfg times j) 0)
         (seq 0 4))
      (map (fun j => fold_left cmin (remaining cfg times j) FLT_MAX) (seq 0 4))
      (map (fun j => fold_left cmax (remaining cfg times j) 0) (seq 0 4)).
Proof.
  unfold accumulate, remaining. unfold for_loop at 1.
  rewrite accumulate_rows. reflexivity.
Qed.

Lemma summarize_rows (cfg : config) (times : times_t) (j : nat) :
  (j < 4)%nat ->
  load (avgtime (summarize cfg times)) j
  = fold_left (fun s t => s + t) (remaining cfg times j) 0
    / double_of_int (Z.of_nat (NTIMES cfg) - 1) /\
  load (mintime (summarize cfg times)) j
  = fold_left cmin (remaining cfg times j) FLT_MAX /\
  load (maxtime (summarize cfg times)) j
  = fold_left cmax (remaining cfg times j) 0.
Proof.
  intros Hj. unfold summarize. rewrite accumulate_eq.
  generalize (double_of_int (Z.of_nat (NTIMES cfg) - 1)) as d.
  generalize (remaining cfg times) as r. intros r d.
  destruct j as [|[|[|[|j]]]]; try lia; repeat split; reflexivity.
Qed.

(** The running minimum of the OpenMP examples. *)
Lemma running_lower_bounds (l : list double) (m : double) :
  (m <=? m) = true ->
  (forall t, In t l -> (t <=? t) = true) ->
  let r := fold_left lower l m in
  (r = m \/ In r l) /\ (r <=? m) = true /\ forall t, In t l -> (r <=? t) = true.
Proof.
  revert m. induction l as [|t l IH]; intros m Hm Hl; simpl.
  - split; [left; reflexivity|]. split; [exact Hm|]. intros t [].
  - assert (Ht : (t <=? t) = true) by (apply Hl; left; reflexivity).
    assert (Hc : (lower m t <=? m) = true /\ (lower m t <=? t) = true /\
                 (lower m t = m \/ lower m t = t)).
    { unfold lower, lt. destruct (t <? m) eqn:E.
      - split; [apply ltb_leb, E|]. split; [exact Ht|right; reflexivity].
      - split; [exact Hm|]. split; [apply ltb_false_leb; assumption|left; reflexivity]. }
    destruct Hc as (Hcm & Hct & Hor).
    destruct (IH (lower m t) (leb_refl_l _ _ Hcm)
                (fun u Hu => Hl u (or_intror Hu))) as (Hr & Hrm & Hrl).
    split; [|split].
    + destruct Hr as [-> | Hr]; [|right; right; exact Hr].
      destruct Hor as [-> | ->]; [left; reflexivity|right; left; reflexivity].
    + apply (leb_trans _ _ _ Hrm Hcm).
    + intros u [<- | Hu]; [apply (leb_trans _ _ _ Hrm Hct)|apply Hrl, Hu].
Qed.

Lemma running_lower_is_minimum (l : list double) (m : double) :
  l <> [] -> (forall t, In t l -> (t <? m) = true) ->
  is_minimum (fold_left lower l m) l.
Proof.
  destruct l as [|t l]; [congruence|]. intros _ Hl. simpl.
  assert (Ht : (t <? m) = true) by (apply Hl; left; reflexivity).
  replace (lower m t) with t by (unfold lower, lt; rewrite Ht; reflexivity).
  destruct (running_lower_bounds l t (leb_refl_l _ _ (ltb_leb _ _ Ht))
              (fun u Hu => leb_refl_l _ _ (ltb_leb _ _ (Hl u (or_intror Hu)))))
    as (Hr & Hrt & Hrl).
  split.
  - destruct Hr as [-> | Hr]; [left; reflexivity|right; exact Hr].
  - intros u [<- | Hu]; [exact Hrt|apply Hrl, Hu].
Qed.

(** A timing loop of matmul.c, and of vector_add.c: the running minimum over
    the samples of all its iterations, the first included. *)
Lemma matmul_timed_iteration os kernel iter st :
  Matmul.timed_iteration os kernel iter st
  = Matmul.Bench
      (World (S (S (clock_calls (Matmul.bench_world st))))
         (output (Matmul.bench_world st)))
      (kernel iter (Matmul.bench_out st))
      (lower (Matmul.bench_min st)
         (timespec_seconds
            (clock_gettime_monotonic os (S (clock_calls (Matmul.bench_world st))))
          - timespec_seconds
              (clock_gettime_monotonic os (clock_calls (Matmul.bench_world st))))).
Proof. reflexivity. Qed.

Lemma matmul_timing_loop os kernel (iters : nat) w out m0 :
  let r := for_loop 0 iters (Matmul.timed_iteration os kernel)
             (Matmul.Bench w out m0) in
  Matmul.bench_min r
  = fold_left lower (map (sample os (clock_calls w)) (seq 0 iters)) m0 /\
  clock_calls (Matmul.bench_world r) = (clock_calls w + 2 * iters)%nat /\
  output (Matmul.bench_world r) = output w.
Proof.
  induction iters as [|k IH]; cbv zeta in *.
  - repeat split. simpl. lia.
  - rewrite for_loop_S, seq_S, map_app, fold_left_app.
    destruct IH as (Hmin & Hcalls & Hout).
    rewrite matmul_timed_iteration.
    cbn [Matmul.bench_min Matmul.bench_world clock_calls output map fold_left].
    rewrite Hmin, Hcalls, Hout. unfold sample.
    replace (clock_calls w + 2 * (0 + k) + 1)%nat
      with (S (clock_calls w + 2 * k)) by lia.
    replace (clock_calls w + 2 * (0 + k))%nat with (clock_calls w + 2 * k)%nat by lia.
    repeat split. lia.
Qed.

Lemma vector_timed_iteration os kernel iter st :
  VectorAdd.timed_iteration os kernel iter st
  = VectorAdd.Bench
      (World (S (S (clock_calls (VectorAdd.bench_world st))))
         (output (VectorAdd.bench_world st)))
      (kernel iter (VectorAdd.bench_out st))
      (lower (VectorAdd.bench_min st)
         (timespec_seconds
            (clock_gettime_monotonic os (S (clock_calls (VectorAdd.bench_world st))))
          - timespec_seconds
              (clock_gettime_monotonic os (clock_calls (VectorAdd.bench_world st))))).
Proof. reflexivity. Qed.

Lemma vector_timing_loop os kernel (iters : nat) w out m0 :
  let r := for_loop 0 iters (VectorAdd.timed_iteration os kernel)
             (VectorAdd.Bench w out m0) in
  VectorAdd.bench_min r
  = fold_left lower (map (sample os (clock_calls w)) (seq 0 iters)) m0 /\
  clock_calls (VectorAdd.bench_world r) = (clock_calls w + 2 * iters)%nat /\
  output (VectorAdd.bench_world r) = output w.
Proof.
  induction iters as [|k IH]; cbv zeta in *.
  - repeat split. simpl. lia.
  - rewrite for_loop_S, seq_S, map_app, fold_left_app.
    destruct IH as (Hmin & Hcalls & Hout).
    rewrite vector_timed_iteration.
    cbn [VectorAdd.bench_min VectorAdd.bench_world clock_calls output map fold_left].
    rewrite Hmin, Hcalls, Hout. unfold sample.
    replace (clock_calls w + 2 * (0 + k) + 1)%nat
      with (S (clock_calls w + 2 * k)) by lia.
    replace (clock_calls w + 2 * (0 + k))%nat with (clock_calls w + 2 * k)%nat by lia.
    repeat split. lia.
Qed.

(** The minima [main] reports are those of its timing loops. *)
Lemma matmul_main_minima n os A B Cs Cp Cc rows cells :
  option_map
    (fun r => (Matmul.min_serial_time r, Matmul.min_parallel_time r,
               Matmul.min_collapse_time r))
    (Matmul.reported
       (Matmul.main n os (Some A) (Some B) (Some Cs) (Some Cp) (Some Cc) rows cells))
  = Some (fold_left lower (map (sample os 0) (seq 0 Matmul.ITERATIONS)) 1e9,
          fold_left lower (map (sample os 10) (seq 0 Matmul.ITERATIONS)) 1e9,
          fold_left lower (map (sample os 20) (seq 0 Matmul.ITERATIONS)) 1e9).
Proof.
  unfold Matmul.main, Matmul.verify_and_exit.
  cbn [Matmul.reported option_map Matmul.min_serial_time
         Matmul.min_parallel_time Matmul.min_collapse_time].
  set (A' := Matmul.initialize_matrix A n 1).
  set (B' := Matmul.initialize_matrix B n 2).
  set (W := Matmul.matmul_parallel (rows 0%nat) A' B' Cp n).
  destruct (matmul_timing_loop os (fun _ C => Matmul.matmul_serial A' B' C n)
              Matmul.ITERATIONS start Cs 1e9) as (H1 & C1 & _).
  set (serial := for_loop 0 Matmul.ITERATIONS _ (Matmul.Bench start Cs 1e9)) in *.
  destruct (matmul_timing_loop os
              (fun iter C => Matmul.matmul_parallel (rows (S iter)) A' B' C n)
              Matmul.ITERATIONS (Matmul.bench_world serial) W 1e9) as (H2 & C2 & _).
  set (parallel := for_loop 0 Matmul.ITERATIONS _
                     (Matmul.Bench (Matmul.bench_world serial) W 1e9)) in *.
  destruct (matmul_timing_loop os
              (fun iter C => Matmul.matmul_parallel_collapse (cells iter) A' B' C n)
              Matmul.ITERATIONS (Matmul.bench_world parallel) Cc 1e9) as (H3 & _ & _).
  rewrite H1, H2, H3, C2, C1. reflexivity.
Qed.

Lemma vector_main_minima n os a b cs cp init_sched add_sched :
  option_map
    (fun r => (VectorAdd.min_serial_time r, VectorAdd.min_parallel_time r))
    (VectorAdd.reported
       (VectorAdd.main n os (Some a) (Some b) (Some cs) (Some cp)
          init_sched add_sched))
  = Some (fold_left lower (map (sample os 0) (seq 0 VectorAdd.ITERATIONS)) 1e9,
          fold_left lower (map (sample os 20) (seq 0 VectorAdd.ITERATIONS)) 1e9).
Proof.
  unfold VectorAdd.main.
  destruct (omp_parallel_for init_sched _ (a, b)) as [a' b'].
  set (W := VectorAdd.vector_add_parallel (add_sched 0%nat) a' b' cp).
  destruct (vector_timing_loop os (fun _ c => VectorAdd.vector_add_serial a' b' c n)
              VectorAdd.ITERATIONS start cs 1e9) as (H1 & C1 & _).
  set (serial := for_loop 0 VectorAdd.ITERATIONS _ (VectorAdd.Bench start cs 1e9)) in *.
  destruct (vector_timing_loop os
              (fun iter c => VectorAdd.vector_add_parallel (add_sched (S iter)) a' b' c)
              VectorAdd.ITERATIONS (VectorAdd.bench_world serial) W 1e9)
    as (H2 & _ & _).
  set (parallel := for_loop 0 VectorAdd.ITERATIONS _
                     (VectorAdd.Bench (VectorAdd.bench_world serial) W 1e9)) in *.
  unfold VectorAdd.verify_and_exit.
  destruct (_ =? 0)%Z;
    cbn [VectorAdd.reported option_map VectorAdd.min_serial_time
           VectorAdd.min_parallel_time];
    rewrite H1, H2, C1; reflexivity.
Qed.

Lemma remaining_length cfg times j :
  length (remaining cfg times j) = (NTIMES cfg - 1)%nat.
Proof. unfold remaining. rewrite length_map, length_seq. reflexivity. Qed.

(** The summary reads the samples of iterations 1 and later only. *)
Lemma summarize_ignores_first cfg (times times' : times_t) :
  (forall i k, (1 <= k)%nat -> times_get times' i k = times_get times i k) ->
  summarize cfg times' = summarize cfg times.
Proof.
  intros H. unfold summarize. rewrite !accumulate_eq.
  assert (E : forall i, remaining cfg times' i = remaining cfg times i).
  { intros i. unfold remaining. apply map_ext_in. intros k Hk.
    apply in_seq in Hk. apply H. lia. }
  simpl. rewrite !E. reflexivity.
Qed.

(** C4, as the code has it.  STREAM (for [NTIMES >= 2], each kernel row [j])
    drops iteration 0 and aggregates the remaining [NTIMES - 1] samples:
    their arithmetic mean, their running minimum started from [FLT_MAX] and
    their running maximum started from 0, which are the minimum and the
    maximum of those samples whenever the samples lie between 0 and
    [FLT_MAX]; no sample of iteration 0 has any influence on the summary; on
    the series [5,1,3,1,9,2] the aggregates are min = 1, max = 9, avg = 3.2.
    The OpenMP examples drop nothing: the best time [main] reports for a
    variant is the running minimum, started from 1e9, over the samples of all
    [ITERATIONS] timed iterations, the first included (the minimum of all of
    them when they are below 1e9), and no maximum or mean is computed. *)
Theorem aggregation_spec (cfg : config) (times : times_t) (j : nat)
    (n : nat) (os : clocks) (A B Cs Cp Cc : list double)
    (rows : nat -> list nat) (cells : nat -> list (nat * nat)) (sched : list nat) :
  (2 <= NTIMES cfg)%nat -> (j < 4)%nat ->
  let rest := remaining cfg times j in
  let s := summarize cfg times in
  let all := fun iters c0 => map (sample os c0) (seq 0 iters) in
  length rest = (NTIMES cfg - 1)%nat /\
  load (avgtime s) j = mean rest /\
  load (mintime s) j = fold_left cmin rest FLT_MAX /\
  load (maxtime s) j = fold_left cmax rest 0 /\
  ((forall t, In t rest -> (0 <=? t) = true /\ (t <=? FLT_MAX) = true) ->
   is_minimum (load (mintime s) j) rest /\ is_maximum (load (maxtime s) j) rest) /\
  (forall times' : times_t,
     (forall i k, (1 <= k)%nat -> times_get times' i k = times_get times i k) ->
     summarize cfg times' = summarize cfg times) /\
  summarize (Config 4 6) Sample.series6
  = Summary [3.2; 3.2; 3.2; 3.2] [1; 1; 1; 1] [9; 9; 9; 9] /\
  option_map
    (fun r => (Matmul.min_serial_time r, Matmul.min_parallel_time r,
               Matmul.min_collapse_time r))
    (Matmul.reported
       (Matmul.main n os (Some A) (Some B) (Some Cs) (Some Cp) (Some Cc) rows cells))
  = Some (fold_left lower (all Matmul.ITERATIONS 0%nat) 1e9,
          fold_left lower (all Matmul.ITERATIONS 10%nat) 1e9,
          fold_left lower (all Matmul.ITERATIONS 20%nat) 1e9) /\
  option_map
    (fun r => (VectorAdd.min_serial_time r, VectorAdd.min_parallel_time r))
    (VectorAdd.reported
       (VectorAdd.main n os (Some A) (Some B) (Some Cs) (Some Cp) sched rows))
  = Some (fold_left lower (all VectorAdd.ITERATIONS 0%nat) 1e9,
          fold_left lower (all VectorAdd.ITERATIONS 20%nat) 1e9) /\
  (forall iters c0, iters <> 0%nat ->
     (forall t, In t (all iters c0) -> (t <? 1e9) = true) ->
     is_minimum (fold_left lower (all iters c0) 1e9) (all iters c0)).
Proof.
  intros HN Hj rest s all.
  destruct (summarize_rows cfg times j Hj) as (Havg & Hmin & Hmax).
  fold rest s in Havg, Hmin, Hmax.
  split; [apply remaining_length|].
  split.
  { rewrite Havg. unfold mean, rest. rewrite remaining_length.
    do 2 f_equal. lia. }
  split; [exact Hmin|]. split; [exact Hmax|]. split.
  { intros Hord. rewrite Hmin, Hmax.
    assert (Hne : rest <> []).
    { intros E. apply (f_equal (@length float)) in E. unfold rest in E.
      rewrite remaining_length in E. simpl in E. lia. }
    split.
    - apply running_min_is_minimum; [exact Hne|]. intros t Ht. apply Hord, Ht.
    - apply running_max_is_maximum; [exact Hne|]. intros t Ht. apply Hord, Ht. }
  split; [intros times'; apply summarize_ignores_first|].
  split; [vm_compute; reflexivity|].
  split; [apply matmul_main_minima|].
  split; [apply vector_main_minima|].
  intros iters c0 Hi Hlt. apply running_lower_is_minimum; [|exact Hlt].
  unfold all. destruct iters; [congruence|]. simpl. discriminate.
Qed.

(** On the series of the specification, in the first row: the first sample
    (5) is dropped, and the aggregates are those of [1,3,1,9,2]. *)
Lemma aggregation_spec_witness :
  load (avgtime (summarize (Config 4 6) Sample.series6)) 0 = mean [1; 3; 1; 9; 2] /\
  load (mintime (summarize (Config 4 6) Sample.series6)) 0 = 1 /\
  load (maxtime (summarize (Config 4 6) Sample.series6)) 0 = 9.
Proof.
  destruct (aggregation_spec (Config 4 6) Sample.series6 0 2 Sample.steady_clock
              Sample.A2 Sample.B2 Sample.fresh4 Sample.fresh4 Sample.fresh4
              (fun _ => Sample.rows2) (fun _ => Sample.cells2) Sample.rows2)
    as (_ & Havg & Hmin & Hmax & _).
  - simpl. lia.
  - lia.
  - split; [exact Havg|]. split; [exact Hmin|exact Hmax].
Defined.

(** Where the claim fails: on a clock on which the first timed iteration of
    the serial variant takes 1 second and each of the four later ones takes
    3 seconds, the best serial time [main] of matmul.c reports is 1, the
    sample of the first iteration, not the minimum 3 of the remaining ones. *)
Lemma matmul_best_time_includes_first_iteration :
  option_map Matmul.min_serial_time
    (Matmul.reported
       (Matmul.main 2 Sample.first_fastest
          (Some Sample.fresh4) (Some Sample.fresh4) (Some Sample.fresh4)
          (Some Sample.fresh4) (Some Sample.fresh4)
          (fun _ => Sample.rows2) (fun _ => Sample.cells2)))
  = Some 1 /\
  sample Sample.first_fastest 0 0 = 1 /\
  map (sample Sample.first_fastest 0) [1; 2; 3; 4]%nat = [3; 3; 3; 3] /\
  fold_left cmin (map (sample Sample.first_fastest 0) [1; 2; 3; 4]%nat) 1e9 = 3.
Proof. vm_compute. repeat split; reflexivity. Qed.

End Aggregation.

(** ** stream.c: the clock granularity *)

Section Checktick.
Import C OS Stream Spec.

Lemma mysecond_reading os w :
  mysecond os w = (reading os (clock_calls w), World (S (clock_calls w)) (output w)).
Proof. reflexivity. Qed.

Lemma spin_step os fuel t1 w :
  spin os (S fuel) t1 w
  = if lt (reading os (clock_calls w) - t1)%float 1e-6
    then spin os fuel t1 (World (S (clock_calls w)) (output w))
    else Done (reading os (clock_calls w), World (S (clock_calls w)) (output w)).
Proof. reflexivity. Qed.

Lemma collect_step os fuel n acc w :
  collect os fuel (S n) acc w
  = bind (spin os fuel (reading os (clock_calls w))
            (World (S (clock_calls w)) (output w)))
      (fun r => collect os fuel n (acc ++ [fst r]) (snd r)).
Proof. reflexivity. Qed.

(** What a spin loop that ends has done. *)
Lemma spin_spec os fuel t1 w t2 w' :
  spin os fuel t1 w = Done (t2, w') ->
  exists q, spun os t1 (clock_calls w) q /\
            t2 = reading os q /\ clock_calls w' = S q /\ output w' = output w /\
            (q < clock_calls w + fuel)%nat.
Proof.
  revert w. induction fuel as [|fuel IH]; intros w; [discriminate|].
  rewrite spin_step.
  destruct (lt (reading os (clock_calls w) - t1)%float 1e-6) eqn:E.
  - intros H. destruct (IH _ H) as (q & (Hle & Hq & Hbefore) & -> & Hc & Ho & Hf).
    simpl in *. exists q. repeat split; try assumption; try lia.
    intros k Hk. destruct (decide (k = clock_calls w)) as [->|Hne]; [exact E|].
    apply Hbefore. lia.
  - intros H. inversion H; subst. exists (clock_calls w).
    repeat split; simpl; try assumption; try lia.
Qed.

(** A spin loop ends when one of the readings it is allowed is late enough. *)
Lemma spin_ends os fuel t1 w :
  existsb (fun q => negb (lt (reading os q - t1)%float 1e-6))
    (seq (clock_calls w) fuel) = true ->
  exists r, spin os fuel t1 w = Done r.
Proof.
  revert w. induction fuel as [|fuel IH]; intros w; [discriminate|].
  rewrite spin_step. cbn [seq existsb].
  destruct (lt (reading os (clock_calls w) - t1)%float 1e-6) eqn:E; simpl.
  - intros H. apply (IH (World (S (clock_calls w)) (output w))). exact H.
  - intros _. eexists. reflexivity.
Qed.

Lemma collect_spec os fuel n acc w found w' :
  collect os fuel n acc w = Done (found, w') ->
  exists found', found = acc ++ found' /\ length found' = n /\
                 rounds os (clock_calls w) found' (clock_calls w') /\
                 output w' = output w.
Proof.
  revert acc w. induction n as [|n IH]; intros acc w.
  - intros H. inversion H; subst. exists []. rewrite app_nil_r.
    repeat split. constructor.
  - rewrite collect_step.
    destruct (spin os fuel (reading os (clock_calls w))
                (World (S (clock_calls w)) (output w))) as [[t2 w2]| |] eqn:Hs;
      simpl; try discriminate.
    intros H. destruct (spin_spec _ _ _ _ _ _ Hs) as (q & Hspun & -> & Hc & Ho & _).
    destruct (IH _ _ H) as (found' & -> & Hlen & Hr & Ho').
    exists (reading os q :: found'). rewrite <- app_assoc. simpl in *.
    repeat split; try congruence.
    apply rounds_round; [exact Hspun|]. rewrite <- Hc. exact Hr.
Qed.

Lemma collect_ends os fuel n acc w :
  forallb (ticks_within os fuel) (seq (clock_calls w) (n * S fuel)) = true ->
  exists r, collect os fuel n acc w = Done r.
Proof.
  revert acc w. induction n as [|n IH]; intros acc w Hticks.
  - eexists. reflexivity.
  - rewrite collect_step. rewrite forallb_forall in Hticks.
    assert (H0 : ticks_within os fuel (clock_calls w) = true).
    { apply Hticks, in_seq. simpl. lia. }
    destruct (spin_ends os fuel (reading os (clock_calls w))
                (World (S (clock_calls w)) (output w)) H0) as ([t2 w2] & Hs).
    rewrite Hs. simpl.
    destruct (spin_spec _ _ _ _ _ _ Hs) as (q & (Hle & _) & _ & Hc & _ & Hq).
    simpl in Hq, Hc, Hle.
    apply IH. rewrite forallb_forall. intros p Hp. apply Hticks.
    apply in_seq in Hp. apply in_seq. nia.
Qed.

(** The second loop: the minimum of 1000000 and the deltas, when every
    conversion to [int] is defined. *)
Lemma min_delta_spec found (indices : list nat) (m0 : Z) :
  min_delta found indices m0
  = match mapM (delta found) indices with
    | Some ds => Done (fold_left Z.min ds m0)
    | None => Undefined
    end.
Proof.
  revert m0. induction indices as [|i l IH]; intros m0; simpl; [reflexivity|].
  destruct (delta found i) as [D|]; simpl; [|reflexivity].
  rewrite IH. replace (if (m0 <? D)%Z then m0 else D) with (Z.min m0 D).
  - destruct (mapM (delta found) l); reflexivity.
  - unfold Z.min. rewrite Z.ltb_compare. destruct (m0 ?= D)%Z eqn:E; try reflexivity.
    apply Z.compare_eq in E. exact E.
Qed.

Lemma fold_min_bounds (ds : list Z) (m0 : Z) :
  let d := fold_left Z.min ds m0 in
  (d <= m0)%Z /\ (forall D, In D ds -> (d <= D)%Z) /\ (d = m0 \/ In d ds).
Proof.
  revert m0. induction ds as [|D ds IH]; intros m0; simpl.
  - split; [lia|]. split; [intros D []|left; reflexivity].
  - destruct (IH (Z.min m0 D)) as (H1 & H2 & H3). split; [lia|]. split.
    + intros D' [<-|HD]; [lia|apply H2, HD].
    + destruct H3 as [H3|H3]; [|right; right; exact H3].
      destruct (Z.min_spec m0 D) as [[_ E]|[_ E]].
      * left. rewrite H3. exact E.
      * right. left. rewrite H3. symmetry. exact E.
Qed.

(** C7, as the code has it.  On a clock that ticks (within [fuel] readings of
    every call of the calibration, a reading at least a microsecond later
    comes), [checktick] collects exactly 20 timestamps, each one the reading
    that ended a spin loop; it then returns the smaller of 1000000 and the
    least delta, in whole microseconds (truncated), between consecutive
    timestamps, provided each delta fits an [int].  The caller replaces a
    result below 1 by 1, so the granularity it goes on with is at least 1. *)
Theorem checktick_spec (os : clocks) (fuel : nat) (w : world) :
  forallb (ticks_within os fuel) (seq (clock_calls w) (M * S fuel)) = true ->
  exists found w',
    collect os fuel M [] w = Done (found, w') /\
    length found = 20 /\
    rounds os (clock_calls w) found (clock_calls w') /\
    checktick os fuel w
    = match mapM (delta found) (seq 1 19) with
      | Some ds => Done (fold_left Z.min ds 1000000%Z, w')
      | None => Undefined
      end /\
    forall ds, mapM (delta found) (seq 1 19) = Some ds ->
      let d := fold_left Z.min ds 1000000%Z in
      length ds = 19 /\
      (d <= 1000000)%Z /\
      (forall D, In D ds -> (d <= D)%Z) /\
      (d = 1000000%Z \/ In d ds) /\
      (1 <= quantum_of d)%Z /\
      quantum_of d = Z.max 1 d.
Proof.
  intros Hticks.
  destruct (collect_ends os fuel M [] w Hticks) as ([found w'] & Hc).
  destruct (collect_spec _ _ _ _ _ _ _ Hc) as (found' & E & Hlen & Hr & _).
  simpl in E. subst found'.
  exists found, w'. split; [exact Hc|]. split; [exact Hlen|]. split; [exact Hr|].
  split.
  - unfold checktick. rewrite Hc. cbn [bind fst snd]. rewrite min_delta_spec.
    change (seq 1 (M - 1)) with (seq 1 19).
    destruct (mapM (delta found) (seq 1 19)); reflexivity.
  - intros ds Hds d.
    destruct (fold_min_bounds ds 1000000) as (H1 & H2 & H3). fold d in H1, H2, H3.
    split; [apply length_mapM in Hds; rewrite <- Hds; reflexivity|].
    split; [exact H1|]. split; [exact H2|]. split; [exact H3|].
    unfold quantum_of. destruct (Z.leb_spec 1 d); lia.
Qed.

Lemma checktick_spec_witness :
  exists found w',
    collect Sample.steady_clock 10 M [] start = Done (found, w') /\
    length found = 20 /\
    checktick Sample.steady_clock 10 start
    = match mapM (delta found) (seq 1 19) with
      | Some ds => Done (fold_left Z.min ds 1000000%Z, w')
      | None => Undefined
      end.
Proof.
  destruct (checktick_spec Sample.steady_clock 10 start)
    as (found & w' & Hc & Hlen & _ & Hr & _).
  - vm_compute. reflexivity.
  - exists found, w'. split; [exact Hc|]. split; [exact Hlen|exact Hr].
Defined.

(** Where the claim fails: on a clock that advances by four seconds per call,
    consecutive timestamps are 8000000 microseconds apart, all nineteen
    deltas are 8000000, and [checktick] returns 1000000. *)
Lemma checktick_returns_cap_on_slow_clock :
  exists found w',
    collect Sample.slow_clock 5 M [] start = Done (found, w') /\
    mapM (delta found) (seq 1 19) = Some (replicate 19 8000000%Z) /\
    checktick Sample.slow_clock 5 start = Done (1000000%Z, w').
Proof.
  destruct (collect Sample.slow_clock 5 M [] start) as [[found w']| |] eqn:E;
    vm_compute in E; try discriminate.
  exists found, w'. inversion E; subst. split; [reflexivity|].
  split; vm_compute; reflexivity.
Qed.

End Checktick.

(** ** The three [main] functions: what runs, and the exit code *)

Section Mains.
Import C OS Spec Probe.

(** *** stream.c *)

(** [main] of STREAM, once [checktick] has returned and the two conversions
    of the announced test duration are defined: no other step can stop it. *)
Lemma stream_main_runs cfg os sch fuel d w1 :
  Stream.checktick os fuel start = Stream.Done (d, w1) ->
  let t := (1e6 * (Stream.reading os (S (clock_calls w1))
                   - Stream.reading os (clock_calls w1)))%float in
  int_of_double t <> None ->
  int_of_double (t / double_of_int (Stream.quantum_of d)) <> None ->
  Stream.main cfg os sch fuel
  = Stream.Done
      (Stream.report_and_exit cfg (Stream.quantum_of d)
         (Stream.main_loop cfg os sch
            (Stream.entry_state cfg sch
               (World (S (S (clock_calls w1))) (output w1))))).
Proof.
  intros Hc t H1 H2. unfold Stream.main. rewrite Hc.
  cbn [Stream.bind fst snd]. unfold mysecond. cbn [clock_calls output].
  fold (Stream.reading os (clock_calls w1)).
  fold (Stream.reading os (S (clock_calls w1))). fold t.
  unfold Stream.cast.
  destruct (int_of_double t); [|congruence].
  destruct (int_of_double (t / double_of_int (Stream.quantum_of d))); [|congruence].
  reflexivity.
Qed.

(** Whatever [main] of STREAM returns comes from [report_and_exit] on the
    state the main loop leaves. *)
Lemma stream_main_result cfg os sch fuel r :
  Stream.main cfg os sch fuel = Stream.Done r ->
  exists q w,
    r = Stream.report_and_exit cfg q
          (Stream.main_loop cfg os sch (Stream.entry_state cfg sch w)) /\
    output w = [].
Proof.
  unfold Stream.main.
  destruct (Stream.checktick os fuel start) as [[d w1]| |] eqn:Hc;
    cbn [Stream.bind fst snd]; try discriminate.
  unfold mysecond. cbn [clock_calls output].
  destruct (Stream.cast _); cbn [Stream.bind]; try discriminate.
  destruct (Stream.cast _); cbn [Stream.bind]; try discriminate.
  intros H. inversion H; subst. eexists _, _. split; [reflexivity|]. simpl.
  unfold Stream.checktick in Hc.
  destruct (Stream.collect os fuel Stream.M [] start) as [[found w']| |] eqn:E;
    cbn [Stream.bind fst snd] in Hc; try discriminate.
  destruct (Stream.min_delta _ _ _); cbn [Stream.bind] in Hc; try discriminate.
  inversion Hc; subst.
  destruct (collect_spec _ _ _ _ _ _ _ E) as (_ & _ & _ & _ & Ho). exact Ho.
Qed.

Lemma main_loop_world_output cfg os sch st :
  output (Stream.ls_world (Stream.main_loop cfg os sch st))
  = output (Stream.ls_world st).
Proof.
  unfold Stream.main_loop. induction (Stream.NTIMES cfg) as [|k IH]; [reflexivity|].
  rewrite for_loop_S. rewrite <- IH. reflexivity.
Qed.

Lemma validation_output_stdout v w :
  Forall (fun e => exists line, e = Stdout line) (output w) ->
  Forall (fun e => exists line, e = Stdout line)
    (output (Stream.validation_output v w)).
Proof.
  intros Hw. unfold Stream.validation_output.
  assert (H : forall (l : list (string * nat)) w,
            Forall (fun e => exists line, e = Stdout line) (output w) ->
            Forall (fun e => exists line, e = Stdout line)
              (output (fold_left
                 (fun w f => print (Stdout (String.append
                     "Failed Validation on array " (fst f))) w) l w))).
  { induction l as [|f l IH]; intros w0 H0; simpl; [exact H0|].
    apply IH. simpl. apply Forall_app. split; [exact H0|].
    constructor; [eexists; reflexivity|constructor]. }
  destruct (Stream.err v =? 0)%nat.
  - simpl. apply Forall_app. split; [apply H, Hw|].
    constructor; [eexists; reflexivity|constructor].
  - apply H, Hw.
Qed.

Lemma summarize_one_trial cfg times :
  Stream.NTIMES cfg = 1%nat ->
  Stream.summarize cfg times
  = Stream.Summary [nan; nan; nan; nan]%float
      [Stream.FLT_MAX; Stream.FLT_MAX; Stream.FLT_MAX; Stream.FLT_MAX]
      [0; 0; 0; 0]%float.
Proof.
  intros H. unfold Stream.summarize. rewrite accumulate_eq. unfold remaining.
  rewrite H. reflexivity.
Qed.

Lemma summarize_no_trial cfg times :
  Stream.NTIMES cfg = 0%nat ->
  Stream.summarize cfg times
  = Stream.Summary [-0; -0; -0; -0]%float
      [Stream.FLT_MAX; Stream.FLT_MAX; Stream.FLT_MAX; Stream.FLT_MAX]
      [0; 0; 0; 0]%float.
Proof.
  intros H. unfold Stream.summarize. rewrite accumulate_eq. unfold remaining.
  rewrite H. reflexivity.
Qed.

(** C8, as the code has it.  [main] of STREAM has no check of the iteration
    count: for every [NTIMES], below 2 included, it goes on as soon as
    [checktick] has returned (and the two conversions of the announced
    duration are defined); what it returns has exit code 0, arrays on which
    every kernel has run [NTIMES] times, nothing written to standard error,
    and the summary of the recorded times.  With [NTIMES = 1] that summary is
    taken over no sample: min stays [FLT_MAX], max stays 0, and the mean is
    0.0/0.0, which is NaN, not a crash; with [NTIMES = 0] the mean is
    0.0/-1.0. *)
Theorem stream_has_no_iteration_check (cfg : Stream.config) (os : clocks)
    (sch : Stream.schedules) (fuel : nat) :
  Stream.valid_schedules cfg sch ->
  (forall d w1,
     Stream.checktick os fuel start = Stream.Done (d, w1) ->
     let t := (1e6 * (Stream.reading os (S (clock_calls w1))
                      - Stream.reading os (clock_calls w1)))%float in
     int_of_double t <> None ->
     int_of_double (t / double_of_int (Stream.quantum_of d)) <> None ->
     exists r, Stream.main cfg os sch fuel = Stream.Done r) /\
  (forall r,
     Stream.main cfg os sch fuel = Stream.Done r ->
     Stream.exit_code r = 0%Z /\
     Stream.final_arrays r
     = Stream.broadcast (Stream.STREAM_ARRAY_SIZE cfg) (Stream.expected cfg) /\
     Forall (fun e => exists line, e = Stdout line)
       (output (Stream.final_world r)) /\
     Stream.results r = Stream.summarize cfg (Stream.times r)) /\
  (Stream.NTIMES cfg = 1%nat ->
   forall times,
     Stream.summarize cfg times
     = Stream.Summary [nan; nan; nan; nan]%float
         [Stream.FLT_MAX; Stream.FLT_MAX; Stream.FLT_MAX; Stream.FLT_MAX]
         [0; 0; 0; 0]%float) /\
  (Stream.NTIMES cfg = 0%nat ->
   forall times,
     Stream.summarize cfg times
     = Stream.Summary [-0; -0; -0; -0]%float
         [Stream.FLT_MAX; Stream.FLT_MAX; Stream.FLT_MAX; Stream.FLT_MAX]
         [0; 0; 0; 0]%float).
Proof.
  intros Hv. split; [|split; [|split]].
  - intros d w1 Hc t H1 H2. eexists.
    apply (stream_main_runs cfg os sch fuel d w1 Hc H1 H2).
  - intros r Hr. destruct (stream_main_result cfg os sch fuel r Hr)
      as (q & w & -> & Hw).
    unfold Stream.report_and_exit.
    cbn [Stream.exit_code Stream.final_arrays Stream.final_world Stream.results
           Stream.times].
    split; [reflexivity|]. split; [apply main_loop_broadcast, Hv|].
    split; [|reflexivity].
    apply validation_output_stdout. rewrite main_loop_world_output. simpl.
    rewrite Hw. constructor.
  - intros H times. apply summarize_one_trial, H.
  - intros H times. apply summarize_no_trial, H.
Qed.

Lemma stream_has_no_iteration_check_witness :
  match Stream.main Sample.cfg41 Sample.steady_clock
          (Stream.in_order Sample.cfg41) 10 with
  | Stream.Done r =>
      Stream.exit_code r = 0%Z /\
      Stream.final_arrays r = Stream.broadcast 4 (Stream.Scalars 30 6 8)
  | _ => False
  end.
Proof.
  destruct (stream_has_no_iteration_check Sample.cfg41 Sample.steady_clock
              (Stream.in_order Sample.cfg41) 10 (in_order_valid Sample.cfg41))
    as (_ & H & _).
  destruct (Stream.main Sample.cfg41 Sample.steady_clock
              (Stream.in_order Sample.cfg41) 10) as [r| |] eqn:E.
  - destruct (H r eq_refl) as (H1 & H2 & _). split; [exact H1|exact H2].
  - vm_compute in E. discriminate.
  - vm_compute in E. discriminate.
Defined.

(** Where the claim fails: built with [NTIMES = 1], the program runs to its
    end.  The kernels have executed (the arrays hold 30, 6 and 8), the mean
    times are NaN, the validation is printed and [main] returns 0: no
    configuration error is reported. *)
Lemma stream_runs_with_one_iteration :
  exists r,
    Stream.main Sample.cfg41 Sample.steady_clock (Stream.in_order Sample.cfg41) 10
    = Stream.Done r /\
    Stream.exit_code r = 0%Z /\
    Stream.final_arrays r = Stream.broadcast 4 (Stream.Scalars 30 6 8) /\
    Stream.avgtime (Stream.results r) = [nan; nan; nan; nan]%float /\
    output (Stream.final_world r) = [Stdout "Solution Validates"].
Proof.
  eexists. split; [vm_compute; reflexivity|].
  repeat split; reflexivity.
Qed.

(** *** The OpenMP examples *)

Lemma matmul_main_allocation n os mA mB mCs mCp mCc rows cells :
  (mA = None \/ mB = None \/ mCs = None \/ mCp = None \/ mCc = None) ->
  Matmul.main n os mA mB mCs mCp mCc rows cells = allocation_failure_run_matmul.
Proof.
  intros H. destruct mA, mB, mCs, mCp, mCc; try reflexivity.
  destruct H as [H|[H|[H|[H|H]]]]; discriminate.
Qed.

Lemma matmul_main_exit n os A B Cs Cp Cc rows cells :
  Matmul.exit_code
    (Matmul.main n os (Some A) (Some B) (Some Cs) (Some Cp) (Some Cc) rows cells)
  = 0%Z.
Proof. reflexivity. Qed.

Lemma vector_main_allocation n os ma mb mcs mcp init_sched add_sched :
  (ma = None \/ mb = None \/ mcs = None \/ mcp = None) ->
  VectorAdd.main n os ma mb mcs mcp init_sched add_sched
  = allocation_failure_run_vector.
Proof.
  intros H. destruct ma, mb, mcs, mcp; try reflexivity.
  destruct H as [H|[H|[H|H]]]; discriminate.
Qed.

Lemma vector_verify_results_01 c1 c2 n tol :
  VectorAdd.verify_results c1 c2 n tol = 0%Z \/
  VectorAdd.verify_results c1 c2 n tol = 1%Z.
Proof.
  unfold VectorAdd.verify_results. rewrite verify_scan_spec. simpl.
  destruct (List.filter _ _); [right|left]; reflexivity.
Qed.

Lemma vector_verify_and_exit n w cs cp m1 m2 :
  let r := VectorAdd.verify_and_exit n w cs cp m1 m2 in
  (VectorAdd.exit_code r = 0%Z <-> VectorAdd.verify_results cs cp n 1e-9 = 1%Z) /\
  (VectorAdd.exit_code r = 1%Z <-> VectorAdd.verify_results cs cp n 1e-9 = 0%Z) /\
  clock_calls (VectorAdd.final r) = clock_calls w.
Proof.
  unfold VectorAdd.verify_and_exit.
  destruct (vector_verify_results_01 cs cp n 1e-9) as [E|E]; rewrite E; simpl;
    repeat split; intros; try reflexivity; try discriminate.
Qed.

(** [main] of vector_add.c with its four buffers allocated ends in
    [verify_and_exit]. *)
Lemma vector_main_verifies n os a b cs cp init_sched add_sched :
  exists w cs' cp' m1 m2,
    VectorAdd.main n os (Some a) (Some b) (Some cs) (Some cp) init_sched add_sched
    = VectorAdd.verify_and_exit n w cs' cp' m1 m2.
Proof.
  unfold VectorAdd.main.
  destruct (omp_parallel_for init_sched _ (a, b)) as [a' b'].
  eexists _, _, _, _, _. reflexivity.
Qed.

Lemma vector_verify_and_exit_reported n w cs cp m1 m2 :
  option_map VectorAdd.verified
    (VectorAdd.reported (VectorAdd.verify_and_exit n w cs cp m1 m2))
  = Some (VectorAdd.verify_results cs cp n 1e-9).
Proof.
  unfold VectorAdd.verify_and_exit. destruct (_ =? 0)%Z; reflexivity.
Qed.

(** C5, as the code has it.  vector_add.c exits with 0 or 1, and with 0 iff
    its four allocations succeed and its verification passes.  matmul.c exits
    with 1 when one of its five allocations fails, and with 0 when all
    succeed and both verifications find no error.  In both programs an
    allocation failure writes "Memory allocation failed" to standard error
    and nothing else happens: no clock has been read.  stream.c allocates
    nothing at run time, and whatever it returns has exit code 0, whatever
    its validation reports. *)
Theorem exit_codes (n : nat) (os : clocks)
    (mA mB mCs mCp mCc : option (list double))
    (rows : nat -> list nat) (cells : nat -> list (nat * nat)) (sched : list nat)
    (cfg : Stream.config) (sch : Stream.schedules) (fuel : nat) :
  let rv := VectorAdd.main n os mA mB mCs mCp sched rows in
  let rm := Matmul.main n os mA mB mCs mCp mCc rows cells in
  ((VectorAdd.exit_code rv = 0%Z \/ VectorAdd.exit_code rv = 1%Z) /\
   (VectorAdd.exit_code rv = 0%Z <->
    (is_Some mA /\ is_Some mB /\ is_Some mCs /\ is_Some mCp) /\
    option_map VectorAdd.verified (VectorAdd.reported rv) = Some 1%Z) /\
   (mA = None \/ mB = None \/ mCs = None \/ mCp = None ->
    rv = VectorAdd.Run 1 (World 0 [Stderr "Memory allocation failed"]) None)) /\
  ((mA = None \/ mB = None \/ mCs = None \/ mCp = None \/ mCc = None ->
    rm = Matmul.Run 1 (World 0 [Stderr "Memory allocation failed"]) None) /\
   (is_Some mA /\ is_Some mB /\ is_Some mCs /\ is_Some mCp /\ is_Some mCc ->
    option_map (fun r => (Matmul.errors_parallel r, Matmul.errors_collapse r))
      (Matmul.reported rm) = Some (0, 0) ->
    Matmul.exit_code rm = 0%Z)) /\
  ((forall r, Stream.main cfg os sch fuel = Stream.Done r ->
              Stream.exit_code r = 0%Z) /\
   (forall q st, Stream.exit_code (Stream.report_and_exit cfg q st) = 0%Z)).
Proof.
  intros rv rm. split; [|split].
  - assert (Hfail : mA = None \/ mB = None \/ mCs = None \/ mCp = None ->
                    rv = allocation_failure_run_vector)
      by apply vector_main_allocation.
    split; [|split; [|exact Hfail]].
    + destruct mA as [a|], mB as [b|], mCs as [cs|], mCp as [cp|];
        try (right; reflexivity).
      destruct (vector_main_verifies n os a b cs cp sched rows)
        as (w & cs' & cp' & m1 & m2 & E).
      unfold rv. rewrite E. unfold VectorAdd.verify_and_exit.
      destruct (_ =? 0)%Z; [right|left]; reflexivity.
    + destruct mA as [a|], mB as [b|], mCs as [cs|], mCp as [cp|];
        try (split; [discriminate|intros ((H1 & H2 & H3 & H4) & _);
             first [destruct H1 as [? H1]; discriminate
                   |destruct H2 as [? H2]; discriminate
                   |destruct H3 as [? H3]; discriminate
                   |destruct H4 as [? H4]; discriminate]]).
      destruct (vector_main_verifies n os a b cs cp sched rows)
        as (w & cs' & cp' & m1 & m2 & E).
      unfold rv. rewrite E, vector_verify_and_exit_reported.
      destruct (vector_verify_and_exit n w cs' cp' m1 m2) as (H0 & _).
      rewrite H0. split.
      * intros H. split; [repeat split; eexists; reflexivity|]. rewrite H. reflexivity.
      * intros (_ & H). inversion H. reflexivity.
  - split; [apply matmul_main_allocation|].
    intros (H1 & H2 & H3 & H4 & H5) _.
    destruct H1 as [A ->], H2 as [B ->], H3 as [Cs ->], H4 as [Cp ->], H5 as [Cc ->].
    apply matmul_main_exit.
  - split; [|reflexivity].
    intros r Hr. destruct (stream_main_result cfg os sch fuel r Hr) as (q & w & -> & _).
    reflexivity.
Qed.

(** Where the claim fails: when the arrays STREAM checks at its end hold one
    wrong element ([a[2]] off by 1 after 10 trials), the validation reports
    the failure of [a], and [main] still returns 0. *)
Lemma stream_exits_zero_on_failed_validation :
  Stream.err
    (Stream.validated
       (Stream.report_and_exit Sample.cfg410 1
          (Stream.LoopState (Sample.perturb 1) [] start))) = 1 /\
  output
    (Stream.final_world
       (Stream.report_and_exit Sample.cfg410 1
          (Stream.LoopState (Sample.perturb 1) [] start)))
  = [Stdout "Failed Validation on array a"] /\
  Stream.exit_code
    (Stream.report_and_exit Sample.cfg410 1
       (Stream.LoopState (Sample.perturb 1) [] start)) = 0%Z.
Proof. vm_compute. repeat split; reflexivity. Qed.

End Mains.

(** ** Binary64 rounding is monotone

    What the conversion of a clock reading to seconds needs: rounding to
    nearest keeps the order of the exact values, an integer below 2^53 is
    exact, and sums and products of non-negative doubles are the rounded
    exact sums and products. *)

Section Rounding.
Import C Round.
#[local] Open Scope Z_scope.

#[local] Abbreviation Fexp := (fexp prec emax).

(** *** Digits *)

Lemma digits2_pos_size (p : positive) : digits2_pos p = Pos.size p.
Proof. induction p; simpl; congruence. Qed.

Lemma digits_bounds (p : positive) :
  2 ^ (Zpos (digits2_pos p) - 1) <= Zpos p < 2 ^ Zpos (digits2_pos p).
Proof.
  rewrite digits2_pos_size. split.
  - pose proof (Pos.size_le p) as H.
    apply Pos2Z.pos_le_pos in H. rewrite Pos2Z.inj_pow in H.
    replace (Zpos (Pos.size p)) with (Zpos (Pos.size p) - 1 + 1) in H by lia.
    rewrite Z.pow_add_r in H by lia. change (Zpos p~0) with (2 * Zpos p) in H. lia.
  - pose proof (Pos.size_gt p) as H.
    apply Pos2Z.pos_lt_pos in H. rewrite Pos2Z.inj_pow in H. exact H.
Qed.

Lemma Zdigits2_bounds (m : Z) :
  0 < m -> 2 ^ (Zdigits2 m - 1) <= m < 2 ^ Zdigits2 m.
Proof. destruct m; try lia. intros _. apply digits_bounds. Qed.

Lemma Zdigits2_pos (m : Z) : 0 < m -> 0 < Zdigits2 m.
Proof. destruct m; simpl; lia. Qed.

Lemma Zdigits2_unique (m d : Z) :
  2 ^ (d - 1) <= m < 2 ^ d -> 0 < d -> Zdigits2 m = d.
Proof.
  intros H Hd. assert (Hm : 0 < m).
  { assert (0 < 2 ^ (d - 1)) by (apply Z.pow_pos_nonneg; lia). lia. }
  pose proof (Zdigits2_bounds m Hm) as B. pose proof (Zdigits2_pos m Hm) as P.
  destruct (Z.lt_trichotomy (Zdigits2 m) d) as [L|[E|G]]; [|exact E|].
  - assert (2 ^ Zdigits2 m <= 2 ^ (d - 1)) by (apply Z.pow_le_mono_r; lia). lia.
  - assert (2 ^ d <= 2 ^ (Zdigits2 m - 1)) by (apply Z.pow_le_mono_r; lia). lia.
Qed.

Lemma Zdigits2_mono (m1 m2 : Z) : 0 < m1 <= m2 -> Zdigits2 m1 <= Zdigits2 m2.
Proof.
  intros H. pose proof (Zdigits2_bounds m1 ltac:(lia)) as B1.
  pose proof (Zdigits2_bounds m2 ltac:(lia)) as B2.
  destruct (Z.le_gt_cases (Zdigits2 m1) (Zdigits2 m2)) as [L|G]; [exact L|].
  assert (2 ^ Zdigits2 m2 <= 2 ^ (Zdigits2 m1 - 1)) by (apply Z.pow_le_mono_r; lia).
  lia.
Qed.

Lemma Zdigits2_shift (m k : Z) : 0 < m -> 0 <= k -> Zdigits2 (m * 2 ^ k) = Zdigits2 m + k.
Proof.
  intros Hm Hk. pose proof (Zdigits2_bounds m Hm) as B.
  pose proof (Zdigits2_pos m Hm) as P.
  apply Zdigits2_unique; [|lia].
  replace (Zdigits2 m + k - 1) with (Zdigits2 m - 1 + k) by lia.
  rewrite !Z.pow_add_r by lia.
  assert (0 < 2 ^ k) by (apply Z.pow_pos_nonneg; lia). nia.
Qed.

(** *** Shifting right with round and sticky bits *)

Lemma shr_1_nonneg (m : Z) (r s : bool) :
  0 <= m ->
  shr_1 (Build_shr_record m r s) = Build_shr_record (m / 2) (Z.odd m) (r || s).
Proof.
  intros Hm. rewrite <- Z.div2_div.
  destruct m as [|[p|p|]|]; try lia; reflexivity.
Qed.

Lemma iter_pos_iter {A : Type} (f : A -> A) (p : positive) (x : A) :
  SpecFloat.iter_pos f p x = Pos.iter f x p.
Proof.
  revert x. induction p as [p IH|p IH|]; intros x; simpl.
  - rewrite !IH, Pos.iter_swap. rewrite <- (Pos.iter_swap p A f (Pos.iter f x p)).
    rewrite <- Pos.iter_swap. reflexivity.
  - rewrite !IH. reflexivity.
  - reflexivity.
Qed.

Lemma mod_pow2_split (m n : Z) :
  0 <= n ->
  m mod 2 ^ (n + 1) = m mod 2 ^ n + 2 ^ n * ((m / 2 ^ n) mod 2).
Proof.
  intros Hn. rewrite Z.pow_add_r by lia. change (2 ^ 1) with 2.
  apply Z.rem_mul_r; [|lia].
  assert (0 < 2 ^ n) by (apply Z.pow_pos_nonneg; lia). lia.
Qed.

Lemma shr_spec_step (m n : Z) :
  0 <= m -> 1 <= n ->
  shr_1 (shr_spec m n) = shr_spec m (n + 1).
Proof.
  intros Hm Hn. unfold shr_spec.
  assert (P : 0 < 2 ^ n) by (apply Z.pow_pos_nonneg; lia).
  assert (P' : 0 < 2 ^ (n - 1)) by (apply Z.pow_pos_nonneg; lia).
  rewrite shr_1_nonneg by (apply Z.div_pos; lia).
  replace (n + 1 - 1) with n by lia.
  f_equal.
  - rewrite Z.div_div by lia. f_equal. rewrite Z.pow_add_r by lia. reflexivity.
  - rewrite mod_pow2_split by lia. rewrite Zmod_odd.
    pose proof (Z.mod_pos_bound m (2 ^ n) P).
    destruct (Z.odd (m / 2 ^ n)).
    + symmetry. apply Z.leb_le. lia.
    + symmetry. apply Z.leb_gt. lia.
  - pose proof (mod_pow2_split m (n - 1) ltac:(lia)) as E.
    replace (n - 1 + 1) with n in E by lia.
    pose proof (Z.mod_pos_bound m (2 ^ (n - 1)) P').
    pose proof (Z.mod_pos_bound (m / 2 ^ (n - 1)) 2 ltac:(lia)).
    assert (B : (m / 2 ^ (n - 1)) mod 2 = 0 \/ (m / 2 ^ (n - 1)) mod 2 = 1) by lia.
    destruct B as [B|B]; rewrite B in E;
      destruct (Z.leb_spec (2 ^ (n - 1)) (m mod 2 ^ n));
      destruct (Z.eqb_spec (m mod 2 ^ (n - 1)) 0);
      destruct (Z.eqb_spec (m mod 2 ^ n) 0); simpl; try reflexivity; lia.
Qed.

Lemma iter_shr (m : Z) (p : positive) :
  0 <= m ->
  SpecFloat.iter_pos shr_1 p (Build_shr_record m false false) = shr_spec m (Zpos p).
Proof.
  intros Hm. rewrite iter_pos_iter.
  induction p as [|p IH] using Pos.peano_ind.
  - cbn [Pos.iter]. rewrite shr_1_nonneg by exact Hm. unfold shr_spec. f_equal.
    + change (2 ^ 1) with 2. change (2 ^ (1 - 1)) with 1.
      rewrite Zmod_odd. destruct (Z.odd m); reflexivity.
    + change (2 ^ (1 - 1)) with 1. rewrite Z.mod_1_r. reflexivity.
  - rewrite Pos.iter_succ, IH, Pos2Z.inj_succ.
    apply shr_spec_step; lia.
Qed.

(** *** Rounding to nearest, ties to even, of [m / 2^n] *)

Lemma rne_spec (m n : Z) :
  0 <= m -> 1 <= n ->
  round_nearest_even (shr_m (shr_spec m n)) (loc_of_shr_record (shr_spec m n))
  = rne m n.
Proof.
  intros Hm Hn. unfold shr_spec, rne. cbn [shr_m loc_of_shr_record].
  assert (P' : 0 < 2 ^ (n - 1)) by (apply Z.pow_pos_nonneg; lia).
  pose proof (mod_pow2_split m (n - 1) ltac:(lia)) as E.
  replace (n - 1 + 1) with n in E by lia.
  pose proof (Z.mod_pos_bound m (2 ^ (n - 1)) P').
  pose proof (Z.mod_pos_bound (m / 2 ^ (n - 1)) 2 ltac:(lia)).
  assert (B : (m / 2 ^ (n - 1)) mod 2 = 0 \/ (m / 2 ^ (n - 1)) mod 2 = 1) by lia.
  destruct B as [B|B]; rewrite B in E;
    destruct (Z.leb_spec (2 ^ (n - 1)) (m mod 2 ^ n));
    destruct (Z.eqb_spec (m mod 2 ^ (n - 1)) 0);
    destruct (Z.ltb_spec (m mod 2 ^ n) (2 ^ (n - 1)));
    destruct (Z.eqb_spec (m mod 2 ^ n) (2 ^ (n - 1)));
    simpl; try reflexivity; lia.
Qed.

Lemma rne_bounds (m n : Z) : m / 2 ^ n <= rne m n <= m / 2 ^ n + 1.
Proof.
  unfold rne. destruct (_ <? _); [lia|]. destruct (_ =? _); [|lia].
  destruct (Z.even _); lia.
Qed.

Lemma rne_mono (m1 m2 n : Z) :
  0 <= m1 <= m2 -> 1 <= n -> rne m1 n <= rne m2 n.
Proof.
  intros Hm Hn.
  assert (P : 0 < 2 ^ n) by (apply Z.pow_pos_nonneg; lia).
  assert (Hq : m1 / 2 ^ n <= m2 / 2 ^ n) by (apply Z.div_le_mono; lia).
  destruct (Z.eq_dec (m1 / 2 ^ n) (m2 / 2 ^ n)) as [E|N].
  - pose proof (Z.div_mod m1 (2 ^ n) ltac:(lia)) as D1.
    pose proof (Z.div_mod m2 (2 ^ n) ltac:(lia)) as D2.
    assert (Hr : m1 mod 2 ^ n <= m2 mod 2 ^ n) by (rewrite E in D1; lia).
    unfold rne. rewrite E.
    destruct (Z.ltb_spec (m1 mod 2 ^ n) (2 ^ (n - 1)));
      destruct (Z.ltb_spec (m2 mod 2 ^ n) (2 ^ (n - 1)));
      destruct (Z.eqb_spec (m1 mod 2 ^ n) (2 ^ (n - 1)));
      destruct (Z.eqb_spec (m2 mod 2 ^ n) (2 ^ (n - 1)));
      destruct (Z.even (m2 / 2 ^ n)); lia.
  - pose proof (rne_bounds m1 n). pose proof (rne_bounds m2 n). lia.
Qed.

Lemma rne_exact (m n : Z) : 1 <= n -> m mod 2 ^ n = 0 -> rne m n = m / 2 ^ n.
Proof.
  intros Hn H. unfold rne. rewrite H.
  assert (P' : 0 < 2 ^ (n - 1)) by (apply Z.pow_pos_nonneg; lia).
  destruct (Z.ltb_spec 0 (2 ^ (n - 1))); [reflexivity|lia].
Qed.

(** *** [binary_round_aux] on an exact input *)

Lemma Fexp_eq (x : Z) : Fexp x = Z.max (x - 53) (-1074).
Proof. reflexivity. Qed.

Lemma aux_eq (s : bool) (m e : Z) :
  0 <= m ->
  binary_round_aux prec emax s m e loc_Exact
  = let (m1, e1) := stage1 m e in
    let (m2, e2) := stage2 m1 e1 in
    aux_out s m2 e2.
Proof.
  intros Hm. unfold binary_round_aux, shr_fexp, stage1, stage2.
  cbn [shr_record_of_loc].
  set (n := Fexp (Zdigits2 m + e) - e).
  assert (H1 : shr (Build_shr_record m false false) e n
               = (if 0 <? n then shr_spec m n
                  else Build_shr_record m false false,
                  if 0 <? n then e + n else e)).
  { unfold shr. destruct n as [|p|p]; try reflexivity.
    rewrite iter_shr by exact Hm. reflexivity. }
  rewrite H1.
  set (m1 := round_nearest_even _ _).
  assert (E1 : m1 = if 0 <? n then rne m n else m).
  { unfold m1. destruct (Z.ltb_spec 0 n).
    - apply rne_spec; lia.
    - reflexivity. }
  assert (Hm1 : 0 <= m1).
  { rewrite E1. destruct (Z.ltb_spec 0 n); [|exact Hm].
    pose proof (rne_bounds m n).
    assert (0 <= m / 2 ^ n) by (apply Z.div_pos; [lia|apply Z.pow_pos_nonneg; lia]).
    lia. }
  clearbody m1.
  set (e1 := if 0 <? n then e + n else e).
  replace (if 0 <? n then (rne m n, e + n) else (m, e)) with (m1, e1)
    by (unfold e1; rewrite E1; destruct (0 <? n); reflexivity).
  set (n2 := Fexp (Zdigits2 m1 + e1) - e1).
  assert (H2 : shr (Build_shr_record m1 false false) e1 n2
               = (if 0 <? n2 then shr_spec m1 n2
                  else Build_shr_record m1 false false,
                  if 0 <? n2 then e1 + n2 else e1)).
  { unfold shr. destruct n2 as [|p|p]; try reflexivity.
    rewrite iter_shr by exact Hm1. reflexivity. }
  rewrite H2. destruct (0 <? n2); reflexivity.
Qed.

Lemma rounded_bounds (m e : Z) :
  0 < m -> e <= Fexp (Zdigits2 m + e) ->
  0 <= rounded m e <= 2 ^ 53 /\
  (-1074 < Fexp (Zdigits2 m + e) -> 2 ^ 52 <= rounded m e).
Proof.
  intros Hm He. unfold rounded.
  pose proof (Zdigits2_bounds m Hm) as B. pose proof (Zdigits2_pos m Hm) as P.
  set (d := Zdigits2 m) in *. set (E := Fexp (d + e)) in *.
  assert (HE : E = Z.max (d + e - 53) (-1074)) by reflexivity.
  destruct (Z.ltb_spec e E) as [Hlt|Hge].
  - set (n := E - e). assert (Hn : 1 <= n) by (unfold n; lia).
    assert (Pn : 0 < 2 ^ n) by (apply Z.pow_pos_nonneg; lia).
    pose proof (rne_bounds m n) as Rb.
    assert (Hq0 : 0 <= m / 2 ^ n) by (apply Z.div_pos; lia).
    assert (Hup : m / 2 ^ n < 2 ^ 53).
    { apply Z.div_lt_upper_bound; [lia|]. rewrite <- Z.pow_add_r by lia.
      assert (2 ^ d <= 2 ^ (n + 53)) by (apply Z.pow_le_mono_r; lia). lia. }
    split; [lia|]. intros Hnorm.
    assert (2 ^ 52 <= m / 2 ^ n); [|lia].
    apply Z.div_le_lower_bound; [lia|]. rewrite <- Z.pow_add_r by lia.
    assert (2 ^ (n + 52) <= 2 ^ (d - 1)) by (apply Z.pow_le_mono_r; lia). lia.
  - assert (Hd : d <= 53) by lia. split.
    + assert (2 ^ d <= 2 ^ 53) by (apply Z.pow_le_mono_r; lia). lia.
    + intros Hnorm. assert (d = 53) by lia.
      replace (d - 1) with 52 in B by lia. lia.
Qed.

Lemma stage2_norm (s : bool) (r E : Z) :
  0 <= r <= 2 ^ 53 -> -1074 <= E ->
  (let (m2, e2) := stage2 r E in aux_out s m2 e2) = norm s r E.
Proof.
  intros Hr HE. unfold stage2, norm.
  destruct (Z.eqb_spec r (2 ^ 53)) as [->|Hne].
  - change (Zdigits2 (2 ^ 53)) with 54. rewrite Fexp_eq.
    replace (Z.max (54 + E - 53) (-1074) - E) with 1 by lia.
    replace (E + 1) with (E + 1) by lia. reflexivity.
  - destruct (Z.eq_dec r 0) as [->|Hr0].
    + change (Zdigits2 0) with 0. rewrite Fexp_eq.
      destruct (Z.ltb_spec 0 (Z.max (0 + E - 53) (-1074) - E)); [lia|reflexivity].
    + assert (Hd : Zdigits2 r <= 53).
      { pose proof (Zdigits2_bounds r ltac:(lia)) as B.
        destruct (Z.le_gt_cases (Zdigits2 r) 53) as [L|G]; [exact L|].
        assert (2 ^ 53 <= 2 ^ (Zdigits2 r - 1)) by (apply Z.pow_le_mono_r; lia).
        lia. }
      rewrite Fexp_eq.
      destruct (Z.ltb_spec 0 (Z.max (Zdigits2 r + E - 53) (-1074) - E));
        [lia|reflexivity].
Qed.

Lemma aux_regime (s : bool) (m e : Z) :
  0 < m -> e <= Fexp (Zdigits2 m + e) ->
  binary_round_aux prec emax s m e loc_Exact
  = norm s (rounded m e) (Fexp (Zdigits2 m + e)).
Proof.
  intros Hm He. rewrite aux_eq by lia.
  destruct (rounded_bounds m e Hm He) as [Hb _].
  assert (E1 : stage1 m e = (rounded m e, Fexp (Zdigits2 m + e))).
  { unfold stage1, rounded.
    destruct (Z.ltb_spec 0 (Fexp (Zdigits2 m + e) - e));
      destruct (Z.ltb_spec e (Fexp (Zdigits2 m + e))); try lia; f_equal; lia. }
  rewrite E1. apply stage2_norm; [exact Hb|]. rewrite Fexp_eq. lia.
Qed.

(** *** Comparing results *)

Lemma aux_out_leb (m1 e1 m2 e2 : Z) :
  0 <= m1 -> 0 <= m2 ->
  m1 = 0 \/ (0 < m2 /\ (e1 < e2 \/ (e1 = e2 /\ m1 <= m2))) ->
  SFleb (aux_out false m1 e1) (aux_out false m2 e2) = true.
Proof.
  intros H1 H2 H. unfold aux_out, SFleb.
  destruct m1 as [|p1|p1], m2 as [|p2|p2]; try lia;
    try (destruct (Z.leb_spec e2 (emax - prec)); reflexivity).
  destruct H as [H|(_ & H)]; [discriminate|].
  destruct (Z.leb_spec e1 (emax - prec)); destruct (Z.leb_spec e2 (emax - prec));
      try reflexivity; try lia.
    simpl. destruct (Z.compare_spec e1 e2); try reflexivity; try lia.
    change (Pos.compare_cont Eq p1 p2) with (Pos.compare p1 p2).
    destruct (Pos.compare_spec p1 p2); try reflexivity. lia.
Qed.

Lemma norm_leb (r1 E1 r2 E2 : Z) :
  0 <= r1 <= 2 ^ 53 -> 0 <= r2 <= 2 ^ 53 ->
  r1 = 0 \/ (0 < r2 /\ ((E1 < E2 /\ 2 ^ 52 <= r2) \/ (E1 = E2 /\ r1 <= r2))) ->
  SFleb (norm false r1 E1) (norm false r2 E2) = true.
Proof.
  intros H1 H2 H. unfold norm.
  change (2 ^ 53) with 9007199254740992 in *.
  change (2 ^ 52) with 4503599627370496 in *.
  destruct (Z.eqb_spec r1 9007199254740992) as [R1|R1];
    destruct (Z.eqb_spec r2 9007199254740992) as [R2|R2];
    apply aux_out_leb; lia.
Qed.

Lemma Fexp_mono (x y : Z) : x <= y -> Fexp x <= Fexp y.
Proof. rewrite !Fexp_eq. lia. Qed.

(** Rounding at a fixed exponent is monotone. *)
Lemma aux_mono (m1 m2 e : Z) :
  0 < m1 <= m2 -> e <= Fexp (Zdigits2 m1 + e) ->
  SFleb (binary_round_aux prec emax false m1 e loc_Exact)
        (binary_round_aux prec emax false m2 e loc_Exact) = true.
Proof.
  intros Hm He.
  pose proof (Zdigits2_mono m1 m2 Hm) as Hd.
  pose proof (Fexp_mono (Zdigits2 m1 + e) (Zdigits2 m2 + e) ltac:(lia)) as HE.
  rewrite !aux_regime by lia.
  destruct (rounded_bounds m1 e ltac:(lia) He) as [B1 N1].
  destruct (rounded_bounds m2 e ltac:(lia) ltac:(lia)) as [B2 N2].
  apply norm_leb; try assumption.
  destruct (Z.eq_dec (rounded m1 e) 0) as [Z1|NZ1]; [left; exact Z1|right].
  destruct (Z.eq_dec (Fexp (Zdigits2 m1 + e)) (Fexp (Zdigits2 m2 + e))) as [EE|NE].
  - assert (Rb : rounded m1 e <= rounded m2 e).
    { unfold rounded. rewrite <- EE.
      destruct (Z.ltb_spec e (Fexp (Zdigits2 m1 + e))); [|lia].
      apply rne_mono; lia. }
    split; [lia|]. right. split; [exact EE|exact Rb].
  - assert (L : Fexp (Zdigits2 m1 + e) < Fexp (Zdigits2 m2 + e)) by lia.
    assert (-1074 < Fexp (Zdigits2 m2 + e)).
    { pose proof (Fexp_eq (Zdigits2 m1 + e)). lia. }
    specialize (N2 ltac:(assumption)).
    split; [lia|]. left. split; [exact L|exact N2].
Qed.

(** *** Scaling the mantissa *)

Lemma rne_scale (m n k : Z) :
  0 <= m -> 1 <= n -> 0 <= k -> rne (m * 2 ^ k) (n + k) = rne m n.
Proof.
  intros Hm Hn Hk. unfold rne.
  assert (Pk : 0 < 2 ^ k) by (apply Z.pow_pos_nonneg; lia).
  assert (Pn : 0 < 2 ^ n) by (apply Z.pow_pos_nonneg; lia).
  assert (Ph : 0 < 2 ^ (n - 1)) by (apply Z.pow_pos_nonneg; lia).
  replace (n + k - 1) with (n - 1 + k) by lia.
  rewrite !Z.pow_add_r by lia.
  rewrite Z.div_mul_cancel_r by lia.
  rewrite Zmult_mod_distr_r.
  set (q := m / 2 ^ n). set (r := m mod 2 ^ n). set (h := 2 ^ (n - 1)).
  destruct (Z.ltb_spec r h); destruct (Z.ltb_spec (r * 2 ^ k) (h * 2 ^ k));
    try nia; try reflexivity.
  destruct (Z.eqb_spec r h); destruct (Z.eqb_spec (r * 2 ^ k) (h * 2 ^ k));
    try nia; reflexivity.
Qed.

Lemma rne_shifted (m k : Z) : 0 <= m -> 1 <= k -> rne (m * 2 ^ k) k = m.
Proof.
  intros Hm Hk.
  assert (Pk : 0 < 2 ^ k) by (apply Z.pow_pos_nonneg; lia).
  rewrite rne_exact; [apply Z.div_mul; lia|exact Hk|apply Z.mod_mul; lia].
Qed.

Lemma rounded_scale (m e k : Z) :
  0 < m -> 0 <= k -> e <= Fexp (Zdigits2 m + e) ->
  rounded (m * 2 ^ k) (e - k) = rounded m e.
Proof.
  intros Hm Hk He. unfold rounded.
  rewrite Zdigits2_shift by lia.
  replace (Zdigits2 m + k + (e - k)) with (Zdigits2 m + e) by lia.
  set (E := Fexp (Zdigits2 m + e)) in *.
  destruct (Z.ltb_spec (e - k) E) as [L|G]; destruct (Z.ltb_spec e E) as [L'|G'];
    try lia.
  - replace (E - (e - k)) with (E - e + k) by lia. apply rne_scale; lia.
  - replace (E - (e - k)) with k by lia. apply rne_shifted; lia.
  - replace k with 0 by lia. change (2 ^ 0) with 1. lia.
Qed.

Lemma iter_xO (p d : positive) : Zpos (Pos.iter xO p d) = Zpos p * 2 ^ Zpos d.
Proof.
  induction d as [|d IH] using Pos.peano_ind.
  - cbn [Pos.iter]. change (2 ^ 1) with 2. lia.
  - rewrite Pos.iter_succ, Pos2Z.inj_succ, Z.pow_succ_r by lia.
    rewrite Pos2Z.inj_xO, IH. lia.
Qed.

Lemma shl_align_spec (p : positive) (e e' : Z) :
  snd (shl_align p e e') = Z.min e e' /\
  Zpos (fst (shl_align p e e')) = Zpos p * 2 ^ (e - Z.min e e').
Proof.
  unfold shl_align. destruct (e' - e) as [|d|d] eqn:D; cbn [fst snd].
  - replace (Z.min e e') with e by lia. rewrite Z.sub_diag. lia.
  - replace (Z.min e e') with e by lia. rewrite Z.sub_diag. lia.
  - replace (Z.min e e') with e' by lia. split; [reflexivity|].
    rewrite iter_xO. f_equal. f_equal. lia.
Qed.

(** *** Rounding a non-negative dyadic number [m * 2^e] *)

Lemma nearest_aux (m e e0 : Z) :
  0 < m -> e0 <= e -> e0 <= Fexp (Zdigits2 m + e) ->
  nearest m e = binary_round_aux prec emax false (m * 2 ^ (e - e0)) e0 loc_Exact.
Proof.
  intros Hm H0 HE. destruct m as [|p|p]; try lia.
  unfold nearest, binary_normalize, binary_round.
  change (Zpos (digits2_pos p)) with (Zdigits2 (Zpos p)).
  set (E := Fexp (Zdigits2 (Zpos p) + e)) in *.
  destruct (shl_align_spec p e E) as [Hs Hf].
  destruct (shl_align p e E) as [q f]. cbn [fst snd] in Hs, Hf. subst f.
  set (f := Z.min e E) in *.
  assert (Df : Zdigits2 (Zpos q) + f = Zdigits2 (Zpos p) + e).
  { rewrite Hf, Zdigits2_shift by lia. lia. }
  assert (D0 : Zdigits2 (Zpos p * 2 ^ (e - e0)) + e0 = Zdigits2 (Zpos p) + e).
  { rewrite Zdigits2_shift by lia. lia. }
  rewrite !aux_regime.
  - rewrite Df, D0. f_equal.
    replace (Zpos p * 2 ^ (e - e0)) with (Zpos q * 2 ^ (f - e0)).
    + replace e0 with (f - (f - e0)) at 2 by lia.
      symmetry. apply rounded_scale; [lia|lia|]. rewrite Df. lia.
    + rewrite Hf, <- Z.mul_assoc, <- Z.pow_add_r by lia. f_equal. f_equal. lia.
  - assert (0 < 2 ^ (e - e0)) by (apply Z.pow_pos_nonneg; lia). lia.
  - rewrite D0. exact HE.
  - lia.
  - rewrite Df. lia.
Qed.

Lemma aux_out_mk (m e : Z) : e <= 971 -> aux_out false m e = mk m e.
Proof.
  intros He. unfold aux_out, mk. destruct m; try reflexivity.
  change (emax - prec) with 971. destruct (Z.leb_spec e 971); [reflexivity|lia].
Qed.

Lemma nearest_zero (e : Z) : nearest 0 e = mk 0 (-1074).
Proof. reflexivity. Qed.

Lemma nearest_norm (m e : Z) :
  0 < m ->
  nearest m e = norm false (rounded (m * 2 ^ (e - Z.min e (-1074))) (Z.min e (-1074)))
            (Fexp (Zdigits2 m + e)).
Proof.
  intros Hm. set (e0 := Z.min e (-1074)).
  pose proof (Fexp_eq (Zdigits2 m + e)) as HE.
  rewrite (nearest_aux m e e0) by (unfold e0; lia).
  assert (0 < 2 ^ (e - e0)) by (apply Z.pow_pos_nonneg; unfold e0; lia).
  rewrite aux_regime.
  - rewrite Zdigits2_shift by (unfold e0; lia).
    replace (Zdigits2 m + (e - e0) + e0) with (Zdigits2 m + e) by lia. reflexivity.
  - lia.
  - rewrite Zdigits2_shift by (unfold e0; lia).
    replace (Zdigits2 m + (e - e0) + e0) with (Zdigits2 m + e) by lia.
    unfold e0. lia.
Qed.

(** Rounding is monotone. *)
Lemma nearest_mono (m1 e1 m2 e2 B : Z) :
  0 <= m1 -> 0 <= m2 -> B <= e1 -> B <= e2 ->
  m1 * 2 ^ (e1 - B) <= m2 * 2 ^ (e2 - B) ->
  SFleb (nearest m1 e1) (nearest m2 e2) = true.
Proof.
  intros H1 H2 B1 B2 H.
  assert (P1 : 0 < 2 ^ (e1 - B)) by (apply Z.pow_pos_nonneg; lia).
  assert (P2 : 0 < 2 ^ (e2 - B)) by (apply Z.pow_pos_nonneg; lia).
  destruct (Z.eq_dec m1 0) as [->|N1].
  - destruct (Z.eq_dec m2 0) as [->|N2]; [reflexivity|].
    rewrite (nearest_norm m2) by lia. change (nearest 0 e1) with (norm false 0 0).
    apply norm_leb; [change (2 ^ 53) with 9007199254740992; lia| |left; reflexivity].
    assert (0 < 2 ^ (e2 - Z.min e2 (-1074))) by (apply Z.pow_pos_nonneg; lia).
    apply rounded_bounds; [nia|].
    rewrite Zdigits2_shift by lia. rewrite Fexp_eq. lia.
  - assert (0 < m2) by nia.
    set (e0 := Z.min B (-1074)).
    pose proof (Fexp_eq (Zdigits2 m1 + e1)) as HE1.
    pose proof (Fexp_eq (Zdigits2 m2 + e2)) as HE2.
    rewrite (nearest_aux m1 e1 e0), (nearest_aux m2 e2 e0) by (unfold e0; lia).
    assert (P0 : 0 < 2 ^ (B - e0)) by (apply Z.pow_pos_nonneg; unfold e0; lia).
    assert (S1 : m1 * 2 ^ (e1 - e0) = m1 * 2 ^ (e1 - B) * 2 ^ (B - e0)).
    { rewrite <- Z.mul_assoc, <- Z.pow_add_r by (unfold e0; lia).
      f_equal. f_equal. lia. }
    assert (S2 : m2 * 2 ^ (e2 - e0) = m2 * 2 ^ (e2 - B) * 2 ^ (B - e0)).
    { rewrite <- Z.mul_assoc, <- Z.pow_add_r by (unfold e0; lia).
      f_equal. f_equal. lia. }
    apply aux_mono.
    + rewrite S1, S2. nia.
    + rewrite Zdigits2_shift by (unfold e0; lia).
      replace (Zdigits2 m1 + (e1 - e0) + e0) with (Zdigits2 m1 + e1) by lia.
      unfold e0. lia.
Qed.

(** Below the overflow threshold the result is a canonical finite float. *)
Lemma nearest_canon (m e : Z) :
  0 <= m -> Zdigits2 m + e <= 1023 ->
  exists r E, nearest m e = mk r E /\ canon r E.
Proof.
  intros Hm Hd. destruct (Z.eq_dec m 0) as [->|N].
  - exists 0, (-1074). split; [reflexivity|]. unfold canon. lia.
  - rewrite nearest_norm by lia.
    set (e0 := Z.min e (-1074)). set (m0 := m * 2 ^ (e - e0)).
    assert (P0 : 0 < 2 ^ (e - e0)) by (apply Z.pow_pos_nonneg; unfold e0; lia).
    assert (D0 : Zdigits2 m0 + e0 = Zdigits2 m + e).
    { unfold m0. rewrite Zdigits2_shift by (unfold e0; lia). lia. }
    pose proof (Fexp_eq (Zdigits2 m + e)) as HE.
    destruct (rounded_bounds m0 e0) as [Hb Hn].
    { unfold m0. nia. }
    { rewrite D0. unfold e0. lia. }
    rewrite D0 in Hn. set (E := Fexp (Zdigits2 m + e)) in *.
    set (r := rounded m0 e0) in *. unfold norm.
    change (2 ^ 53) with 9007199254740992 in *.
    change (2 ^ 52) with 4503599627370496 in *.
    destruct (Z.eqb_spec r 9007199254740992) as [Hr|Hr].
    + exists 4503599627370496, (E + 1). split; [apply aux_out_mk; lia|].
      unfold canon. change (2 ^ 53) with 9007199254740992.
      change (2 ^ 52) with 4503599627370496. lia.
    + exists r, E. split; [apply aux_out_mk; lia|].
      unfold canon. change (2 ^ 53) with 9007199254740992.
      change (2 ^ 52) with 4503599627370496. lia.
Qed.

(** A number with at most 53 digits is not changed by rounding. *)
Lemma nearest_exact (m e : Z) :
  0 < m -> Zdigits2 m <= 53 -> -1074 <= e -> Zdigits2 m + e <= 1024 ->
  let E := Fexp (Zdigits2 m + e) in
  nearest m e = mk (m * 2 ^ (e - E)) E /\ canon (m * 2 ^ (e - E)) E /\ E <= e.
Proof.
  intros Hm Hd He Ho E.
  pose proof (Fexp_eq (Zdigits2 m + e)) as HE. fold E in HE.
  assert (LE : E <= e) by lia.
  assert (P : 0 < 2 ^ (e - E)) by (apply Z.pow_pos_nonneg; lia).
  set (m' := m * 2 ^ (e - E)).
  assert (D : Zdigits2 m' = Zdigits2 m + (e - E)).
  { unfold m'. apply Zdigits2_shift; lia. }
  assert (Hm' : 0 < m') by (unfold m'; nia).
  pose proof (Zdigits2_bounds m' Hm') as B.
  assert (U : m' < 2 ^ 53).
  { assert (2 ^ Zdigits2 m' <= 2 ^ 53) by (apply Z.pow_le_mono_r; lia). lia. }
  assert (C : canon m' E).
  { unfold canon. split; [lia|]. split; [lia|].
    destruct (Z.eq_dec E (-1074)) as [Z|NZ]; [left; exact Z|right].
    assert (Zdigits2 m' = 53) by lia.
    replace 52 with (Zdigits2 m' - 1) by lia. lia. }
  split; [|split; [exact C|exact LE]].
  rewrite (nearest_aux m e E) by lia. fold m'.
  rewrite aux_regime; [|lia|].
  - replace (Zdigits2 m' + E) with (Zdigits2 m + e) by lia. fold E.
    unfold rounded. replace (Zdigits2 m' + E) with (Zdigits2 m + e) by lia. fold E.
    rewrite Z.ltb_irrefl. unfold norm.
    destruct (Z.eqb_spec m' (2 ^ 53)); [lia|]. apply aux_out_mk. lia.
  - replace (Zdigits2 m' + E) with (Zdigits2 m + e) by lia. fold E. lia.
Qed.

Lemma canon_digits (m e : Z) :
  canon m e -> 0 < m -> Fexp (Zdigits2 m + e) = e /\ Zdigits2 m <= 53.
Proof.
  intros (Hm & He & Hn) Hp.
  pose proof (Zdigits2_bounds m Hp) as B. pose proof (Zdigits2_pos m Hp) as P.
  assert (Hd : Zdigits2 m <= 53).
  { destruct (Z.le_gt_cases (Zdigits2 m) 53) as [L|G]; [exact L|].
    assert (2 ^ 53 <= 2 ^ (Zdigits2 m - 1)) by (apply Z.pow_le_mono_r; lia). lia. }
  split; [|exact Hd]. rewrite Fexp_eq.
  destruct Hn as [Hn|Hn]; [lia|].
  assert (53 <= Zdigits2 m); [|lia].
  destruct (Z.le_gt_cases 53 (Zdigits2 m)) as [L|G]; [exact L|].
  assert (2 ^ Zdigits2 m <= 2 ^ 52) by (apply Z.pow_le_mono_r; lia). lia.
Qed.

Lemma nearest_canon_id (m e : Z) : canon m e -> nearest m e = mk m e.
Proof.
  intros C. destruct (Z.eq_dec m 0) as [->|N]; [reflexivity|].
  assert (Hp : 0 < m) by (destruct C; lia).
  destruct (canon_digits m e C Hp) as [HE Hd].
  destruct C as (Hm & He & Hn).
  destruct (nearest_exact m e Hp Hd ltac:(lia) ltac:(lia)) as [H _].
  rewrite HE in H. rewrite Z.sub_diag in H. change (2 ^ 0) with 1 in H.
  rewrite Z.mul_1_r in H. exact H.
Qed.

Lemma canon_valid (m e : Z) : canon m e -> valid_binary (mk m e) = true.
Proof.
  intros C. destruct m as [|p|p]; try reflexivity.
  destruct (canon_digits (Zpos p) e C ltac:(lia)) as [HE _].
  destruct C as (_ & He & _).
  cbn [mk valid_binary]. unfold bounded, canonical_mantissa.
  change (Zpos (digits2_pos p)) with (Zdigits2 (Zpos p)).
  rewrite HE, Z.eqb_refl. change (emax - prec) with 971.
  apply Z.leb_le. lia.
Qed.

(** On canonical floats the order of the representations is that of the
    values. *)
Lemma canon_leb (m1 e1 m2 e2 : Z) :
  canon m1 e1 -> canon m2 e2 ->
  SFleb (mk m1 e1) (mk m2 e2) = true ->
  m1 * 2 ^ (e1 + 1074) <= m2 * 2 ^ (e2 + 1074).
Proof.
  intros (M1 & E1 & N1) (M2 & E2 & N2).
  assert (P1 : 0 < 2 ^ (e1 + 1074)) by (apply Z.pow_pos_nonneg; lia).
  assert (P2 : 0 < 2 ^ (e2 + 1074)) by (apply Z.pow_pos_nonneg; lia).
  change (2 ^ 53) with 9007199254740992 in *.
  change (2 ^ 52) with 4503599627370496 in *.
  destruct m1 as [|p1|p1], m2 as [|p2|p2]; try lia; unfold mk, SFleb; cbn [SFcompare];
    try discriminate.
  destruct (Z.compare_spec e1 e2) as [EQ|LT|GT]; try discriminate.
  - subst e2. change (Pos.compare_cont Eq p1 p2) with (Pos.compare p1 p2).
    destruct (Pos.compare_spec p1 p2); try discriminate; intros _; nia.
  - intros _.
    assert (2 * 2 ^ (e1 + 1074) <= 2 ^ (e2 + 1074)).
    { assert (0 < 2 ^ (e2 - e1 - 1)) by (apply Z.pow_pos_nonneg; lia).
      replace (2 ^ (e2 + 1074)) with (2 * 2 ^ (e1 + 1074) * 2 ^ (e2 - e1 - 1)); [nia|].
      rewrite <- Z.pow_succ_r, <- Z.pow_add_r by lia. f_equal. lia. }
    nia.
Qed.

Lemma nearest_scale (m e k : Z) : 0 <= m -> 0 <= k -> nearest (m * 2 ^ k) (e - k) = nearest m e.
Proof.
  intros Hm Hk. destruct (Z.eq_dec m 0) as [->|N]; [reflexivity|].
  assert (Pk : 0 < 2 ^ k) by (apply Z.pow_pos_nonneg; lia).
  set (e0 := Z.min (e - k) (-1074)).
  pose proof (Fexp_eq (Zdigits2 m + e)) as HE.
  rewrite (nearest_aux m e e0) by (unfold e0; lia).
  rewrite (nearest_aux (m * 2 ^ k) (e - k) e0).
  - f_equal. rewrite <- Z.mul_assoc, <- Z.pow_add_r by (unfold e0; lia).
    f_equal. f_equal. lia.
  - nia.
  - unfold e0. lia.
  - rewrite Zdigits2_shift by lia.
    replace (Zdigits2 m + k + (e - k)) with (Zdigits2 m + e) by lia.
    unfold e0. lia.
Qed.

(** *** Addition and multiplication of non-negative floats *)

Lemma SFadd_mk (m1 e1 m2 e2 : Z) :
  canon m1 e1 -> canon m2 e2 ->
  SFadd prec emax (mk m1 e1) (mk m2 e2)
  = nearest (m1 * 2 ^ (e1 - Z.min e1 e2) + m2 * 2 ^ (e2 - Z.min e1 e2)) (Z.min e1 e2).
Proof.
  intros C1 C2. pose proof C1 as (M1 & E1 & N1). pose proof C2 as (M2 & E2 & N2).
  change (2 ^ 52) with 4503599627370496 in *.
  destruct (Z.eq_dec m1 0) as [Z1|NZ1]; [|destruct (Z.eq_dec m2 0) as [Z2|NZ2]].
  - subst m1. assert (e1 = -1074) by lia. subst e1.
    replace (Z.min (-1074) e2) with (-1074) by lia.
    rewrite Z.mul_0_l, Z.add_0_l.
    replace (nearest (m2 * 2 ^ (e2 - -1074)) (-1074)) with (nearest m2 e2)
      by (rewrite <- (nearest_scale m2 e2 (e2 - -1074)) by lia; f_equal; lia).
    rewrite (nearest_canon_id m2 e2 C2).
    destruct m2; try lia; reflexivity.
  - subst m2. assert (e2 = -1074) by lia. subst e2.
    replace (Z.min e1 (-1074)) with (-1074) by lia.
    rewrite Z.mul_0_l, Z.add_0_r.
    replace (nearest (m1 * 2 ^ (e1 - -1074)) (-1074)) with (nearest m1 e1)
      by (rewrite <- (nearest_scale m1 e1 (e1 - -1074)) by lia; f_equal; lia).
    rewrite (nearest_canon_id m1 e1 C1).
    destruct m1; try lia; reflexivity.
  - destruct m1 as [|p1|p1], m2 as [|p2|p2]; try lia.
    cbn [mk SFadd cond_Zopp].
    destruct (shl_align_spec p1 e1 (Z.min e1 e2)) as [_ F1].
    destruct (shl_align_spec p2 e2 (Z.min e1 e2)) as [_ F2].
    rewrite F1, F2.
    replace (Z.min e1 (Z.min e1 e2)) with (Z.min e1 e2) by lia.
    replace (Z.min e2 (Z.min e1 e2)) with (Z.min e1 e2) by lia.
    reflexivity.
Qed.

Lemma SFmul_mk (m1 e1 m2 e2 : Z) :
  canon m1 e1 -> canon m2 e2 ->
  SFmul prec emax (mk m1 e1) (mk m2 e2) = nearest (m1 * m2) (e1 + e2).
Proof.
  intros C1 C2.
  destruct m1 as [|p1|p1], m2 as [|p2|p2];
    try reflexivity; try (destruct C1 as ((? & _) & _); lia);
    try (destruct C2 as ((? & _) & _); lia).
  destruct (canon_digits _ _ C1 ltac:(lia)) as [F1 D1].
  destruct (canon_digits _ _ C2 ltac:(lia)) as [F2 D2].
  rewrite Fexp_eq in F1, F2.
  pose proof (Zdigits2_mono (Zpos p1) (Zpos p1 * Zpos p2) ltac:(nia)) as G1.
  pose proof (Zdigits2_mono (Zpos p2) (Zpos p1 * Zpos p2) ltac:(nia)) as G2.
  pose proof (Fexp_eq (Zdigits2 (Zpos p1 * Zpos p2) + (e1 + e2))) as HE.
  destruct C1 as (_ & E1 & _). destruct C2 as (_ & E2 & _).
  rewrite (nearest_aux (Zpos p1 * Zpos p2) (e1 + e2) (e1 + e2)) by lia.
  rewrite Z.sub_diag. change (2 ^ 0) with 1. rewrite Z.mul_1_r. reflexivity.
Qed.

(** *** Timestamps in seconds *)

Lemma Zdigits2_le (m k : Z) : 0 < m < 2 ^ k -> Zdigits2 m <= k.
Proof.
  intros H. pose proof (Zdigits2_bounds m ltac:(lia)) as B.
  destruct (Z.le_gt_cases (Zdigits2 m) k) as [L|G]; [exact L|].
  assert (2 ^ k <= 2 ^ (Zdigits2 m - 1)) by (apply Z.pow_le_mono_r; lia). lia.
Qed.

Lemma repr_nearest (x : float) (v : Z) : repr x v -> Prim2SF x = nearest v (-1074) /\ 0 <= v.
Proof.
  intros (m & e & Hx & C & <-). pose proof C as (M & E & _).
  assert (0 < 2 ^ (e + 1074)) by (apply Z.pow_pos_nonneg; lia).
  split; [|nia].
  rewrite Hx, <- (nearest_canon_id m e C), <- (nearest_scale m e (e + 1074)) by lia.
  f_equal. lia.
Qed.

Lemma repr_int (z : Z) :
  0 <= z < 2 ^ 53 ->
  exists m e, Prim2SF (double_of_int z) = mk m e /\ canon m e /\
              m * 2 ^ (e + 1074) = z * 2 ^ 1074 /\ e <= 0.
Proof.
  intros Hz. unfold double_of_int. fold (nearest z 0).
  destruct (Z.eq_dec z 0) as [->|N].
  - exists 0, (-1074). rewrite nearest_zero.
    split; [apply Prim2SF_SF2Prim; reflexivity|].
    split; [unfold canon; lia|]. split; lia.
  - pose proof (Zdigits2_le z 53 ltac:(lia)) as D.
    destruct (nearest_exact z 0 ltac:(lia) D ltac:(lia) ltac:(lia)) as (HR & C & LE).
    cbv zeta in HR, C, LE. set (E := Fexp (Zdigits2 z + 0)) in *.
    exists (z * 2 ^ (0 - E)), E. rewrite HR.
    split; [apply Prim2SF_SF2Prim, canon_valid, C|].
    split; [exact C|]. split; [|exact LE].
    destruct C as (_ & ? & _).
    rewrite <- Z.mul_assoc, <- Z.pow_add_r by lia. f_equal. f_equal. lia.
Qed.

Section Seconds.

Variables (c : float) (mc ec U : Z).
Hypothesis c_repr : Prim2SF c = mk mc ec.
Hypothesis c_canon : canon mc ec.
Hypothesis c_small : ec <= 0.
Hypothesis U_range : 0 < U <= 2 ^ 53.
Hypothesis last_fraction : (double_of_int (U - 1) * c <=? 1)%float = true.

(** The fraction [(double) n * c] as a function of [n]. *)
Lemma fraction_nearest (n : Z) :
  0 <= n < 2 ^ 53 ->
  Prim2SF (double_of_int n * c) = nearest (n * 2 ^ 1074 * mc) (ec - 1074) /\
  exists v, repr (double_of_int n * c) v.
Proof.
  intros Hn. destruct (repr_int n Hn) as (m & e & Hx & C & V & LE).
  assert (P : Prim2SF (double_of_int n * c) = nearest (m * mc) (e + ec)).
  { rewrite mul_spec, Hx, c_repr. apply SFmul_mk; assumption. }
  pose proof C as (M & E & _). pose proof c_canon as (Mc & Ec & _).
  assert (Q : nearest (m * mc) (e + ec) = nearest (n * 2 ^ 1074 * mc) (ec - 1074)).
  { rewrite <- V. rewrite <- (nearest_scale (m * mc) (e + ec) (e + 1074)); [|nia|lia].
    f_equal; lia. }
  split; [rewrite P; exact Q|].
  destruct (nearest_canon (m * mc) (e + ec)) as (r & F & HR & CR).
  - nia.
  - destruct (Z.eq_dec (m * mc) 0) as [->|NZ]; [simpl; lia|].
    assert (Zdigits2 (m * mc) <= 106); [|lia].
    apply Zdigits2_le. change (2 ^ 106) with (2 ^ 53 * 2 ^ 53). nia.
  - exists (r * 2 ^ (F + 1074)), r, F. rewrite P, HR. auto.
Qed.

Lemma repr_leb (x y : float) (vx vy : Z) :
  repr x vx -> repr y vy -> (x <=? y)%float = true -> vx <= vy.
Proof.
  intros (m1 & e1 & H1 & C1 & <-) (m2 & e2 & H2 & C2 & <-) L.
  rewrite leb_spec, H1, H2 in L. apply canon_leb; assumption.
Qed.

Lemma fraction_mono (n1 n2 : Z) :
  0 <= n1 <= n2 -> n2 < 2 ^ 53 ->
  (double_of_int n1 * c <=? double_of_int n2 * c)%float = true.
Proof.
  intros H1 H2. rewrite leb_spec.
  destruct (fraction_nearest n1 ltac:(lia)) as [-> _].
  destruct (fraction_nearest n2 ltac:(lia)) as [-> _].
  pose proof c_canon as (Mc & _).
  apply (nearest_mono _ _ _ _ (ec - 1074)); try lia; try nia.
  rewrite Z.sub_diag. change (2 ^ 0) with 1. nia.
Qed.

Lemma fraction_below_one (n v : Z) :
  0 <= n < U -> repr (double_of_int n * c) v -> v <= 2 ^ 1074.
Proof.
  intros Hn Hv.
  destruct (fraction_nearest (U - 1) ltac:(lia)) as [_ [w Hw]].
  assert (L1 : v <= w).
  { apply (repr_leb _ _ _ _ Hv Hw). apply fraction_mono; lia. }
  assert (L2 : w <= 2 ^ 1074); [|lia].
  apply (repr_leb _ 1%float _ _ Hw); [|exact last_fraction].
  exists (2 ^ 52), (-52). split; [reflexivity|]. split; [|reflexivity].
  unfold canon. change (2 ^ 52) with 4503599627370496.
  change (2 ^ 53) with 9007199254740992. lia.
Qed.

Lemma seconds_nearest (s n v : Z) :
  0 <= s < 2 ^ 53 -> repr (double_of_int n * c) v ->
  Prim2SF (double_of_int s + double_of_int n * c) = nearest (s * 2 ^ 1074 + v) (-1074).
Proof.
  intros Hs (mx & ex & Hx & Cx & Vx).
  destruct (repr_int s Hs) as (ms & es & Hm & Cs & Vs & _).
  rewrite add_spec, Hm, Hx. unfold SF64add.
  rewrite SFadd_mk by assumption.
  pose proof Cs as (Ms & Es & _). pose proof Cx as (Mx & Ex & _).
  set (e0 := Z.min es ex).
  assert (P1 : 0 < 2 ^ (es - e0)) by (apply Z.pow_pos_nonneg; unfold e0; lia).
  assert (P2 : 0 < 2 ^ (ex - e0)) by (apply Z.pow_pos_nonneg; unfold e0; lia).
  rewrite <- (nearest_scale _ e0 (e0 + 1074)); [|nia|unfold e0; lia].
  f_equal; [|lia].
  rewrite Z.mul_add_distr_r, <- !Z.mul_assoc, <- !Z.pow_add_r by (unfold e0; lia).
  replace (es - e0 + (e0 + 1074)) with (es + 1074) by lia.
  replace (ex - e0 + (e0 + 1074)) with (ex + 1074) by lia.
  lia.
Qed.

(** The seconds a clock reading converts to do not decrease when the
    reading does not: the reading is [s] whole seconds and [n] units. *)
Lemma seconds_mono (s1 n1 s2 n2 : Z) :
  0 <= s1 -> s2 < 2 ^ 53 -> 0 <= n1 < U -> 0 <= n2 < U ->
  s1 < s2 \/ (s1 = s2 /\ n1 <= n2) ->
  (double_of_int s1 + double_of_int n1 * c
   <=? double_of_int s2 + double_of_int n2 * c)%float = true.
Proof.
  intros S1 S2 N1 N2 H.
  destruct (fraction_nearest n1 ltac:(lia)) as [_ [v1 V1]].
  destruct (fraction_nearest n2 ltac:(lia)) as [_ [v2 V2]].
  destruct (repr_nearest _ _ V1) as [_ P1]. destruct (repr_nearest _ _ V2) as [_ P2].
  pose proof (fraction_below_one n1 v1 N1 V1) as B1.
  assert (Q : 0 < 2 ^ 1074) by (apply Z.pow_pos_nonneg; lia).
  rewrite leb_spec.
  rewrite (seconds_nearest s1 n1 v1), (seconds_nearest s2 n2 v2) by (assumption || lia).
  apply (nearest_mono _ _ _ _ (-1074)); try lia; try nia.
  rewrite Z.sub_diag. change (2 ^ 0) with 1. rewrite !Z.mul_1_r.
  destruct H as [H|[-> H]].
  - nia.
  - assert (v1 <= v2); [|lia].
    apply (repr_leb _ _ _ _ V1 V2). apply fraction_mono; lia.
Qed.

End Seconds.

Lemma nanoseconds_mono (s1 n1 s2 n2 : Z) :
  0 <= s1 -> s2 < 2 ^ 53 -> 0 <= n1 < 1000000000 -> 0 <= n2 < 1000000000 ->
  s1 < s2 \/ (s1 = s2 /\ n1 <= n2) ->
  (double_of_int s1 + double_of_int n1 * 1e-9
   <=? double_of_int s2 + double_of_int n2 * 1e-9)%float = true.
Proof.
  apply (seconds_mono 1e-9 4835703278458517 (-82) 1000000000).
  - reflexivity.
  - unfold canon. change (2 ^ 52) with 4503599627370496.
    change (2 ^ 53) with 9007199254740992. lia.
  - lia.
  - change (2 ^ 53) with 9007199254740992. lia.
  - vm_compute. reflexivity.
Qed.

Lemma microseconds_mono (s1 n1 s2 n2 : Z) :
  0 <= s1 -> s2 < 2 ^ 53 -> 0 <= n1 < 1000000 -> 0 <= n2 < 1000000 ->
  s1 < s2 \/ (s1 = s2 /\ n1 <= n2) ->
  (double_of_int s1 + double_of_int n1 * 1e-6
   <=? double_of_int s2 + double_of_int n2 * 1e-6)%float = true.
Proof.
  apply (seconds_mono 1e-6 4722366482869645 (-72) 1000000).
  - reflexivity.
  - unfold canon. change (2 ^ 52) with 4503599627370496.
    change (2 ^ 53) with 9007199254740992. lia.
  - lia.
  - change (2 ^ 53) with 9007199254740992. lia.
  - vm_compute. reflexivity.
Qed.

End Rounding.

(** ** The timestamp sources *)

Section Clocks.
Import C OS Spec.

Lemma reading_order (u1 u2 U : Z) :
  (0 < U -> 0 <= u1 <= u2 ->
   0 <= u1 / U /\ 0 <= u1 mod U < U /\ 0 <= u2 mod U < U /\
   (u1 / U < u2 / U \/ (u1 / U = u2 / U /\ u1 mod U <= u2 mod U)))%Z.
Proof.
  intros HU H.
  pose proof (Z.div_mod u1 U ltac:(lia)) as D1.
  pose proof (Z.div_mod u2 U ltac:(lia)) as D2.
  pose proof (Z.mod_pos_bound u1 U HU) as B1.
  pose proof (Z.mod_pos_bound u2 U HU) as B2.
  assert (0 <= u1 / U)%Z by (apply Z.div_pos; lia).
  assert (u1 / U <= u2 / U)%Z by (apply Z.div_le_mono; lia).
  repeat split; try lia.
  destruct (Z.eq_dec (u1 / U)%Z (u2 / U)%Z) as [E|N]; [right|left; lia].
  split; [exact E|]. rewrite E in D1. lia.
Qed.

(** [get_time] never goes back: CLOCK_MONOTONIC does not, and the
    conversion to seconds keeps the order, roundings included. *)
Lemma get_time_mono (os : clocks) (w w' : world) :
  (0 <= uptime_ns os (clock_calls w) <= uptime_ns os (clock_calls w'))%Z ->
  (uptime_ns os (clock_calls w') < 2 ^ 53 * 1000000000)%Z ->
  (fst (get_time os w) <=? fst (get_time os w'))%float = true.
Proof.
  intros H B. unfold get_time, clock_gettime_monotonic, timespec_seconds.
  cbn [fst ts_sec ts_nsec].
  destruct (reading_order _ _ 1000000000 ltac:(lia) H) as (S1 & N1 & N2 & O).
  apply nanoseconds_mono; try assumption.
  apply Z.div_lt_upper_bound; lia.
Qed.

(** [mysecond] goes back exactly when the wall clock does. *)
Lemma mysecond_mono (os : clocks) (w w' : world) :
  (0 <= uptime_ns os (clock_calls w) / 1000 + wall_offset_us os (clock_calls w)
     <= uptime_ns os (clock_calls w') / 1000 + wall_offset_us os (clock_calls w'))%Z ->
  (uptime_ns os (clock_calls w') / 1000 + wall_offset_us os (clock_calls w')
     < 2 ^ 53 * 1000000)%Z ->
  (fst (mysecond os w) <=? fst (mysecond os w'))%float = true.
Proof.
  intros H B. unfold mysecond, gettimeofday, timeval_seconds.
  cbn [fst tv_sec tv_usec].
  destruct (reading_order _ _ 1000000 ltac:(lia) H) as (S1 & N1 & N2 & O).
  apply microseconds_mono; try assumption.
  apply Z.div_lt_upper_bound; lia.
Qed.

(** C9, as the code has it.  [get_time] of the OpenMP examples reads
    CLOCK_MONOTONIC: seconds and nanoseconds of the time since boot, so two
    systems with the same uptime give the same value whatever their wall
    clocks show, and a later sample is never smaller than an earlier one
    (for uptimes below 2^53 seconds, which a double holds exactly).
    [mysecond] of STREAM reads the wall clock through [gettimeofday]:
    seconds and microseconds of the uptime plus the wall-clock offset, so it
    follows every adjustment of the wall clock, and is non-decreasing only
    as far as the wall clock is. *)
Theorem clock_sources (os os' : clocks) (w w' : world) (k : nat) :
  ((forall j, uptime_ns os' j = uptime_ns os j) -> get_time os' w = get_time os w) /\
  (let ts := clock_gettime_monotonic os k in
   (0 <= ts_nsec ts < 1000000000)%Z /\
   (ts_sec ts * 1000000000 + ts_nsec ts = uptime_ns os k)%Z) /\
  (let tp := gettimeofday os k in
   (0 <= tv_usec tp < 1000000)%Z /\
   (tv_sec tp * 1000000 + tv_usec tp
    = uptime_ns os k / 1000 + wall_offset_us os k)%Z) /\
  fst (get_time os w) = timespec_seconds (clock_gettime_monotonic os (clock_calls w)) /\
  fst (mysecond os w) = timeval_seconds (gettimeofday os (clock_calls w)) /\
  ((0 <= uptime_ns os (clock_calls w) <= uptime_ns os (clock_calls w'))%Z ->
   (uptime_ns os (clock_calls w') < 2 ^ 53 * 1000000000)%Z ->
   (fst (get_time os w) <=? fst (get_time os w'))%float = true) /\
  (let wall_us j := (uptime_ns os j / 1000 + wall_offset_us os j)%Z in
   (0 <= wall_us (clock_calls w) <= wall_us (clock_calls w'))%Z ->
   (wall_us (clock_calls w') < 2 ^ 53 * 1000000)%Z ->
   (fst (mysecond os w) <=? fst (mysecond os w'))%float = true).
Proof.
  split; [|split; [|split; [|split; [|split; [|split]]]]].
  - intros H. unfold get_time, clock_gettime_monotonic. rewrite H. reflexivity.
  - unfold clock_gettime_monotonic. simpl. split.
    + apply Z.mod_pos_bound. lia.
    + pose proof (Z.div_mod (uptime_ns os k) 1000000000). lia.
  - unfold gettimeofday. simpl. split.
    + apply Z.mod_pos_bound. lia.
    + pose proof (Z.div_mod (uptime_ns os k / 1000 + wall_offset_us os k) 1000000).
      lia.
  - reflexivity.
  - reflexivity.
  - apply get_time_mono.
  - intros wall_us. apply mysecond_mono.
Qed.

(** The two order statements of [clock_sources] on a system up for 100
    seconds, sampled twice one second apart, with a wall clock that is not
    touched. *)
Lemma clock_sources_witness :
  (fst (get_time Sample.steady_clock (World 0 []))
   <=? fst (get_time Sample.steady_clock (World 1 [])))%float = true /\
  (fst (mysecond Sample.steady_clock (World 0 []))
   <=? fst (mysecond Sample.steady_clock (World 1 [])))%float = true.
Proof.
  destruct (clock_sources Sample.steady_clock Sample.steady_clock
              (World 0 []) (World 1 []) 0) as (_ & _ & _ & _ & _ & G & M).
  split.
  - apply G; vm_compute; split; congruence.
  - apply M; vm_compute; split; congruence.
Defined.

(** Where the claim fails: the wall clock is set back by 50 seconds between
    two samples taken one second apart.  [mysecond] returns 100 and then 51:
    the elapsed time is -49 seconds.  [get_time] returns 100 and then 101. *)
Lemma mysecond_follows_wall_clock_step :
  fst (mysecond Sample.stepped_back (World 0 [])) = 100%float /\
  fst (mysecond Sample.stepped_back (World 1 [])) = 51%float /\
  (fst (mysecond Sample.stepped_back (World 1 []))
   - fst (mysecond Sample.stepped_back (World 0 [])))%float = (-49)%float /\
  lt (fst (mysecond Sample.stepped_back (World 1 []))
      - fst (mysecond Sample.stepped_back (World 0 [])))%float 0 = true /\
  (fst (get_time Sample.stepped_back (World 1 []))
   - fst (get_time Sample.stepped_back (World 0 [])))%float = 1%float.
Proof. vm_compute. repeat split; reflexivity. Qed.

End Clocks.
